(** * opencode-mystatus: the quota query orchestrator

    A shallow embedding of [plugin/mystatus.ts] (the [mystatus] tool: fan-out
    of the platform queries, per-query timeout, merge, report) and of
    [plugin/lib/copilot.ts] (the GitHub Copilot query), with the text table of
    [plugin/lib/i18n.ts].

    Asynchronous code is embedded on a logical clock: a promise is either
    never settled or settled at an instant (in milliseconds since the tool
    launched its tasks) with a value or a rejection reason.

    The plug-in is embedded twice.  [MyStatus] and [Copilot], over [Js], are
    the plug-in for providers that raise only [Error]s and primitives and for
    timeout budgets between 1 and 2^31-1 ms.  [Plugin], over [JsAny], is the
    plug-in for any thrown value (also one whose conversion to a string
    throws) and any budget (a timer of Node does not wait longer than
    2^31-1 ms).  Section [Agreement] proves that the second is the first
    where the first applies. *)

From Stdlib Require Import NArith String Ascii List Permutation.
From stdpp Require Import base numbers option list strings pretty sorting.

Local Open Scope N_scope.
Local Open Scope string_scope.
Local Open Scope list_scope.

(* ====================================================================== *)
(** ** The fragment of JavaScript the plug-in relies on                    *)
(* ====================================================================== *)

Module Js.

(** The line feed written ["\n"] in the source. *)
Definition nl : string := String (ascii_of_nat 10) EmptyString.

(** Values that reach a [catch] clause or a rejection handler: an [Error]
    instance (with its [name] and [message]) or a primitive.  Converting any
    of them to a string cannot itself throw; values for which it can are in
    [JsAny.Value]. *)
Inductive Value : Type :=
  | VError (name message : string)
  | VString (s : string)
  | VUndefined
  | VNull
  | VBool (b : bool).

(** [new Error(message)] *)
Definition Error (message : string) : Value := VError "Error" message.

Definition nonEmpty (s : string) : bool :=
  match s with EmptyString => false | String _ _ => true end.

(** [String(v)], also what a template literal does with [v];
    for an [Error] this is [Error.prototype.toString]. *)
Definition toString (v : Value) : string :=
  match v with
  | VError name message =>
      if nonEmpty name
      then if nonEmpty message then name +:+ ": " +:+ message else name
      else message
  | VString s => s
  | VUndefined => "undefined"
  | VNull => "null"
  | VBool true => "true"
  | VBool false => "false"
  end.

(** [err instanceof Error ? err.message : String(err)] *)
Definition errorText (err : Value) : string :=
  match err with
  | VError _ message => message
  | _ => toString err
  end.

(** Truthiness of an optional string property ([undefined] and [""] are
    falsy, every other string is truthy). *)
Definition truthy (s : option string) : bool :=
  match s with
  | Some s => nonEmpty s
  | None => false
  end.

(** [parts.join(sep)] on an array of strings. *)
Definition join (sep : string) (parts : list string) : string :=
  String.concat sep parts.

(** A number with at most three decimals, as a count of thousandths: the
    only arithmetic on a non-integer in the plug-in is [timeoutMs / 1000]
    on a whole number of milliseconds. *)
Record Number : Type := Thousandths { thousandths : N }.

(** [ms / 1000] *)
Definition div1000 (ms : N) : Number := Thousandths ms.

(** The decimals of a non-zero remainder [r < 1000], without trailing
    zeros. *)
Definition fraction (r : N) : string :=
  let d1 := pretty (r / 100) in
  let d2 := pretty ((r / 10) mod 10) in
  let d3 := pretty (r mod 10) in
  if negb (r mod 10 =? 0)%N then d1 +:+ d2 +:+ d3
  else if negb ((r / 10) mod 10 =? 0)%N then d1 +:+ d2
  else d1.

(** [`${x}`] for such a number: the shortest decimal that reads back as the
    same double, which for a count of thousandths under 10^15 is its exact
    decimal expansion. *)
Definition Number_toString (x : Number) : string :=
  let n := thousandths x in
  if (n mod 1000 =? 0)%N then pretty (n / 1000)
  else pretty (n / 1000) +:+ "." +:+ fraction (n mod 1000).

(** *** Calls and promises *)

(** The outcome of a synchronous call. *)
Inductive Call (A : Type) : Type :=
  | Returns (a : A)
  | Throws (e : Value).
Arguments Returns {A} a.
Arguments Throws {A} e.

(** Milliseconds on the logical clock. *)
Definition Time : Type := N.

Inductive Settled (A : Type) : Type :=
  | Fulfilled (value : A)
  | Rejected (reason : Value).
Arguments Fulfilled {A} value.
Arguments Rejected {A} reason.

(** A promise: [None] stays pending for ever, [Some (at, s)] settles at
    instant [at] as [s]. *)
Definition Promise (A : Type) : Type := option (Time * Settled A).

(** How a promise settles, if it does. *)
Definition result {A} (p : Promise A) : option (Settled A) :=
  match p with
  | Some (_, s) => Some s
  | None => None
  end.

Definition pending {A} : Promise A := None.
Definition resolved {A} (at_ : Time) (v : A) : Promise A := Some (at_, Fulfilled v).
Definition rejected {A} (at_ : Time) (e : Value) : Promise A := Some (at_, Rejected e).

(** A continuation of an [async] function that resumes at [now] cannot
    finish before [now]. *)
Definition notBefore {A} (now : Time) (p : Promise A) : Promise A :=
  match p with
  | Some (at_, s) => Some (N.max now at_, s)
  | None => None
  end.

(** [return v] in an [async] function. *)
Definition async_return {A} (v : A) : Promise A := resolved 0 v.

(** [const x = await p; k x] in an [async] function: a rejection of [p] is
    thrown at the [await]. *)
Definition await {A B} (p : Promise A) (k : A -> Promise B) : Promise B :=
  match p with
  | None => None
  | Some (at_, Fulfilled v) => notBefore at_ (k v)
  | Some (at_, Rejected e) => rejected at_ e
  end.

(** A synchronous call inside an [async] function: a synchronous throw
    rejects the function's promise unless a [catch] intervenes. *)
Definition call {A B} (c : Call A) (k : A -> Promise B) : Promise B :=
  match c with
  | Returns a => k a
  | Throws e => rejected 0 e
  end.

(** [try { body } catch (err) { handler err }] in an [async] function. *)
Definition try_catch {A} (body : Promise A) (handler : Value -> Promise A) : Promise A :=
  match body with
  | Some (at_, Rejected e) => notBefore at_ (handler e)
  | _ => body
  end.

(** [new Promise((resolve) => setTimeout(() => resolve(v), ms))], created
    at instant 0, for a delay between 1 and 2^31-1 ms; what a timer does
    with any other delay is in [JsAny.timerDelay]. *)
Definition setTimeout_resolve {A} (ms : N) (v : A) : Promise A := resolved ms v.

(** [Promise.race(ps)]: settles as the first of [ps] to settle; of two
    promises settled at the same instant the one listed first wins, as its
    reaction is queued first.  An empty race never settles. *)
Fixpoint Promise_race {A} (ps : list (Promise A)) : Promise A :=
  match ps with
  | [] => None
  | p :: rest =>
      match p, Promise_race rest with
      | None, r => r
      | Some x, None => Some x
      | Some (at_, s), Some (at', s') =>
          if (at_ <=? at')%N then Some (at_, s) else Some (at', s')
      end
  end.

(** *** [Promise.allSettled]

    The result array [values] has one slot per input promise, initially
    [undefined]; when the promise at index [i] settles, its reaction stores
    the result in [values[i]].  Reactions run in completion order.  The
    aggregate promise is fulfilled with [values] once every input has
    settled, and never rejects. *)

(** One completion: the instant, the index of the promise, its result. *)
Definition Completion (A : Type) : Type := (Time * (nat * Settled A))%type.

Definition completions {A} (ps : list (Promise A)) : list (Completion A) :=
  omap (fun ip : nat * Promise A =>
          match ip.2 with
          | Some (at_, s) => Some (at_, (ip.1, s))
          | None => None
          end)
       (imap (fun i p => (i, p)) ps).

Definition earlier {A} (c1 c2 : Completion A) : Prop := (c1.1 <= c2.1)%N.

Global Instance earlier_dec {A} (c1 c2 : Completion A) : Decision (earlier c1 c2).
Proof. unfold earlier. apply _. Defined.

(** The completions in the order in which their reactions run. *)
Definition completionOrder {A} (ps : list (Promise A)) : list (Completion A) :=
  merge_sort earlier (completions ps).

(** [values[index] = result], for each completion in turn. *)
Definition fillSlots {A} (order : list (Completion A))
    (values : list (option (Settled A))) : list (option (Settled A)) :=
  fold_left (fun values c => <[c.2.1 := Some c.2.2]> values) order values.

Definition isSettled {A} (p : Promise A) : bool :=
  match p with Some _ => true | None => false end.

Definition Promise_allSettled {A} (ps : list (Promise A)) : Promise (list (Settled A)) :=
  if forallb isSettled ps
  then
    let order := completionOrder ps in
    let values := fillSlots order (replicate (length ps) None) in
    resolved (foldr N.max 0 (map fst order)) (omap id values)
  else pending.

End Js.

(* ====================================================================== *)
(** ** plugin/lib/i18n.ts: the text table                                  *)
(* ====================================================================== *)

Module I18n.
Import Js.

Inductive Language : Type := zh | zh_tw | en.

(** The entries of a language's table that the orchestrator and the Copilot
    query read. *)
Record Translations : Type := {
  authError : string -> string -> string;
  timeoutError : Number -> string;
  noAccounts : string;
  queryFailed : string;
  openaiTitle : string;
  zhipuTitle : string;
  zaiTitle : string;
  googleTitle : string;
  copilotTitle : string;
  copilotApiError : N -> string -> string
}.

Definition translations (lang : Language) : Translations :=
  match lang with
  | zh => {|
      authError path err :=
        "❌ 无法读取认证文件: " +:+ path +:+ nl +:+ "错误: " +:+ err;
      timeoutError seconds := "请求超时 (" +:+ Number_toString seconds +:+ "秒)";
      noAccounts :=
        "未找到任何已配置的账号。" +:+ nl +:+ nl +:+
        "支持的账号类型:" +:+ nl +:+
        "- OpenAI (Plus/Team/Pro 订阅用户)" +:+ nl +:+
        "- 智谱 AI (Coding Plan)" +:+ nl +:+
        "- Z.ai (Coding Plan)" +:+ nl +:+
        "- Google Cloud (Antigravity)";
      queryFailed := "❌ 查询失败的账号:" +:+ nl;
      openaiTitle := "## OpenAI 账号额度";
      zhipuTitle := "## 智谱 AI 账号额度";
      zaiTitle := "## Z.ai 账号额度";
      googleTitle := "## Google Cloud 账号额度";
      copilotTitle := "## GitHub Copilot 账号额度";
      copilotApiError status text :=
        "GitHub Copilot API 请求失败 (" +:+ pretty status +:+ "): " +:+ text
    |}
  | zh_tw => {|
      authError path err :=
        "❌ 無法讀取認證檔案: " +:+ path +:+ nl +:+ "錯誤: " +:+ err;
      timeoutError seconds := "請求逾時 (" +:+ Number_toString seconds +:+ "秒)";
      noAccounts :=
        "未找到任何已設定的帳號。" +:+ nl +:+ nl +:+
        "支援的帳號類型:" +:+ nl +:+
        "- OpenAI (Plus/Team/Pro 訂閱用戶)" +:+ nl +:+
        "- 智譜 AI (Coding Plan)" +:+ nl +:+
        "- Z.ai (Coding Plan)" +:+ nl +:+
        "- Google Cloud (Antigravity)";
      queryFailed := "❌ 查詢失敗的帳號:" +:+ nl;
      openaiTitle := "## OpenAI 帳號額度";
      zhipuTitle := "## 智譜 AI 帳號額度";
      zaiTitle := "## Z.ai 帳號額度";
      googleTitle := "## Google Cloud 帳號額度";
      copilotTitle := "## GitHub Copilot 帳號額度";
      copilotApiError status text :=
        "GitHub Copilot API 請求失敗 (" +:+ pretty status +:+ "): " +:+ text
    |}
  | en => {|
      authError path err :=
        "❌ Failed to read auth file: " +:+ path +:+ nl +:+ "Error: " +:+ err;
      timeoutError seconds := "Request timeout (" +:+ Number_toString seconds +:+ "s)";
      noAccounts :=
        "No configured accounts found." +:+ nl +:+ nl +:+
        "Supported account types:" +:+ nl +:+
        "- OpenAI (Plus/Team/Pro subscribers)" +:+ nl +:+
        "- Zhipu AI (Coding Plan)" +:+ nl +:+
        "- Z.ai (Coding Plan)" +:+ nl +:+
        "- Google Cloud (Antigravity)";
      queryFailed := "❌ Failed to query accounts:" +:+ nl;
      openaiTitle := "## OpenAI Account Quota";
      zhipuTitle := "## Zhipu AI Account Quota";
      zaiTitle := "## Z.ai Account Quota";
      googleTitle := "## Google Cloud Account Quota";
      copilotTitle := "## GitHub Copilot Account Quota";
      copilotApiError status text :=
        "GitHub Copilot API request failed (" +:+ pretty status +:+ "): " +:+ text
    |}
  end.

(** [t = translations[currentLang]]; the language is detected once, from the
    environment, when the module loads. *)
Definition t (currentLang : Language) : Translations := translations currentLang.

End I18n.

(* ====================================================================== *)
(** ** plugin/lib/types.ts, as the two modules use it                      *)
(* ====================================================================== *)

Module Types.

(** Modelled from the spec: [types.ts] is not part of the sources at hand;
    the spec's Outcome (section 3) and the properties that [copilot.ts] and
    [mystatus.ts] read and write give a query result a [success] flag, an
    optional [output] (the rendered body) and an optional [error] (the
    failure message).  [null] in place of a result, here [None], means that
    the platform is not configured. *)
Record QueryResult : Type := {
  success : bool;
  output : option string;
  error : option string
}.

(** [{ success: true, output }] *)
Definition succeeded (output : string) : QueryResult :=
  {| success := true; output := Some output; error := None |}.

(** [{ success: false, error }] *)
Definition failed (error : string) : QueryResult :=
  {| success := false; output := None; error := Some error |}.

(** Modelled from the spec: the Copilot entry of the credential file, of
    which [queryCopilotUsage] reads [type] and [refresh]. *)
Record CopilotAuthData : Type := {
  type : string;
  refresh : option string
}.

End Types.

(* ====================================================================== *)
(** ** plugin/lib/copilot.ts                                               *)
(* ====================================================================== *)

Module Copilot.
Import Js I18n Types.

Definition GITHUB_API_BASE_URL : string := "https://api.github.com".
Definition COPILOT_VERSION : string := "0.26.7".
Definition EDITOR_PLUGIN_VERSION : string := "copilot-chat/" +:+ COPILOT_VERSION.
Definition USER_AGENT : string := "GitHubCopilotChat/" +:+ COPILOT_VERSION.
Definition API_VERSION : string := "2025-04-01".

Definition buildGitHubHeaders (token : string) : list (string * string) :=
  [ ("content-type", "application/json");
    ("accept", "application/json");
    ("authorization", "token " +:+ token);
    ("editor-version", "vscode/1.96.0");
    ("editor-plugin-version", EDITOR_PLUGIN_VERSION);
    ("user-agent", USER_AGENT);
    ("x-github-api-version", API_VERSION);
    ("x-vscode-user-agent-library-version", "electron-fetch") ].

Section Network.

(** The parsed body of a successful reply. *)
Variable CopilotUsageResponse : Type.

(** What [fetchCopilotUsage] reads of an HTTP response. *)
Record Response : Type := {
  ok : bool;
  status : N;
  text : Promise string;
  json : Promise CopilotUsageResponse
}.

(** [utils.fetchWithTimeout(url, { headers })]: the network, which answers
    with a response, fails with an error, or stays silent. *)
Variable fetchWithTimeout : string -> list (string * string) -> Promise Response.

(** [formatCopilotUsage(data)] renders the reply with the wall clock and
    [utils.createProgressBar]; the query only needs that it returns a
    string or throws. *)
Variable formatCopilotUsage : CopilotUsageResponse -> Call string.

Variable currentLang : Language.

Definition fetchCopilotUsage (token : string) : Promise CopilotUsageResponse :=
  await (fetchWithTimeout (GITHUB_API_BASE_URL +:+ "/copilot_internal/user")
                          (buildGitHubHeaders token))
    (fun response =>
       if negb (ok response) then
         await (text response) (fun errorText =>
           rejected 0 (Error (copilotApiError (t currentLang) (status response) errorText)))
       else json response).

Definition queryCopilotUsage (authData : option CopilotAuthData)
    : Promise (option QueryResult) :=
  match authData with
  | None => async_return None
  | Some authData =>
      if negb (String.eqb (type authData) "oauth") || negb (truthy (refresh authData))
      then async_return None
      else
        try_catch
          (await (fetchCopilotUsage (default "" (refresh authData))) (fun usage =>
             call (formatCopilotUsage usage) (fun output =>
               async_return (Some (succeeded output)))))
          (fun err => async_return (Some (failed (errorText err))))
  end.

End Network.

Arguments ok {CopilotUsageResponse} _.
Arguments status {CopilotUsageResponse} _.
Arguments text {CopilotUsageResponse} _.
Arguments json {CopilotUsageResponse} _.

End Copilot.

(* ====================================================================== *)
(** ** plugin/mystatus.ts                                                  *)
(* ====================================================================== *)

Module MyStatus.
Import Js I18n Types.

(** One entry of the platform registry. *)
Record PlatformQuery : Type := {
  name : string;
  title : string;
  queryFn : unit -> Call (Promise (option QueryResult));
  timeoutMs : N
}.

Section Orchestrator.

Variable currentLang : Language.

(** The failure the timer resolves with. *)
Definition timeoutResult (timeoutMs : N) (platformName : string) : QueryResult :=
  {| success := false;
     output := None;
     error := Some ("[" +:+ platformName +:+ "] " +:+
                    timeoutError (t currentLang) (div1000 timeoutMs)) |}.

(** The failure built in the [catch] clause. *)
Definition caughtResult (platformName : string) (err : Value) : QueryResult :=
  {| success := false;
     output := None;
     error := Some ("[" +:+ platformName +:+ "] " +:+ errorText err) |}.

Definition queryWithTimeout
    (queryFn : unit -> Call (Promise (option QueryResult)))
    (timeoutMs : N) (platformName : string) : Promise (option QueryResult) :=
  try_catch
    (call (queryFn tt) (fun query =>
       await (Promise_race
                [ query;
                  setTimeout_resolve timeoutMs
                    (Some (timeoutResult timeoutMs platformName)) ])
             (fun result => async_return result)))
    (fun err => async_return (Some (caughtResult platformName err))).

(** The body of the loop over [settledResults]: a fulfilled task gives its
    value, a rejected one a failure made of its reason. *)
Definition settledToResult (platform : PlatformQuery)
    (settled : Settled (option QueryResult)) : option QueryResult :=
  match settled with
  | Fulfilled value => value
  | Rejected reason =>
      Some {| success := false;
              output := None;
              error := Some ("[" +:+ name platform +:+ "] " +:+ toString reason) |}
  end.

(** Reading a property of [undefined]. *)
Definition undefinedStatus : Value :=
  VError "TypeError" "Cannot read properties of undefined (reading 'status')".

(** [for (let i = 0; i < platforms.length; i++)], from index [i] on, with
    the platforms from [i] on: pairs each platform with the result at its
    index. *)
Fixpoint toQueryResults (i : nat) (platforms : list PlatformQuery)
    (settledResults : list (Settled (option QueryResult)))
    : Call (list (PlatformQuery * option QueryResult)) :=
  match platforms with
  | [] => Returns []
  | platform :: rest =>
      match settledResults !! i with
      | None => Throws undefinedStatus
      | Some settled =>
          match toQueryResults (S i) rest settledResults with
          | Returns queryResults =>
              Returns ((platform, settledToResult platform settled) :: queryResults)
          | Throws e => Throws e
          end
      end
  end.

(** [collectResult(result, title, results, errors)]: the two arrays it
    pushes to are passed in and handed back. *)
Definition collectResult (result : option QueryResult) (title : string)
    (results errors : list string) : list string * list string :=
  match result with
  | None => (results, errors)
  | Some result =>
      if success result && truthy (output result) then
        let results := if (0 <? length results)%nat then results ++ [""] else results in
        (results ++ [title; ""; default "" (output result)], errors)
      else if truthy (error result) then
        (results, errors ++ [default "" (error result)])
      else (results, errors)
  end.

(** [for (const { platform, result } of queryResults) collectResult(...)],
    from two empty arrays. *)
Definition collectAll (queryResults : list (PlatformQuery * option QueryResult))
    : list string * list string :=
  fold_left
    (fun lists pr => collectResult pr.2 (title pr.1) lists.1 lists.2)
    queryResults ([], []).

(** Step 4: the report text. *)
Definition summarize (outputResults errors : list string) : string :=
  if (length outputResults =? 0)%nat && (length errors =? 0)%nat
  then noAccounts (t currentLang)
  else
    let output := join nl outputResults in
    if (0 <? length errors)%nat then
      (if nonEmpty output then output +:+ nl +:+ nl else output)
        +:+ queryFailed (t currentLang) +:+ join nl errors
    else output.

(** Steps 2 and 3 of [execute] over a registry: launch every query under
    its timeout, wait until all have settled, gather the results by index
    and collect them into [outputResults] and [errors]. *)
Definition launch (platforms : list PlatformQuery)
    : list (Promise (option QueryResult)) :=
  map (fun p => queryWithTimeout (queryFn p) (timeoutMs p) (name p)) platforms.

Definition gather (platforms : list PlatformQuery)
    : Promise (list (PlatformQuery * option QueryResult)) :=
  await (Promise_allSettled (launch platforms)) (fun settledResults =>
    call (toQueryResults 0 platforms settledResults) (fun queryResults =>
      async_return queryResults)).

Definition collect (platforms : list PlatformQuery)
    : Promise (list string * list string) :=
  await (gather platforms) (fun queryResults =>
    async_return (collectAll queryResults)).

(** Steps 2 to 4: the orchestrator's run over a registry. *)
Definition run (platforms : list PlatformQuery) : Promise string :=
  await (collect platforms) (fun lists =>
    async_return (summarize lists.1 lists.2)).

End Orchestrator.

(** *** The tool's [execute], with the registry of the five platforms *)

Section Tool.

(** The credential records of the platforms whose modules are not at hand
    ([openai.ts], [zhipu.ts], [google.ts]), and their queries. *)
Variables OpenAIAuthData ZhipuAuthData : Type.

Record AuthData : Type := {
  openai : option OpenAIAuthData;
  zhipuai_coding_plan : option ZhipuAuthData;
  zai_coding_plan : option ZhipuAuthData;
  github_copilot : option CopilotAuthData
}.

Variable queryOpenAIUsage : option OpenAIAuthData -> Call (Promise (option QueryResult)).
Variable queryZhipuUsage : option ZhipuAuthData -> Call (Promise (option QueryResult)).
Variable queryZaiUsage : option ZhipuAuthData -> Call (Promise (option QueryResult)).
Variable queryGoogleUsage : unit -> Call (Promise (option QueryResult)).

(** The Copilot query with its network and formatter. *)
Variable CopilotUsageResponse : Type.
Variable fetchWithTimeout :
  string -> list (string * string) -> Promise (Copilot.Response CopilotUsageResponse).
Variable formatCopilotUsage : CopilotUsageResponse -> Call string.

(** [types.REQUEST_TIMEOUT_MS] *)
Variable REQUEST_TIMEOUT_MS : N.

(** The path of the credential file, and how reading and parsing it
    ([readFile] then [JSON.parse]) ends: with the credentials, with an
    error, or never.  The logical clock starts when it has ended, which is
    when the tasks are launched. *)
Variable authPath : string.
Variable readAuthData : option (Settled AuthData).

Variable currentLang : Language.

Definition platforms (authData : AuthData) : list PlatformQuery :=
  [ {| name := "OpenAI";
       title := openaiTitle (t currentLang);
       queryFn := fun _ => queryOpenAIUsage (openai authData);
       timeoutMs := REQUEST_TIMEOUT_MS |};
    {| name := "ZhipuAI";
       title := zhipuTitle (t currentLang);
       queryFn := fun _ => queryZhipuUsage (zhipuai_coding_plan authData);
       timeoutMs := REQUEST_TIMEOUT_MS |};
    {| name := "Z.ai";
       title := zaiTitle (t currentLang);
       queryFn := fun _ => queryZaiUsage (zai_coding_plan authData);
       timeoutMs := REQUEST_TIMEOUT_MS |};
    {| name := "Google";
       title := googleTitle (t currentLang);
       queryFn := fun _ => queryGoogleUsage tt;
       timeoutMs := REQUEST_TIMEOUT_MS |};
    {| name := "Copilot";
       title := copilotTitle (t currentLang);
       queryFn := fun _ =>
         Returns (Copilot.queryCopilotUsage CopilotUsageResponse fetchWithTimeout
                    formatCopilotUsage currentLang (github_copilot authData));
       timeoutMs := REQUEST_TIMEOUT_MS |} ].

Definition execute : Promise string :=
  await
    (try_catch
       (await (match readAuthData with
               | Some outcome => Some (0%N, outcome)
               | None => pending
               end)
              (fun authData => async_return (inr authData)))
       (fun err => async_return (inl (authError (t currentLang) authPath (errorText err)))))
    (fun loaded =>
       match loaded with
       | inl message => async_return message
       | inr authData => run currentLang (platforms authData)
       end).

End Tool.

End MyStatus.

(* ====================================================================== *)
(** ** plugin/lib/i18n.ts: the language detection                          *)
(* ====================================================================== *)

Module Detect.
Import Js I18n.

(** [process.env], as far as the detection reads it. *)
Record Env : Type := {
  LANG : option string;
  LC_ALL : option string;
  LANGUAGE : option string
}.

(** [a || b] on an environment variable and a string: [a] unless it is
    missing or empty. *)
Definition orElse (a : option string) (b : string) : string :=
  if truthy a then default "" a else b.

(** [s.startsWith(prefix)] *)
Definition startsWith (s prefix : string) : bool := String.prefix prefix s.

(** [detectLanguage()], given what
    [Intl.DateTimeFormat().resolvedOptions().locale] evaluates to (a locale,
    or an exception when the API is not there) and the environment. *)
Definition detectLanguage (intlLocale : Call string) (env : Env) : Language :=
  let fromIntl :=
    match intlLocale with
    | Returns intlLocale =>
        if startsWith intlLocale "zh-TW" || startsWith intlLocale "zh-Hant"
        then Some zh_tw
        else if startsWith intlLocale "zh" then Some zh
        else None
    | Throws _ => None
    end in
  match fromIntl with
  | Some language => language
  | None =>
      let lang := orElse (LANG env) (orElse (LC_ALL env) (orElse (LANGUAGE env) "")) in
      if startsWith lang "zh_TW" || startsWith lang "zh_HK" then zh_tw
      else if startsWith lang "zh" then zh
      else en
  end.

(** The earlier revision of the module knows two languages. *)
Inductive Language2 : Type := zh2 | en2.

(** [detectLanguage()] of the earlier revision. *)
Definition detectLanguage2 (intlLocale : Call string) (env : Env) : Language2 :=
  let fromIntl :=
    match intlLocale with
    | Returns intlLocale => if startsWith intlLocale "zh" then Some zh2 else None
    | Throws _ => None
    end in
  match fromIntl with
  | Some language => language
  | None =>
      let lang := orElse (LANG env) (orElse (LC_ALL env) (orElse (LANGUAGE env) "")) in
      if startsWith lang "zh" then zh2 else en2
  end.

End Detect.

(* ====================================================================== *)
(** ** plugin/lib/copilot.ts: rendering the reply                          *)
(* ====================================================================== *)

Module CopilotFormat.
Import Js I18n.

(** The entries of a language's table that the rendering reads. *)
Record Texts : Type := {
  account : string;
  premiumRequests : string;
  chatQuota : string;
  completionsQuota : string;
  overage : string;
  overageRequests : string;
  quotaResets : string;
  resetsSoon : string
}.

Definition texts (lang : Language) : Texts :=
  match lang with
  | zh => {|
      account := "Account:";
      premiumRequests := "Premium";
      chatQuota := "Chat";
      completionsQuota := "Completions";
      overage := "超额使用";
      overageRequests := "次请求";
      quotaResets := "配额重置";
      resetsSoon := "即将重置"
    |}
  | zh_tw => {|
      account := "Account:";
      premiumRequests := "Premium";
      chatQuota := "Chat";
      completionsQuota := "Completions";
      overage := "超額使用";
      overageRequests := "次請求";
      quotaResets := "配額重置";
      resetsSoon := "即將重置"
    |}
  | en => {|
      account := "Account:";
      premiumRequests := "Premium";
      chatQuota := "Chat";
      completionsQuota := "Completions";
      overage := "Overage";
      overageRequests := "requests";
      quotaResets := "Quota resets";
      resetsSoon := "Resets soon"
    |}
  end.

Fixpoint spaces (n : nat) : string :=
  match n with
  | O => ""
  | S n => String " "%char (spaces n)
  end.

(** The number of UTF-16 code units that a byte of a UTF-8 text stands
    for: the first byte of a character of one to three bytes stands for one
    unit, the first byte of a character of four bytes for two (a surrogate
    pair), and a continuation byte for none. *)
Definition codeUnits (c : ascii) : nat :=
  let n := nat_of_ascii c in
  if (n <? 128)%nat then 1
  else if (n <? 192)%nat then 0
  else if (n <? 240)%nat then 1
  else 2.

(** [s.length]: the number of UTF-16 code units of [s]. *)
Fixpoint utf16Length (s : string) : nat :=
  match s with
  | EmptyString => 0
  | String c rest => codeUnits c + utf16Length rest
  end.

(** [s.padEnd(targetLength)]: spaces are added until the string has
    [targetLength] code units. *)
Definition padEnd (s : string) (targetLength : nat) : string :=
  s +:+ spaces (targetLength - utf16Length s).

(** An optional integer as a template literal shows it: [None] is [NaN]. *)
Definition showInteger (n : option Z) : string :=
  match n with
  | Some n => pretty n
  | None => "NaN"
  end.

Section Rendering.

(** The numbers of the reply are doubles; the rendering subtracts, rounds,
    compares with zero and prints them. *)
Variable JsNumber : Type.
Variable minus : JsNumber -> JsNumber -> JsNumber.
Variable Math_round : JsNumber -> JsNumber.
Variable show : JsNumber -> string.
Variable isPositive : JsNumber -> bool.

(** [utils.createProgressBar(percent, width)] *)
Variable createProgressBar : JsNumber -> N -> string.

(** [new Date(s).getTime()], in milliseconds ([None]: an invalid date,
    whose time is [NaN]), and [new Date().getTime()]. *)
Variable Date_getTime : string -> option Z.
Variable now : Z.

Variable currentLang : Language.

Record QuotaDetail : Type := {
  entitlement : JsNumber;
  overage_count : JsNumber;
  overage_permitted : bool;
  percent_remaining : JsNumber;
  quota_id : string;
  quota_remaining : JsNumber;
  remaining : JsNumber;
  unlimited : bool
}.

Record QuotaSnapshots : Type := {
  chat : option QuotaDetail;
  completions : option QuotaDetail;
  premium_interactions : option QuotaDetail
}.

(** The reply, as far as the rendering reads it. *)
Record CopilotUsageResponse : Type := {
  copilot_plan : string;
  quota_reset_date : string;
  quota_snapshots : QuotaSnapshots
}.

Definition formatQuotaLine (name : string) (quota : option QuotaDetail) (width : N)
    : string :=
  match quota with
  | None => ""
  | Some quota =>
      if unlimited quota then padEnd name 14 +:+ " Unlimited"
      else
        let total := entitlement quota in
        let used := minus total (remaining quota) in
        let percentRemaining := Math_round (percent_remaining quota) in
        let progressBar := createProgressBar percentRemaining width in
        padEnd name 14 +:+ " " +:+ progressBar +:+ " " +:+ show percentRemaining
          +:+ "% (" +:+ show used +:+ "/" +:+ show total +:+ ")"
  end.

(** The countdown works on whole milliseconds, on which the divisions by
    the length of a day and of an hour followed by [Math.floor] are exact
    (for dates less than 180 000 years apart); [NaN] propagates through the
    arithmetic and fails every comparison. *)
Definition getResetCountdown (resetDate : string) : string :=
  let reset := Date_getTime resetDate in
  let diffMs := option_map (fun reset => reset - now)%Z reset in
  if match diffMs with Some d => (d <=? 0)%Z | None => false end
  then resetsSoon (texts currentLang)
  else
    let days := option_map (fun d => d / (1000 * 60 * 60 * 24))%Z diffMs in
    let hours :=
      option_map
        (fun d => Z.rem d (1000 * 60 * 60 * 24) / (1000 * 60 * 60))%Z diffMs in
    if match days with Some d => (0 <? d)%Z | None => false end
    then showInteger days +:+ "d " +:+ showInteger hours +:+ "h"
    else showInteger hours +:+ "h".

(** The lines of the rendering, before they are joined. *)
Definition usageLines (data : CopilotUsageResponse) : list string :=
  let lines :=
    [ account (texts currentLang) +:+ "        GitHub Copilot (" +:+ copilot_plan data +:+ ")";
      "" ] in
  let premium := premium_interactions (quota_snapshots data) in
  let lines :=
    match premium with
    | Some p =>
        let premiumLine :=
          formatQuotaLine (premiumRequests (texts currentLang)) premium 20 in
        let lines := if nonEmpty premiumLine then lines ++ [premiumLine] else lines in
        if isPositive (overage_count p)
        then lines ++ [ overage (texts currentLang) +:+ ": " +:+ show (overage_count p)
                          +:+ " " +:+ overageRequests (texts currentLang) ]
        else lines
    | None => lines
    end in
  let chat_ := chat (quota_snapshots data) in
  let lines :=
    match chat_ with
    | Some c =>
        if negb (unlimited c) then
          let chatLine := formatQuotaLine (chatQuota (texts currentLang)) chat_ 20 in
          if nonEmpty chatLine then lines ++ [chatLine] else lines
        else lines
    | None => lines
    end in
  let completions_ := completions (quota_snapshots data) in
  let lines :=
    match completions_ with
    | Some c =>
        if negb (unlimited c) then
          let completionsLine :=
            formatQuotaLine (completionsQuota (texts currentLang)) completions_ 20 in
          if nonEmpty completionsLine then lines ++ [completionsLine] else lines
        else lines
    | None => lines
    end in
  let lines := lines ++ [""] in
  let resetCountdown := getResetCountdown (quota_reset_date data) in
  lines ++ [ quotaResets (texts currentLang) +:+ ": " +:+ resetCountdown
               +:+ " (" +:+ quota_reset_date data +:+ ")" ].

Definition formatCopilotUsage (data : CopilotUsageResponse) : string :=
  join nl (usageLines data).

End Rendering.

End CopilotFormat.

(* ====================================================================== *)
(** ** JavaScript with any thrown value and with Node's timers             *)
(* ====================================================================== *)

Module JsAny.

(** The modules [MyStatus] and [Copilot] above are the plug-in for providers
    that raise only values of [Js.Value] and for budgets that a timer can
    wait for.  This module and [Plugin] below are the plug-in without the
    two restrictions: a [throw] or a rejection may carry a value whose
    conversion to a string itself throws, and a timer armed with a delay
    outside of 1 .. 2^31-1 milliseconds fires after one millisecond. *)

(** What a [throw] or a rejection carries: a value of [Js.Value]; a symbol
    ([Symbol(description)]); an object without a prototype
    ([Object.create(null)], which has no [toString]); or an object whose
    [toString] method throws [e].  Any other object converts to some string
    and is, for the plug-in, like that string. *)
Inductive Value : Type :=
  | Plain (v : Js.Value)
  | Symbol (description : string)
  | NullProto
  | ThrowingToString (e : Value).

(** The [TypeError] of V8 for an object that has no [toString], [valueOf]
    or [Symbol.toPrimitive], and for a symbol in a template literal. *)
Definition cannotConvert : Value :=
  Plain (Js.VError "TypeError" "Cannot convert object to primitive value").

Definition cannotConvertSymbol : Value :=
  Plain (Js.VError "TypeError" "Cannot convert a Symbol value to a string").

(** The [TypeError] of V8 for reading a property of [null] or of
    [undefined]. *)
Definition cannotRead (what property : string) : Value :=
  Plain (Js.VError "TypeError"
           ("Cannot read properties of " +:+ what +:+ " (reading '" +:+ property +:+ "')")).

(** The outcome of a synchronous call. *)
Inductive Call (A : Type) : Type :=
  | Returns (a : A)
  | Throws (e : Value).
Arguments Returns {A} a.
Arguments Throws {A} e.

(** [f(arg)], the argument being evaluated first. *)
Definition callWith {A B} (arg : Call A) (f : A -> Call B) : Call B :=
  match arg with
  | Returns a => f a
  | Throws e => Throws e
  end.

(** [object.property] or [object[property]], where [object] is an object
    or [null]. *)
Definition property {A B} (object : option A) (name : string) (get : A -> B) : Call B :=
  match object with
  | Some o => Returns (get o)
  | None => Throws (cannotRead "null" name)
  end.

(** [String(v)] *)
Definition toString (v : Value) : Call string :=
  match v with
  | Plain v => Returns (Js.toString v)
  | Symbol description => Returns ("Symbol(" +:+ description +:+ ")")
  | NullProto => Throws cannotConvert
  | ThrowingToString e => Throws e
  end.

(** [`${v}`]: as [String(v)], except that a symbol is not converted. *)
Definition template (v : Value) : Call string :=
  match v with
  | Symbol _ => Throws cannotConvertSymbol
  | _ => toString v
  end.

(** [err instanceof Error ? err.message : String(err)] *)
Definition errorText (err : Value) : Call string :=
  match err with
  | Plain (Js.VError _ message) => Returns message
  | _ => toString err
  end.

Definition Time : Type := N.

Inductive Settled (A : Type) : Type :=
  | Fulfilled (value : A)
  | Rejected (reason : Value).
Arguments Fulfilled {A} value.
Arguments Rejected {A} reason.

(** A promise: [None] stays pending for ever, [Some (at, s)] settles at
    instant [at] as [s]. *)
Definition Promise (A : Type) : Type := option (Time * Settled A).

Definition result {A} (p : Promise A) : option (Settled A) :=
  match p with
  | Some (_, s) => Some s
  | None => None
  end.

Definition pending {A} : Promise A := None.
Definition resolved {A} (at_ : Time) (v : A) : Promise A := Some (at_, Fulfilled v).
Definition rejected {A} (at_ : Time) (e : Value) : Promise A := Some (at_, Rejected e).

Definition notBefore {A} (now : Time) (p : Promise A) : Promise A :=
  match p with
  | Some (at_, s) => Some (N.max now at_, s)
  | None => None
  end.

(** [return v] in an [async] function. *)
Definition async_return {A} (v : A) : Promise A := resolved 0 v.

(** [const x = await p; k x] in an [async] function. *)
Definition await {A B} (p : Promise A) (k : A -> Promise B) : Promise B :=
  match p with
  | None => None
  | Some (at_, Fulfilled v) => notBefore at_ (k v)
  | Some (at_, Rejected e) => rejected at_ e
  end.

(** A synchronous call inside an [async] function, also inside a [catch]
    clause: a throw rejects the function's promise unless an enclosing
    [catch] intervenes. *)
Definition call {A B} (c : Call A) (k : A -> Promise B) : Promise B :=
  match c with
  | Returns a => k a
  | Throws e => rejected 0 e
  end.

(** [try { body } catch (err) { handler err }] in an [async] function; what
    the handler throws is not caught. *)
Definition try_catch {A} (body : Promise A) (handler : Value -> Promise A) : Promise A :=
  match body with
  | Some (at_, Rejected e) => notBefore at_ (handler e)
  | _ => body
  end.

(** The longest delay of a timer of Node, 2^31-1 milliseconds. *)
Definition TIMEOUT_MAX : N := 2147483647.

(** The delay after which a timer armed with [ms] fires: [ms] itself, or one
    millisecond when [ms] is larger than [TIMEOUT_MAX] or less than 1. *)
Definition timerDelay (ms : N) : N :=
  if (1 <=? ms)%N && (ms <=? TIMEOUT_MAX)%N then ms else 1%N.

(** [new Promise((resolve) => setTimeout(() => resolve(v), ms))], created
    at instant 0. *)
Definition setTimeout_resolve {A} (ms : N) (v : A) : Promise A :=
  resolved (timerDelay ms) v.

(** [`${ms / 1000}`].  For [ms] under 10^15 the quotient prints as its exact
    decimal expansion, [Js.Number_toString]; from 10^15 on the quotient is
    rounded to a double first and what is printed, [showQuotient ms], is left
    open. *)
Definition secondsText (showQuotient : N -> string) (ms : N) : string :=
  if (ms <? 1000000000000000)%N then Js.Number_toString (Js.div1000 ms)
  else showQuotient ms.

(** [Promise.race(ps)] *)
Fixpoint Promise_race {A} (ps : list (Promise A)) : Promise A :=
  match ps with
  | [] => None
  | p :: rest =>
      match p, Promise_race rest with
      | None, r => r
      | Some x, None => Some x
      | Some (at_, s), Some (at', s') =>
          if (at_ <=? at')%N then Some (at_, s) else Some (at', s')
      end
  end.

(** [Promise.allSettled(ps)], with the result array filled in completion
    order as in [Js.Promise_allSettled]. *)
Definition Completion (A : Type) : Type := (Time * (nat * Settled A))%type.

Definition completions {A} (ps : list (Promise A)) : list (Completion A) :=
  omap (fun ip : nat * Promise A =>
          match ip.2 with
          | Some (at_, s) => Some (at_, (ip.1, s))
          | None => None
          end)
       (imap (fun i p => (i, p)) ps).

Definition earlier {A} (c1 c2 : Completion A) : Prop := (c1.1 <= c2.1)%N.

Global Instance earlier_decision {A} (c1 c2 : Completion A) : Decision (earlier c1 c2).
Proof. unfold earlier. apply _. Defined.

Definition completionOrder {A} (ps : list (Promise A)) : list (Completion A) :=
  merge_sort earlier (completions ps).

Definition fillSlots {A} (order : list (Completion A))
    (values : list (option (Settled A))) : list (option (Settled A)) :=
  fold_left (fun values c => <[c.2.1 := Some c.2.2]> values) order values.

Definition isSettled {A} (p : Promise A) : bool :=
  match p with Some _ => true | None => false end.

Definition Promise_allSettled {A} (ps : list (Promise A)) : Promise (list (Settled A)) :=
  if forallb isSettled ps
  then
    let order := completionOrder ps in
    let values := fillSlots order (replicate (length ps) None) in
    resolved (foldr N.max 0 (map fst order)) (omap id values)
  else pending.

End JsAny.

(* ====================================================================== *)
(** ** plugin/mystatus.ts and plugin/lib/copilot.ts, for any thrown value  *)
(* ====================================================================== *)

Module Plugin.
Import I18n Types JsAny.

(** One entry of the platform registry. *)
Record PlatformQuery : Type := {
  name : string;
  title : string;
  queryFn : unit -> Call (Promise (option QueryResult));
  timeoutMs : N
}.

(** [t.timeoutError(seconds)] of [i18n.ts], given the text of [seconds]. *)
Definition timeoutError (currentLang : Language) (seconds : string) : string :=
  match currentLang with
  | zh => "请求超时 (" +:+ seconds +:+ "秒)"
  | zh_tw => "請求逾時 (" +:+ seconds +:+ "秒)"
  | en => "Request timeout (" +:+ seconds +:+ "s)"
  end.

Section Orchestrator.

Variable currentLang : Language.
Variable showQuotient : N -> string.

(** The failure the timer resolves with. *)
Definition timeoutResult (timeoutMs : N) (platformName : string) : QueryResult :=
  {| success := false;
     output := None;
     error := Some ("[" +:+ platformName +:+ "] " +:+
                    timeoutError currentLang (secondsText showQuotient timeoutMs)) |}.

(** The [catch] clause: the error text is computed first, and computing it
    may throw. *)
Definition catchClause (platformName : string) (err : Value)
    : Promise (option QueryResult) :=
  call (errorText err) (fun text =>
    async_return
      (Some {| success := false;
               output := None;
               error := Some ("[" +:+ platformName +:+ "] " +:+ text) |})).

Definition queryWithTimeout
    (queryFn : unit -> Call (Promise (option QueryResult)))
    (timeoutMs : N) (platformName : string) : Promise (option QueryResult) :=
  try_catch
    (call (queryFn tt) (fun query =>
       await (Promise_race
                [ query;
                  setTimeout_resolve timeoutMs
                    (Some (timeoutResult timeoutMs platformName)) ])
             (fun result => async_return result)))
    (catchClause platformName).

(** The body of the loop over [settledResults]: a fulfilled task gives its
    value, a rejected one a failure made of its reason, which the template
    literal converts to a string. *)
Definition settledToResult (platform : PlatformQuery)
    (settled : Settled (option QueryResult)) : Call (option QueryResult) :=
  match settled with
  | Fulfilled value => Returns value
  | Rejected reason =>
      match template reason with
      | Returns text =>
          Returns (Some {| success := false;
                           output := None;
                           error := Some ("[" +:+ name platform +:+ "] " +:+ text) |})
      | Throws e => Throws e
      end
  end.

(** [for (let i = 0; i < platforms.length; i++)], from index [i] on: the
    first iteration that throws ends the loop. *)
Fixpoint toQueryResults (i : nat) (platforms : list PlatformQuery)
    (settledResults : list (Settled (option QueryResult)))
    : Call (list (PlatformQuery * option QueryResult)) :=
  match platforms with
  | [] => Returns []
  | platform :: rest =>
      match settledResults !! i with
      | None => Throws (Plain MyStatus.undefinedStatus)
      | Some settled =>
          match settledToResult platform settled with
          | Throws e => Throws e
          | Returns result =>
              match toQueryResults (S i) rest settledResults with
              | Returns queryResults => Returns ((platform, result) :: queryResults)
              | Throws e => Throws e
              end
          end
      end
  end.

(** [for (const { platform, result } of queryResults) collectResult(...)],
    from two empty arrays. *)
Definition collectAll (queryResults : list (PlatformQuery * option QueryResult))
    : list string * list string :=
  fold_left
    (fun lists pr => MyStatus.collectResult pr.2 (title pr.1) lists.1 lists.2)
    queryResults ([], []).

Definition launch (platforms : list PlatformQuery)
    : list (Promise (option QueryResult)) :=
  map (fun p => queryWithTimeout (queryFn p) (timeoutMs p) (name p)) platforms.

Definition gather (platforms : list PlatformQuery)
    : Promise (list (PlatformQuery * option QueryResult)) :=
  await (Promise_allSettled (launch platforms)) (fun settledResults =>
    call (toQueryResults 0 platforms settledResults) (fun queryResults =>
      async_return queryResults)).

Definition collect (platforms : list PlatformQuery)
    : Promise (list string * list string) :=
  await (gather platforms) (fun queryResults =>
    async_return (collectAll queryResults)).

(** Steps 2 to 4 of [execute]: the orchestrator's run over a registry. *)
Definition run (platforms : list PlatformQuery) : Promise string :=
  await (collect platforms) (fun lists =>
    async_return (MyStatus.summarize currentLang lists.1 lists.2)).

End Orchestrator.

(** *** [copilot.ts] *)

Section Network.

(** The parsed body of a successful reply. *)
Variable CopilotUsageResponse : Type.

Record Response : Type := {
  ok : bool;
  status : N;
  text : Promise string;
  json : Promise CopilotUsageResponse
}.

Variable fetchWithTimeout : string -> list (string * string) -> Promise Response.
Variable formatCopilotUsage : CopilotUsageResponse -> Call string.
Variable currentLang : Language.

Definition fetchCopilotUsage (token : string) : Promise CopilotUsageResponse :=
  await (fetchWithTimeout (Copilot.GITHUB_API_BASE_URL +:+ "/copilot_internal/user")
                          (Copilot.buildGitHubHeaders token))
    (fun response =>
       if negb (ok response) then
         await (text response) (fun errorText =>
           rejected 0
             (Plain (Js.Error (copilotApiError (t currentLang) (status response) errorText))))
       else json response).

(** The [try] block of [queryCopilotUsage]. *)
Definition fetchAndFormat (token : string) : Promise (option QueryResult) :=
  await (fetchCopilotUsage token) (fun usage =>
    call (formatCopilotUsage usage) (fun output =>
      async_return (Some (succeeded output)))).

Definition queryCopilotUsage (authData : option CopilotAuthData)
    : Promise (option QueryResult) :=
  match authData with
  | None => async_return None
  | Some authData =>
      if negb (String.eqb (type authData) "oauth") || negb (Js.truthy (refresh authData))
      then async_return None
      else
        try_catch
          (fetchAndFormat (default "" (refresh authData)))
          (fun err =>
             call (errorText err) (fun text => async_return (Some (failed text))))
  end.

End Network.

Arguments ok {CopilotUsageResponse} _.
Arguments status {CopilotUsageResponse} _.
Arguments text {CopilotUsageResponse} _.
Arguments json {CopilotUsageResponse} _.

(** *** The tool's [execute], with the registry of the five platforms *)

Section Tool.

Variables OpenAIAuthData ZhipuAuthData : Type.

Variable queryOpenAIUsage : option OpenAIAuthData -> Call (Promise (option QueryResult)).
Variable queryZhipuUsage : option ZhipuAuthData -> Call (Promise (option QueryResult)).
Variable queryZaiUsage : option ZhipuAuthData -> Call (Promise (option QueryResult)).
Variable queryGoogleUsage : unit -> Call (Promise (option QueryResult)).

Variable CopilotUsageResponse : Type.
Variable fetchWithTimeout :
  string -> list (string * string) -> Promise (Response CopilotUsageResponse).
Variable formatCopilotUsage : CopilotUsageResponse -> Call string.

Variable REQUEST_TIMEOUT_MS : N.
Variable authPath : string.

(** How reading and parsing the credential file ends: with what the text
    of the file stands for, with an error, or never.  What the text stands
    for is an object with the credentials, here a record whose missing
    properties are [None], or, for the text [null], the value [null], here
    [None]. *)
Variable readAuthData
  : option (Settled (option (MyStatus.AuthData OpenAIAuthData ZhipuAuthData))).

Variable currentLang : Language.
Variable showQuotient : N -> string.

Definition platforms (authData : option (MyStatus.AuthData OpenAIAuthData ZhipuAuthData))
    : list PlatformQuery :=
  [ {| name := "OpenAI";
       title := openaiTitle (t currentLang);
       queryFn := fun _ =>
         callWith (property authData "openai" (MyStatus.openai _ _)) queryOpenAIUsage;
       timeoutMs := REQUEST_TIMEOUT_MS |};
    {| name := "ZhipuAI";
       title := zhipuTitle (t currentLang);
       queryFn := fun _ =>
         callWith (property authData "zhipuai-coding-plan"
                     (MyStatus.zhipuai_coding_plan _ _))
           queryZhipuUsage;
       timeoutMs := REQUEST_TIMEOUT_MS |};
    {| name := "Z.ai";
       title := zaiTitle (t currentLang);
       queryFn := fun _ =>
         callWith (property authData "zai-coding-plan" (MyStatus.zai_coding_plan _ _))
           queryZaiUsage;
       timeoutMs := REQUEST_TIMEOUT_MS |};
    {| name := "Google";
       title := googleTitle (t currentLang);
       queryFn := fun _ => queryGoogleUsage tt;
       timeoutMs := REQUEST_TIMEOUT_MS |};
    {| name := "Copilot";
       title := copilotTitle (t currentLang);
       queryFn := fun _ =>
         callWith (property authData "github-copilot" (MyStatus.github_copilot _ _))
           (fun copilotAuthData =>
              Returns (queryCopilotUsage CopilotUsageResponse fetchWithTimeout
                         formatCopilotUsage currentLang copilotAuthData));
       timeoutMs := REQUEST_TIMEOUT_MS |} ].

Definition execute : Promise string :=
  await
    (try_catch
       (await (match readAuthData with
               | Some outcome => Some (0%N, outcome)
               | None => pending
               end)
              (fun authData => async_return (inr authData)))
       (fun err =>
          call (errorText err) (fun text =>
            async_return (inl (authError (t currentLang) authPath text)))))
    (fun loaded =>
       match loaded with
       | inl message => async_return message
       | inr authData => run currentLang showQuotient (platforms authData)
       end).

End Tool.

(** *** The reply as it is parsed

    [response.json()] yields whatever the reply's text stands for; the cast
    to [CopilotUsageResponse] checks nothing.  Of a reply the rendering
    distinguishes: the text [null], an object without [quota_snapshots], and
    an object with it (the plan and the reset date being strings). *)

Section Parsed.

Variable JsNumber : Type.
Variable minus : JsNumber -> JsNumber -> JsNumber.
Variable Math_round : JsNumber -> JsNumber.
Variable show : JsNumber -> string.
Variable isPositive : JsNumber -> bool.
Variable createProgressBar : JsNumber -> N -> string.
Variable Date_getTime : string -> option Z.
Variable now : Z.
Variable currentLang : Language.

Inductive Reply : Type :=
  | JsonNull
  | JsonObject (copilot_plan quota_reset_date : string)
               (quota_snapshots : option (CopilotFormat.QuotaSnapshots JsNumber)).

(** [formatCopilotUsage(data)] on a parsed reply: the first line reads
    [data.copilot_plan], the premium quota is read from
    [data.quota_snapshots]. *)
Definition formatCopilotUsage (data : Reply) : Call string :=
  match data with
  | JsonNull => Throws (cannotRead "null" "copilot_plan")
  | JsonObject _ _ None => Throws (cannotRead "undefined" "premium_interactions")
  | JsonObject copilot_plan quota_reset_date (Some quota_snapshots) =>
      Returns
        (CopilotFormat.formatCopilotUsage JsNumber minus Math_round show isPositive
           createProgressBar Date_getTime now currentLang
           {| CopilotFormat.copilot_plan := copilot_plan;
              CopilotFormat.quota_reset_date := quota_reset_date;
              CopilotFormat.quota_snapshots := quota_snapshots |})
  end.

End Parsed.

Arguments JsonNull {JsNumber}.
Arguments JsonObject {JsNumber} _ _ _.

End Plugin.

(* ====================================================================== *)
(** ** What a run is expected to report                                    *)
(* ====================================================================== *)

Module Report.
Import Js I18n Types MyStatus.

(** The result of one platform's task as the merge step receives it:
    [queryWithTimeout] run on that platform alone, the instant forgotten. *)
Definition taskResult (currentLang : Language) (p : PlatformQuery) : option QueryResult :=
  match queryWithTimeout currentLang (queryFn p) (timeoutMs p) (name p) with
  | Some (_, settled) => settledToResult p settled
  | None => None
  end.

(** The registry with each platform's own result, in registry order. *)
Definition inRegistryOrder (currentLang : Language) (platforms : list PlatformQuery)
    : list (PlatformQuery * option QueryResult) :=
  map (fun p => (p, taskResult currentLang p)) platforms.

(** A success entry [(title, body)]: a result flagged as a success with a
    non-empty body. *)
Definition successEntry (pr : PlatformQuery * option QueryResult)
    : option (string * string) :=
  match pr.2 with
  | Some r =>
      if success r && truthy (output r)
      then Some (title pr.1, default "" (output r))
      else None
  | None => None
  end.

(** A failure message: the non-empty error text of a result that is not a
    success entry. *)
Definition errorMessage (pr : PlatformQuery * option QueryResult) : option string :=
  match pr.2 with
  | Some r =>
      if success r && truthy (output r) then None
      else if truthy (error r) then Some (default "" (error r))
      else None
  | None => None
  end.

Definition successEntries (queryResults : list (PlatformQuery * option QueryResult))
    : list (string * string) :=
  omap successEntry queryResults.

Definition errorMessages (queryResults : list (PlatformQuery * option QueryResult))
    : list string :=
  omap errorMessage queryResults.

(** The lines of the success list: title, empty line, body for each entry,
    and one empty line between two entries. *)
Definition entryLines (entries : list (string * string)) : list string :=
  match entries with
  | [] => []
  | e :: rest =>
      [e.1; ""; e.2] ++ flat_map (fun e' => [""; e'.1; ""; e'.2]) rest
  end.

(** One entry as text: title line, blank line, body. *)
Definition block (entry : string * string) : string :=
  entry.1 +:+ nl +:+ nl +:+ entry.2.

(** The report of a run with at least one entry or message: the blocks
    separated by a blank line, then, if there are messages, a blank line (if
    there are blocks), the failures header and one message per line. *)
Definition reportText (currentLang : Language) (entries : list (string * string))
    (messages : list string) : string :=
  let blocks := String.concat (nl +:+ nl) (map block entries) in
  match messages with
  | [] => blocks
  | _ :: _ =>
      (match entries with [] => "" | _ :: _ => blocks +:+ nl +:+ nl end)
        +:+ queryFailed (t currentLang) +:+ String.concat nl messages
  end.

(** [`[${platformName}] ${text}`] *)
Definition tagged (platformName text : string) : string :=
  "[" +:+ platformName +:+ "] " +:+ text.

(** The platform's query throws [e] synchronously, or its promise rejects
    with [e] before the timer fires. *)
Definition raises (p : PlatformQuery) (e : Value) : Prop :=
  queryFn p tt = Throws e \/
  exists at_, queryFn p tt = Returns (rejected at_ e) /\ (at_ < timeoutMs p)%N.

(** The platform's query signals, before the timer fires, that the platform
    is not configured. *)
Definition signalsAbsence (p : PlatformQuery) : Prop :=
  exists at_, queryFn p tt = Returns (resolved at_ None) /\ (at_ < timeoutMs p)%N.

(** A string of white space only (possibly empty). *)
Definition isWhiteSpace (c : ascii) : bool :=
  let n := nat_of_ascii c in
  ((n =? 32) || (n =? 9) || (n =? 10) || (n =? 11) || (n =? 12) || (n =? 13))%nat.

Fixpoint blank (s : string) : bool :=
  match s with
  | EmptyString => true
  | String c rest => isWhiteSpace c && blank rest
  end.


(** The largest timeout budget of a registry. *)
Definition largestBudget (platforms : list PlatformQuery) : N :=
  foldr N.max 0%N (map timeoutMs platforms).


(** The first line of the failures section, [queryFailed] without its line
    feed. *)
Definition failuresHeader (currentLang : Language) : string :=
  match currentLang with
  | zh => "❌ 查询失败的账号:"
  | zh_tw => "❌ 查詢失敗的帳號:"
  | en => "❌ Failed to query accounts:"
  end.

(** No usable Copilot credential: no entry, an entry of another type than
    "oauth", or an entry without a (non-empty) refresh token. *)
Definition unusable (authData : option CopilotAuthData) : Prop :=
  match authData with
  | None => True
  | Some a => type a <> "oauth" \/ refresh a = None \/ refresh a = Some ""
  end.


(** Two success lists one after the other, with the empty line that
    separates their entries. *)
Definition joinLists (results1 results2 : list string) : list string :=
  match results1, results2 with
  | [], _ => results2
  | _, [] => results1
  | _, _ => results1 ++ [""] ++ results2
  end.

End Report.

(* ====================================================================== *)
(** ** Scenarios                                                           *)
(* ====================================================================== *)

Module Scenario.
Import Js I18n Types MyStatus.

(** Answers with the body "X" after half a second. *)
Definition platformA : PlatformQuery :=
  {| name := "A"; title := "## A";
     queryFn := fun _ => Returns (resolved 500 (Some (succeeded "X")));
     timeoutMs := 2000 |}.

(** Not configured. *)
Definition platformB : PlatformQuery :=
  {| name := "B"; title := "## B";
     queryFn := fun _ => Returns (resolved 100 None);
     timeoutMs := 2000 |}.

(** Rejects with [new Error("boom")]. *)
Definition platformC : PlatformQuery :=
  {| name := "C"; title := "## C";
     queryFn := fun _ => Returns (rejected 30 (Error "boom"));
     timeoutMs := 2000 |}.

(** Never answers. *)
Definition platformD : PlatformQuery :=
  {| name := "D"; title := "## D";
     queryFn := fun _ => Returns pending;
     timeoutMs := 2000 |}.

(** Throws a string before returning a promise. *)
Definition platformE : PlatformQuery :=
  {| name := "E"; title := "## E";
     queryFn := fun _ => Throws (VString "bad credentials");
     timeoutMs := 2000 |}.

(** Answers with a body of one space. *)
Definition platformS : PlatformQuery :=
  {| name := "S"; title := "## S";
     queryFn := fun _ => Returns (resolved 10 (Some (succeeded " ")));
     timeoutMs := 2000 |}.

(** Answers with an empty body. *)
Definition platformZ : PlatformQuery :=
  {| name := "Z"; title := "## Z";
     queryFn := fun _ => Returns (resolved 10 (Some (succeeded "")));
     timeoutMs := 2000 |}.

(** A Copilot credential, and a network that answers every request with
    401 and the body "Bad credentials". *)
Definition copilotCredential : CopilotAuthData :=
  {| type := "oauth"; refresh := Some "gho_token" |}.

Definition unauthorized : Copilot.Response unit :=
  {| Copilot.ok := false;
     Copilot.status := 401;
     Copilot.text := resolved 130 "Bad credentials";
     Copilot.json := pending |}.

Definition unauthorizedNetwork (url : string) (headers : list (string * string))
    : Promise (Copilot.Response unit) :=
  resolved 120 unauthorized.

Definition plainFormat (usage : unit) : Call string := Returns "Premium 100%".

(** A reply with an unlimited chat and completions quota and a premium
    quota of which three quarters are left; a clock 25 hours before the
    reset; a bar drawn without regard to its arguments. *)
Definition sampleQuota (isUnlimited : bool) : CopilotFormat.QuotaDetail Z :=
  {| CopilotFormat.entitlement := 300%Z;
     CopilotFormat.overage_count := 0%Z;
     CopilotFormat.overage_permitted := false;
     CopilotFormat.percent_remaining := 75%Z;
     CopilotFormat.quota_id := "premium_interactions";
     CopilotFormat.quota_remaining := 225%Z;
     CopilotFormat.remaining := 225%Z;
     CopilotFormat.unlimited := isUnlimited |}.

Definition sampleReply : CopilotFormat.CopilotUsageResponse Z :=
  {| CopilotFormat.copilot_plan := "individual";
     CopilotFormat.quota_reset_date := "2026-12-01";
     CopilotFormat.quota_snapshots :=
       {| CopilotFormat.chat := Some (sampleQuota true);
          CopilotFormat.completions := Some (sampleQuota true);
          CopilotFormat.premium_interactions := Some (sampleQuota false) |} |}.

Definition sampleBar (percent : Z) (width : N) : string := "###############-----".

Definition sampleDate (s : string) : option Z := Some 90000000%Z.

Definition sampleRender (data : CopilotFormat.CopilotUsageResponse Z) : string :=
  CopilotFormat.formatCopilotUsage Z Z.sub (fun x => x) pretty (Z.ltb 0) sampleBar
    sampleDate 0%Z en data.

End Scenario.

(* ====================================================================== *)
(** ** What a run reports, for any thrown value                            *)
(* ====================================================================== *)

Module Outcomes.
Import I18n Types JsAny Plugin.

(** What the loop over [settledResults] makes of one platform's task:
    [queryWithTimeout] run on that platform alone, then the body of the
    loop on the way it settled. *)
Definition taskOutcome (currentLang : Language) (showQuotient : N -> string)
    (p : PlatformQuery) : Call (option QueryResult) :=
  match queryWithTimeout currentLang showQuotient (queryFn p) (timeoutMs p) (name p) with
  | Some (_, settled) => settledToResult p settled
  | None => Returns None
  end.

(** The registry with each platform's own result, in registry order, up to
    the first platform for which the loop throws. *)
Fixpoint registryResults (currentLang : Language) (showQuotient : N -> string)
    (platforms : list PlatformQuery) : Call (list (PlatformQuery * option QueryResult)) :=
  match platforms with
  | [] => Returns []
  | p :: rest =>
      match taskOutcome currentLang showQuotient p with
      | Throws e => Throws e
      | Returns result =>
          match registryResults currentLang showQuotient rest with
          | Returns queryResults => Returns ((p, result) :: queryResults)
          | Throws e => Throws e
          end
      end
  end.

(** A promise that settles at [at_] the way the call ends. *)
Definition settledAs {A} (at_ : Time) (c : Call A) : Promise A :=
  match c with
  | Returns a => resolved at_ a
  | Throws e => rejected at_ e
  end.

Definition mapCall {A B} (f : A -> B) (c : Call A) : Call B :=
  match c with
  | Returns a => Returns (f a)
  | Throws e => Throws e
  end.

(** A success entry [(title, body)], and a failure message, as in
    [Report]. *)
Definition successEntry (pr : PlatformQuery * option QueryResult)
    : option (string * string) :=
  match pr.2 with
  | Some r =>
      if success r && Js.truthy (output r)
      then Some (title pr.1, default "" (output r))
      else None
  | None => None
  end.

Definition errorMessage (pr : PlatformQuery * option QueryResult) : option string :=
  match pr.2 with
  | Some r =>
      if success r && Js.truthy (output r) then None
      else if Js.truthy (error r) then Some (default "" (error r))
      else None
  | None => None
  end.

Definition successEntries (queryResults : list (PlatformQuery * option QueryResult))
    : list (string * string) :=
  omap successEntry queryResults.

Definition errorMessages (queryResults : list (PlatformQuery * option QueryResult))
    : list string :=
  omap errorMessage queryResults.

(** The report made of the results of a registry. *)
Definition reportOf (currentLang : Language)
    (queryResults : list (PlatformQuery * option QueryResult)) : string :=
  match successEntries queryResults, errorMessages queryResults with
  | [], [] => noAccounts (t currentLang)
  | entries, messages => Report.reportText currentLang entries messages
  end.

(** The value a call returns, [d] if it throws. *)
Definition returned {A} (c : Call A) (d : A) : A :=
  match c with
  | Returns a => a
  | Throws _ => d
  end.

(** The registry with each platform's own result, where the loop throws for
    none. *)
Definition ownResults (currentLang : Language) (showQuotient : N -> string)
    (platforms : list PlatformQuery) : list (PlatformQuery * option QueryResult) :=
  map (fun p => (p, returned (taskOutcome currentLang showQuotient p) None)) platforms.

(** The platform's query throws [e] synchronously, or its promise rejects
    with [e] before the timer fires. *)
Definition raises (p : PlatformQuery) (e : Value) : Prop :=
  queryFn p tt = Throws e \/
  exists at_, queryFn p tt = Returns (rejected at_ e) /\
              (at_ < timerDelay (timeoutMs p))%N.

(** The same, at any instant. *)
Definition mayRaise (p : PlatformQuery) (e : Value) : Prop :=
  queryFn p tt = Throws e \/
  exists at_, queryFn p tt = Returns (rejected at_ e).

(** A raised value can be reported when its error text can be computed or,
    failing that, when what the computation throws can be put into a
    template literal. *)
Definition reportable (e : Value) : bool :=
  match errorText e with
  | Returns _ => true
  | Throws e' =>
      match template e' with
      | Returns _ => true
      | Throws _ => false
      end
  end.

(** A platform that raises, if anything, values that can be reported. *)
Definition wellBehaved (p : PlatformQuery) : Prop :=
  forall e, mayRaise p e -> reportable e = true.

(** The query promise has not settled at instant [at_]. *)
Definition silentUntil (at_ : Time) {A} (query : Promise A) : Prop :=
  match query with
  | None => True
  | Some (at', _) => (at_ < at')%N
  end.

(** The platform's query returns a promise that has not settled when its
    timer fires. *)
Definition staysSilent (p : PlatformQuery) : Prop :=
  exists query, queryFn p tt = Returns query /\
                silentUntil (timerDelay (timeoutMs p)) query.

(** The instant at which the last timer of a registry fires. *)
Definition lastTimer (platforms : list PlatformQuery) : N :=
  foldr N.max 0%N (map (fun p => timerDelay (timeoutMs p)) platforms).

(** The decimals of [r] thousandths, [0 < r < 1000], given digit by digit:
    trailing zeros are not written. *)
Definition decimals (d1 d2 d3 : N) : string :=
  pretty d1 +:+
  (if (d2 =? 0)%N && (d3 =? 0)%N then ""
   else pretty d2 +:+ (if (d3 =? 0)%N then "" else pretty d3)).

(** The plug-in of [MyStatus] and [Copilot] seen as one for any thrown
    value. *)
Definition plainSettled {A} (s : Js.Settled A) : Settled A :=
  match s with
  | Js.Fulfilled v => Fulfilled v
  | Js.Rejected e => Rejected (Plain e)
  end.

Definition plainPromise {A} (p : Js.Promise A) : Promise A :=
  match p with
  | Some (at_, s) => Some (at_, plainSettled s)
  | None => None
  end.

Definition plainCall {A} (c : Js.Call A) : Call A :=
  match c with
  | Js.Returns a => Returns a
  | Js.Throws e => Throws (Plain e)
  end.

Definition plainResponse {A} (response : Copilot.Response A) : Response A :=
  {| ok := Copilot.ok response;
     status := Copilot.status response;
     text := plainPromise (Copilot.text response);
     json := plainPromise (Copilot.json response) |}.

Definition plainNetwork {A}
    (fetchWithTimeout : string -> list (string * string) -> Js.Promise (Copilot.Response A))
    (url : string) (headers : list (string * string)) : Promise (Response A) :=
  match fetchWithTimeout url headers with
  | Some (at_, Js.Fulfilled response) => Some (at_, Fulfilled (plainResponse response))
  | Some (at_, Js.Rejected e) => Some (at_, Rejected (Plain e))
  | None => None
  end.

Definition plainPlatform (p : MyStatus.PlatformQuery) : PlatformQuery :=
  {| name := MyStatus.name p;
     title := MyStatus.title p;
     queryFn := fun _ =>
       match MyStatus.queryFn p tt with
       | Js.Returns query => Returns (plainPromise query)
       | Js.Throws e => Throws (Plain e)
       end;
     timeoutMs := MyStatus.timeoutMs p |}.

(** A query of [MyStatus] as one that may raise any value, and the outcome
    of reading the credential file, which then holds an object. *)
Definition plainQuery {A}
    (query : A -> Js.Call (Js.Promise (option QueryResult))) (x : A)
    : Call (Promise (option QueryResult)) :=
  match query x with
  | Js.Returns promise => Returns (plainPromise promise)
  | Js.Throws e => Throws (Plain e)
  end.

Definition plainRead {A} (outcome : Js.Settled A) : Settled (option A) :=
  match outcome with
  | Js.Fulfilled authData => Fulfilled (Some authData)
  | Js.Rejected e => Rejected (Plain e)
  end.

(** Two platforms that a run cannot tell apart. *)
Definition samePlatform (p q : PlatformQuery) : Prop :=
  name p = name q /\ title p = title q /\ timeoutMs p = timeoutMs q /\
  queryFn p tt = queryFn q tt.

(** A budget that a timer waits for. *)
Definition inTimerRange (ms : N) : Prop := (1 <= ms <= TIMEOUT_MAX)%N.

End Outcomes.

(* ====================================================================== *)
(** ** Scenarios with any thrown value                                     *)
(* ====================================================================== *)

Module Cases.
Import I18n Types JsAny Plugin.

(** No scenario has a budget of 10^15 milliseconds or more. *)
Definition noQuotient (ms : N) : string := "".

(** Answers with the body "X" after half a second. *)
Definition platformA : PlatformQuery :=
  {| name := "A"; title := "## A";
     queryFn := fun _ => Returns (resolved 500 (Some (succeeded "X")));
     timeoutMs := 2000 |}.

(** Not configured. *)
Definition platformB : PlatformQuery :=
  {| name := "B"; title := "## B";
     queryFn := fun _ => Returns (resolved 100 None);
     timeoutMs := 2000 |}.

(** Rejects with [new Error("boom")]. *)
Definition platformC : PlatformQuery :=
  {| name := "C"; title := "## C";
     queryFn := fun _ => Returns (rejected 30 (Plain (Js.Error "boom")));
     timeoutMs := 2000 |}.

(** Never answers; budgets of two and of two and a half seconds. *)
Definition platformD : PlatformQuery :=
  {| name := "D"; title := "## D";
     queryFn := fun _ => Returns pending;
     timeoutMs := 2000 |}.

Definition platformD' : PlatformQuery :=
  {| name := "D"; title := "## D";
     queryFn := fun _ => Returns pending;
     timeoutMs := 2500 |}.

(** Answers after five seconds, with a budget of 2^31 milliseconds, which
    no timer waits for. *)
Definition platformL : PlatformQuery :=
  {| name := "L"; title := "## L";
     queryFn := fun _ => Returns (resolved 5000 (Some (succeeded "late")));
     timeoutMs := 2147483648 |}.

(** Rejects with [Object.create(null)]. *)
Definition platformN : PlatformQuery :=
  {| name := "N"; title := "## N";
     queryFn := fun _ => Returns (rejected 40 NullProto);
     timeoutMs := 2000 |}.


(** Rejects after five milliseconds with an error whose message is the
    English timeout text for two seconds. *)
Definition platformT : PlatformQuery :=
  {| name := "T"; title := "## T";
     queryFn := fun _ => Returns (rejected 5 (Plain (Js.Error "Request timeout (2s)")));
     timeoutMs := 2000 |}.


(** A network that answers every request with 401 and the body
    "Bad credentials". *)
Definition unauthorized : Response unit :=
  {| ok := false; status := 401;
     text := resolved 130 "Bad credentials"; json := pending |}.

Definition unauthorizedNetwork (url : string) (headers : list (string * string))
    : Promise (Response unit) :=
  resolved 120 unauthorized.

Definition plainFormat (usage : unit) : Call string := Returns "Premium 100%".

(** The rendering of [Scenario.sampleRender] on a parsed reply, and
    networks that answer with the sample reply and with the reply [{}]. *)
Definition sampleFormat (data : Reply Z) : Call string :=
  formatCopilotUsage Z Z.sub (fun x => x) pretty (Z.ltb 0) Scenario.sampleBar
    Scenario.sampleDate 0%Z en data.

Definition replyNetwork (data : Reply Z)
    (url : string) (headers : list (string * string))
    : Promise (Response (Reply Z)) :=
  resolved 120
    {| ok := true; status := 200; text := pending; json := resolved 125 data |}.

Definition sampleParsed : Reply Z :=
  JsonObject "individual" "2026-12-01"
    (Some (CopilotFormat.quota_snapshots Z Scenario.sampleReply)).

Definition emptyParsed : Reply Z := JsonObject "" "" None.

Definition copilotPlatform (data : Reply Z) : PlatformQuery :=
  {| name := "Copilot";
     title := copilotTitle (t en);
     queryFn := fun _ =>
       Returns (queryCopilotUsage (Reply Z) (replyNetwork data)
                  sampleFormat en (Some Scenario.copilotCredential));
     timeoutMs := 10000 |}.

End Cases.

(* ====================================================================== *)
(** ** Facts about promises                                                *)
(* ====================================================================== *)

Section PromiseFacts.
Import Js.
Context {A : Type}.
Implicit Types (ps : list (Promise A)) (order : list (Completion A)).
Implicit Types (values : list (option (Settled A))).

(** Storing a result changes no other slot and not the number of slots. *)
Lemma fillSlots_snoc order (c : Completion A) values :
  fillSlots (order ++ [c]) values = <[c.2.1 := Some c.2.2]> (fillSlots order values).
Proof. unfold fillSlots. by rewrite fold_left_app. Qed.

Lemma fillSlots_length order values :
  length (fillSlots order values) = length values.
Proof.
  induction order as [| c order IH] using rev_ind; [reflexivity |].
  by rewrite fillSlots_snoc, length_insert.
Qed.

Lemma fillSlots_untouched order values (j : nat) :
  (forall c, c ∈ order -> c.2.1 <> j) ->
  fillSlots order values !! j = values !! j.
Proof.
  induction order as [| c order IH] using rev_ind; intros Hother; [reflexivity |].
  rewrite fillSlots_snoc, list_lookup_insert_ne.
  - apply IH. intros c' Hin. apply Hother, elem_of_app. by left.
  - apply Hother, elem_of_app. right. by apply list_elem_of_singleton.
Qed.

Lemma fillSlots_stored order values (j : nat) (s : Settled A) :
  (forall c, c ∈ order -> c.2.1 = j -> c.2.2 = s) ->
  (exists c, c ∈ order /\ c.2.1 = j) ->
  (j < length values)%nat ->
  fillSlots order values !! j = Some (Some s).
Proof.
  induction order as [| c order IH] using rev_ind; intros Hfun [c0 [Hin Hidx]] Hlen.
  - inversion Hin.
  - rewrite fillSlots_snoc.
    destruct (decide (c.2.1 = j)) as [Heq | Hne].
    + rewrite Heq, (Hfun c); [| | done].
      * apply list_lookup_insert_eq. by rewrite fillSlots_length.
      * apply elem_of_app. right. by apply list_elem_of_singleton.
    + rewrite list_lookup_insert_ne by done.
      apply IH; [| | done].
      * intros c' Hin'. apply Hfun, elem_of_app. by left.
      * exists c0. split; [| done].
        apply elem_of_app in Hin as [Hin | Hin]; [done |].
        apply list_elem_of_singleton in Hin. congruence.
Qed.

(** The completions of a list of promises are exactly its settled
    members, each with its index. *)
Lemma elem_of_completions ps (at_ : Time) (j : nat) (s : Settled A) :
  (at_, (j, s)) ∈ completions ps <-> ps !! j = Some (Some (at_, s)).
Proof.
  unfold completions. rewrite list_elem_of_omap. split.
  - intros [[i p] [Hin Hsome]]. cbn in Hsome.
    apply elem_of_lookup_imap in Hin as [i' [p' [Heq Hlook]]].
    destruct p as [[at' s'] |]; [| discriminate].
    by simplify_eq.
  - intros Hlook. exists (j, Some (at_, s)). split; [| reflexivity].
    apply (elem_of_lookup_imap_2 (fun i p => (i, p))). exact Hlook.
Qed.

(** In whatever order the completions are processed, slot [j] ends up
    holding the result of promise [j]. *)
Lemma fillSlots_any_order ps order :
  order ≡ₚ completions ps ->
  fillSlots order (replicate (length ps) None) = map result ps.
Proof.
  intros Hperm. apply list_eq. intros j.
  change (map result ps) with (result <$> ps). rewrite list_lookup_fmap.
  destruct (ps !! j) as [[[at_ s] |] |] eqn:Hj; cbn.
  - apply fillSlots_stored.
    + intros [at' [j' s']] Hin Hidx. cbn in *. subst j'.
      rewrite Hperm in Hin. apply elem_of_completions in Hin.
      pose proof (eq_trans (eq_sym Hj) Hin) as Heq. by inversion Heq.
    + exists (at_, (j, s)). split; [| reflexivity].
      rewrite Hperm. by apply elem_of_completions.
    + rewrite length_replicate. eapply lookup_lt_Some. exact Hj.
  - rewrite fillSlots_untouched.
    + apply lookup_replicate_2. eapply lookup_lt_Some. exact Hj.
    + intros [at' [j' s']] Hin Hidx. cbn in *. subst j'.
      rewrite Hperm in Hin. apply elem_of_completions in Hin.
      pose proof (eq_trans (eq_sym Hj) Hin) as Heq. by inversion Heq.
  - apply lookup_ge_None. rewrite fillSlots_length, length_replicate.
    by apply lookup_ge_None.
Qed.

Lemma omap_id_settled ps :
  forallb isSettled ps = true ->
  omap id (map result ps) = omap result ps /\
  length (omap result ps) = length ps.
Proof.
  induction ps as [| [[at_ s] |] ps IH]; cbn; intros Hall; [done | | done].
  destruct (IH Hall) as [IH1 IH2]. split; [by rewrite IH1 | by rewrite IH2].
Qed.

Lemma latest_bounded (bound : Time) order :
  (forall c, c ∈ order -> (c.1 <= bound)%N) ->
  (foldr N.max 0%N (map fst order) <= bound)%N.
Proof.
  induction order as [| c order IH]; cbn; intros Hall; [lia |].
  apply N.max_lub.
  - apply Hall. by left.
  - apply IH. intros c' Hin. apply Hall. by right.
Qed.

(** [Promise.allSettled]: once every input has settled, the aggregate is
    fulfilled with the results in input order, whatever the order of
    completion, and no later than the last input. *)
Lemma allSettled_in_input_order ps (bound : Time) :
  (forall p, p ∈ ps -> exists at_ s, p = Some (at_, s) /\ (at_ <= bound)%N) ->
  exists T, Promise_allSettled ps = resolved T (omap result ps) /\
            length (omap result ps) = length ps /\ (T <= bound)%N.
Proof.
  intros Hall.
  assert (Hsettled : forallb isSettled ps = true).
  { apply forallb_forall. intros p Hin.
    destruct (Hall p) as [at_ [s [-> _]]]; [by apply list_elem_of_In | done]. }
  unfold Promise_allSettled. rewrite Hsettled.
  eexists. split; [| split].
  - f_equal. f_equal. f_equal.
    rewrite fillSlots_any_order.
    + by apply omap_id_settled.
    + unfold completionOrder. apply merge_sort_Permutation.
  - by apply omap_id_settled.
  - apply latest_bounded. intros [at_ [j s]] Hin.
    unfold completionOrder in Hin. rewrite merge_sort_Permutation in Hin.
    apply elem_of_completions in Hin.
    destruct (Hall (Some (at_, s))) as [at' [s' [Heq Hle]]].
    + eapply list_elem_of_lookup_2. exact Hin.
    + inversion Heq. by subst.
Qed.

End PromiseFacts.

(* ====================================================================== *)
(** ** Facts about the orchestrator                                        *)
(* ====================================================================== *)

Section OrchestratorFacts.
Import Js I18n Types MyStatus Report.
Variable lang : Language.

(** *** One task *)

Lemma queryWithTimeout_throws queryFn ms platformName (e : Value) :
  queryFn tt = Throws e ->
  queryWithTimeout lang queryFn ms platformName
  = resolved 0 (Some (caughtResult platformName e)).
Proof. intros Hcall. unfold queryWithTimeout. by rewrite Hcall. Qed.

Lemma queryWithTimeout_fulfilled_first queryFn ms platformName (at_ : Time) value :
  queryFn tt = Returns (resolved at_ value) -> (at_ < ms)%N ->
  queryWithTimeout lang queryFn ms platformName = resolved at_ value.
Proof.
  intros Hcall Hlt. unfold queryWithTimeout. rewrite Hcall. cbn.
  destruct (N.leb_spec at_ ms) as [_ | Hgt]; [| lia].
  cbn. by rewrite N.max_0_r.
Qed.

Lemma queryWithTimeout_rejected_first queryFn ms platformName (at_ : Time) (e : Value) :
  queryFn tt = Returns (rejected at_ e) -> (at_ < ms)%N ->
  queryWithTimeout lang queryFn ms platformName
  = resolved at_ (Some (caughtResult platformName e)).
Proof.
  intros Hcall Hlt. unfold queryWithTimeout. rewrite Hcall. cbn.
  destruct (N.leb_spec at_ ms) as [_ | Hgt]; [| lia].
  cbn. by rewrite N.max_0_r.
Qed.

(** Every task is fulfilled, never rejected and never left pending, by
    the time its timer fires. *)
Lemma queryWithTimeout_settles queryFn ms platformName :
  exists at_ value,
    queryWithTimeout lang queryFn ms platformName = resolved at_ value /\ (at_ <= ms)%N.
Proof.
  unfold queryWithTimeout.
  destruct (queryFn tt) as [[[at_ [value | e]] |] | e]; cbn.
  - destruct (N.leb_spec at_ ms) as [Hle | Hgt]; cbn; rewrite N.max_0_r.
    + by exists at_, value.
    + eexists ms, _. split; [reflexivity | lia].
  - destruct (N.leb_spec at_ ms) as [Hle | Hgt]; cbn; rewrite N.max_0_r.
    + eexists at_, _. split; [reflexivity | lia].
    + eexists ms, _. split; [reflexivity | lia].
  - rewrite N.max_0_r. eexists ms, _. split; [reflexivity | lia].
  - eexists 0%N, _. split; [reflexivity | lia].
Qed.

(** *** The fan-out *)

Lemma taskResult_resolved (p : PlatformQuery) (at_ : Time) value :
  queryWithTimeout lang (queryFn p) (timeoutMs p) (name p) = resolved at_ value ->
  taskResult lang p = value.
Proof. intros Heq. unfold taskResult. by rewrite Heq. Qed.

(** The index loop finds, at each platform's index, that platform's own
    result. *)
Lemma toQueryResults_launch platforms (before : list (Settled (option QueryResult))) :
  toQueryResults (length before) platforms
    (before ++ omap result (launch lang platforms))
  = Returns (inRegistryOrder lang platforms).
Proof.
  revert before. unfold launch, inRegistryOrder.
  induction platforms as [| p rest IH]; intros before; [reflexivity |].
  destruct (queryWithTimeout_settles (queryFn p) (timeoutMs p) (name p))
    as [at_ [value [Heq _]]].
  cbn. rewrite Heq. cbn.
  rewrite list_lookup_middle by reflexivity.
  specialize (IH (before ++ [Fulfilled value])).
  rewrite length_app, Nat.add_1_r, <- app_assoc in IH. cbn in IH.
  rewrite IH. by rewrite (taskResult_resolved p at_ value).
Qed.

Lemma launch_settles platforms (bound : Time) :
  (forall p, p ∈ platforms -> (timeoutMs p <= bound)%N) ->
  forall task, task ∈ launch lang platforms ->
    exists at_ s, task = Some (at_, s) /\ (at_ <= bound)%N.
Proof.
  intros Hbound task Hin. apply list_elem_of_fmap in Hin as [p [-> Hp]].
  destruct (queryWithTimeout_settles (queryFn p) (timeoutMs p) (name p))
    as [at_ [value [Heq Hle]]].
  exists at_, (Fulfilled value). split; [exact Heq |].
  specialize (Hbound p Hp). lia.
Qed.

Lemma budget_bounded platforms :
  forall p, p ∈ platforms ->
    (timeoutMs p <= largestBudget platforms)%N.
Proof.
  unfold largestBudget.
  induction platforms as [| q rest IH]; intros p Hin; [inversion Hin |].
  cbn. apply elem_of_cons in Hin as [-> | Hin]; [lia |].
  specialize (IH p Hin). lia.
Qed.

(** Whatever the instants at which the tasks settle, [queryResults] lists
    the platforms in registry order, each with its own result; it is
    complete when the last timer has fired. *)
Lemma gather_in_registry_order platforms :
  exists T, gather lang platforms = resolved T (inRegistryOrder lang platforms) /\
            (T <= largestBudget platforms)%N.
Proof.
  destruct (allSettled_in_input_order (launch lang platforms)
              (largestBudget platforms))
    as [T [Hall [_ Hle]]].
  { apply launch_settles, budget_bounded. }
  exists T. split; [| exact Hle].
  unfold gather. rewrite Hall. cbn [await resolved].
  pose proof (toQueryResults_launch platforms []) as Hloop. cbn in Hloop.
  rewrite Hloop. cbn. by rewrite N.max_0_r.
Qed.

(** *** The merge *)

Lemma entryLines_snoc (entries : list (string * string)) (e : string * string) :
  entryLines (entries ++ [e])
  = (if (0 <? length (entryLines entries))%nat
     then entryLines entries ++ [""] else entryLines entries)
    ++ [e.1; ""; e.2].
Proof.
  destruct entries as [| e0 rest]; [reflexivity |].
  cbn. rewrite flat_map_app. cbn. by rewrite <- !app_assoc.
Qed.

Lemma collectResult_entry (pr : PlatformQuery * option QueryResult)
    (entries : list (string * string)) (errors : list string) :
  collectResult pr.2 (title pr.1) (entryLines entries) errors
  = (entryLines (entries ++ from_option (fun e => [e]) [] (successEntry pr)),
     errors ++ from_option (fun m => [m]) [] (errorMessage pr)).
Proof.
  unfold collectResult, successEntry, errorMessage.
  destruct pr.2 as [r |]; cbn.
  - destruct (success r && truthy (output r)); cbn.
    + by rewrite entryLines_snoc, app_nil_r.
    + destruct (truthy (error r)); cbn; by rewrite !app_nil_r.
  - by rewrite !app_nil_r.
Qed.

Lemma collect_from (queryResults : list (PlatformQuery * option QueryResult))
    (entries : list (string * string)) (errors : list string) :
  fold_left (fun lists pr => collectResult pr.2 (title pr.1) lists.1 lists.2)
            queryResults (entryLines entries, errors)
  = (entryLines (entries ++ successEntries queryResults),
     errors ++ errorMessages queryResults).
Proof.
  revert entries errors.
  induction queryResults as [| pr rest IH]; intros entries errors; cbn.
  - by rewrite !app_nil_r.
  - rewrite collectResult_entry, IH.
    unfold successEntries, errorMessages. cbn.
    destruct (successEntry pr), (errorMessage pr); cbn;
      by rewrite <- ?app_assoc, ?app_nil_r.
Qed.

(** The two lists hold the success entries and the failure messages in
    the order of [queryResults]. *)
Lemma collectAll_in_order (queryResults : list (PlatformQuery * option QueryResult)) :
  collectAll queryResults
  = (entryLines (successEntries queryResults), errorMessages queryResults).
Proof. apply (collect_from queryResults [] []). Qed.

Lemma collect_in_registry_order platforms :
  exists T,
    collect lang platforms
    = resolved T (entryLines (successEntries (inRegistryOrder lang platforms)),
                  errorMessages (inRegistryOrder lang platforms)) /\
    (T <= largestBudget platforms)%N.
Proof.
  destruct (gather_in_registry_order platforms) as [T [Hgather Hle]].
  exists T. split; [| exact Hle].
  unfold collect. rewrite Hgather. cbn.
  by rewrite N.max_0_r, collectAll_in_order.
Qed.

Lemma run_summarizes platforms :
  exists T,
    run lang platforms
    = resolved T (summarize lang
                    (entryLines (successEntries (inRegistryOrder lang platforms)))
                    (errorMessages (inRegistryOrder lang platforms))) /\
    (T <= largestBudget platforms)%N.
Proof.
  destruct (collect_in_registry_order platforms) as [T [Hcollect Hle]].
  exists T. split; [| exact Hle].
  unfold run. rewrite Hcollect. cbn. by rewrite N.max_0_r.
Qed.

(** *** The report text *)

Lemma append_assoc (s1 s2 s3 : string) : (s1 +:+ s2) +:+ s3 = s1 +:+ s2 +:+ s3.
Proof.
  induction s1 as [| c s1 IH]; [reflexivity |].
  change (String c ((s1 +:+ s2) +:+ s3) = String c (s1 +:+ s2 +:+ s3)).
  by rewrite IH.
Qed.

Lemma append_empty_r (s : string) : s +:+ "" = s.
Proof.
  induction s as [| c s IH]; [reflexivity |].
  change (String c (s +:+ "") = String c s).
  by rewrite IH.
Qed.

Lemma join_cons (sep x y : string) (rest : list string) :
  join sep (x :: y :: rest) = x +:+ sep +:+ join sep (y :: rest).
Proof. reflexivity. Qed.

(** Joining the lines of the success list with line feeds gives the
    blocks separated by a blank line. *)
Lemma join_entryLines (entries : list (string * string)) :
  join nl (entryLines entries) = String.concat (nl +:+ nl) (map block entries).
Proof.
  destruct entries as [| e rest]; [reflexivity |].
  revert e. induction rest as [| e' rest IH]; intros e.
  - reflexivity.
  - change (entryLines (e :: e' :: rest))
      with (e.1 :: "" :: e.2 :: "" :: entryLines (e' :: rest)).
    rewrite !join_cons.
    destruct (entryLines (e' :: rest)) as [| l ls] eqn:Hlines; [discriminate |].
    rewrite join_cons, <- Hlines, IH.
    change (map block (e :: e' :: rest)) with (block e :: block e' :: map block rest).
    change (String.concat (nl +:+ nl) (block e :: block e' :: map block rest))
      with (block e +:+ (nl +:+ nl) +:+
            String.concat (nl +:+ nl) (block e' :: map block rest)).
    change ("" +:+ nl +:+ e.2 +:+ nl +:+ "" +:+ nl +:+
              String.concat (nl +:+ nl) (map block (e' :: rest)))
      with (nl +:+ e.2 +:+ nl +:+ nl +:+
              String.concat (nl +:+ nl) (map block (e' :: rest))).
    unfold block at 2. by rewrite !append_assoc.
Qed.

Lemma join_entryLines_nonEmpty (e : string * string) (rest : list (string * string)) :
  nonEmpty (join nl (entryLines (e :: rest))) = true.
Proof.
  change (entryLines (e :: rest))
    with (e.1 :: "" :: (e.2 :: flat_map (fun e' => [""; e'.1; ""; e'.2]) rest)).
  rewrite join_cons. by destruct e.1.
Qed.

(** Step 4 on the lists of a merge: the fixed text when both are empty,
    the composed report otherwise. *)
Lemma summarize_report (entries : list (string * string)) (messages : list string) :
  summarize lang (entryLines entries) messages
  = match entries, messages with
    | [], [] => noAccounts (t lang)
    | _, _ => reportText lang entries messages
    end.
Proof.
  destruct entries as [| e rest], messages as [| m ms]; try reflexivity.
  - unfold summarize, reportText.
    change (length (entryLines (e :: rest)) =? 0)%nat with false.
    by rewrite join_entryLines.
  - unfold summarize, reportText.
    change (length (entryLines (e :: rest)) =? 0)%nat with false.
    rewrite join_entryLines_nonEmpty, join_entryLines. reflexivity.
Qed.

(** The failures header is one line of text in every language. *)
Lemma queryFailed_line :
  exists header, queryFailed (t lang) = header +:+ nl.
Proof. destruct lang; eexists; reflexivity. Qed.

(** The report of a run, from the entries and messages in registry
    order. *)
Lemma run_report platforms :
  exists T,
    run lang platforms
    = resolved T
        match successEntries (inRegistryOrder lang platforms),
              errorMessages (inRegistryOrder lang platforms) with
        | [], [] => noAccounts (t lang)
        | entries, messages => reportText lang entries messages
        end /\
    (T <= largestBudget platforms)%N.
Proof.
  destruct (run_summarizes platforms) as [T [Hrun Hle]].
  exists T. split; [| exact Hle].
  rewrite Hrun, summarize_report.
  by destruct (successEntries _), (errorMessages _).
Qed.

(** *** What one platform contributes *)

Lemma taskResult_raises (p : PlatformQuery) (e : Value) :
  raises p e ->
  exists at_,
    queryWithTimeout lang (queryFn p) (timeoutMs p) (name p)
    = resolved at_ (Some (failed (tagged (name p) (errorText e)))) /\
    taskResult lang p = Some (failed (tagged (name p) (errorText e))).
Proof.
  intros [Hthrow | [at_ [Hreject Hlt]]].
  - exists 0%N. unfold taskResult.
    by rewrite (queryWithTimeout_throws _ _ _ e Hthrow).
  - exists at_. unfold taskResult.
    by rewrite (queryWithTimeout_rejected_first _ _ _ at_ e Hreject Hlt).
Qed.

Lemma taskResult_absent (p : PlatformQuery) :
  signalsAbsence p -> taskResult lang p = None.
Proof.
  intros [at_ [Hcall Hlt]]. unfold taskResult.
  by rewrite (queryWithTimeout_fulfilled_first _ _ _ at_ None Hcall Hlt).
Qed.

Lemma tagged_nonEmpty (platformName text : string) :
  nonEmpty (tagged platformName text) = true.
Proof. reflexivity. Qed.

(** A failure with a non-empty message is in the error list. *)
Lemma failure_listed platforms (p : PlatformQuery) (message : string) :
  p ∈ platforms ->
  taskResult lang p = Some (failed message) ->
  nonEmpty message = true ->
  message ∈ errorMessages (inRegistryOrder lang platforms).
Proof.
  intros Hin Hresult Hmsg. apply list_elem_of_omap.
  exists (p, taskResult lang p). split.
  - apply list_elem_of_fmap. by exists p.
  - unfold errorMessage. cbn. rewrite Hresult. cbn. by rewrite Hmsg.
Qed.

(** The lists split along the registry. *)
Lemma inRegistryOrder_app before after :
  inRegistryOrder lang (before ++ after)
  = inRegistryOrder lang before ++ inRegistryOrder lang after.
Proof. apply map_app. Qed.

Lemma successEntries_app qs1 qs2 :
  successEntries (qs1 ++ qs2) = successEntries qs1 ++ successEntries qs2.
Proof. apply omap_app. Qed.

Lemma errorMessages_app qs1 qs2 :
  errorMessages (qs1 ++ qs2) = errorMessages qs1 ++ errorMessages qs2.
Proof. apply omap_app. Qed.

(** A platform whose result is neither an entry nor a message leaves both
    lists as they are without it. *)
Lemma skipped_platform before (p : PlatformQuery) after :
  successEntry (p, taskResult lang p) = None ->
  errorMessage (p, taskResult lang p) = None ->
  successEntries (inRegistryOrder lang (before ++ p :: after))
  = successEntries (inRegistryOrder lang (before ++ after)) /\
  errorMessages (inRegistryOrder lang (before ++ p :: after))
  = errorMessages (inRegistryOrder lang (before ++ after)).
Proof.
  intros Hentry Hmessage.
  rewrite !inRegistryOrder_app, !successEntries_app, !errorMessages_app.
  unfold successEntries, errorMessages, inRegistryOrder. cbn.
  by rewrite Hentry, Hmessage.
Qed.

Lemma skipped_platform_run before (p : PlatformQuery) after :
  successEntry (p, taskResult lang p) = None ->
  errorMessage (p, taskResult lang p) = None ->
  exists T T' lists report,
    collect lang (before ++ p :: after) = resolved T lists /\
    collect lang (before ++ after) = resolved T' lists /\
    run lang (before ++ p :: after) = resolved T report /\
    run lang (before ++ after) = resolved T' report.
Proof.
  intros Hentry Hmessage.
  destruct (skipped_platform before p after Hentry Hmessage) as [Hs He].
  destruct (collect_in_registry_order (before ++ p :: after)) as [T [Hc _]].
  destruct (collect_in_registry_order (before ++ after)) as [T' [Hc' _]].
  rewrite Hs, He in Hc.
  exists T, T'. do 2 eexists. split; [exact Hc |]. split; [exact Hc' |].
  unfold run. rewrite Hc, Hc'. cbn. rewrite !N.max_0_r. by split.
Qed.

End OrchestratorFacts.


(* ====================================================================== *)
(** ** Facts about the tool                                                *)
(* ====================================================================== *)

Section ToolFacts.
Import Js I18n Types MyStatus Report.
Variables OpenAIAuthData ZhipuAuthData : Type.
Variable queryOpenAIUsage : option OpenAIAuthData -> Call (Promise (option QueryResult)).
Variable queryZhipuUsage : option ZhipuAuthData -> Call (Promise (option QueryResult)).
Variable queryZaiUsage : option ZhipuAuthData -> Call (Promise (option QueryResult)).
Variable queryGoogleUsage : unit -> Call (Promise (option QueryResult)).
Variable CopilotUsageResponse : Type.
Variable fetchWithTimeout :
  string -> list (string * string) -> Promise (Copilot.Response CopilotUsageResponse).
Variable formatCopilotUsage : CopilotUsageResponse -> Call string.
Variable REQUEST_TIMEOUT_MS : N.
Variable authPath : string.
Variable lang : Language.

(** The registry and the tool over the parameters above. *)
Let registry (authData : AuthData OpenAIAuthData ZhipuAuthData) : list PlatformQuery :=
  platforms OpenAIAuthData ZhipuAuthData queryOpenAIUsage queryZhipuUsage
    queryZaiUsage queryGoogleUsage CopilotUsageResponse fetchWithTimeout
    formatCopilotUsage REQUEST_TIMEOUT_MS lang authData.

Let tool (readAuthData : option (Settled (AuthData OpenAIAuthData ZhipuAuthData)))
    : Promise string :=
  execute OpenAIAuthData ZhipuAuthData queryOpenAIUsage queryZhipuUsage
    queryZaiUsage queryGoogleUsage CopilotUsageResponse fetchWithTimeout
    formatCopilotUsage REQUEST_TIMEOUT_MS authPath readAuthData lang.

(** With the credentials read, the tool is the run over the registry. *)
Lemma execute_runs authData :
  tool (Some (Fulfilled authData)) = run lang (registry authData).
Proof.
  unfold tool, execute. cbn. fold (registry authData).
  destruct (run_report lang (registry authData)) as [T [Hrun _]].
  rewrite Hrun. cbn. by rewrite N.max_0_l.
Qed.

End ToolFacts.

(* ====================================================================== *)
(** ** Facts about the Copilot query                                       *)
(* ====================================================================== *)

Section CredentialFacts.
Import Js Types Report.

Lemma unusable_spec (a : CopilotAuthData) :
  negb (String.eqb (type a) "oauth") || negb (truthy (refresh a)) = true
  <-> unusable (Some a).
Proof.
  cbn. rewrite orb_true_iff, !negb_true_iff, String.eqb_neq.
  destruct (refresh a) as [[| c s] |]; cbn; intuition congruence.
Qed.


End CredentialFacts.

Section CopilotFacts.
Import Js I18n Types Report Copilot.
Variable CopilotUsageResponse : Type.
Variable fetchWithTimeout :
  string -> list (string * string) -> Promise (Response CopilotUsageResponse).
Variable formatCopilotUsage : CopilotUsageResponse -> Call string.
Variable lang : Language.

Lemma queryCopilotUsage_unusable (authData : option CopilotAuthData) :
  unusable authData ->
  queryCopilotUsage CopilotUsageResponse fetchWithTimeout formatCopilotUsage lang authData
  = resolved 0 None.
Proof.
  destruct authData as [a |]; [| reflexivity].
  intros Hun. apply unusable_spec in Hun. unfold queryCopilotUsage.
  by rewrite Hun.
Qed.

End CopilotFacts.

(* ====================================================================== *)
(** ** Properties of a run                                                 *)
(* ====================================================================== *)

Import Js I18n Types MyStatus Report.

(** C2.  In whatever order the tasks complete, that is for every order in
    which the completions fill the slots of the result array, the loop over
    the registry pairs each platform with its own result, in registry order;
    the success list then holds the entries, and the error list the failure
    messages, of those results in registry order. *)
Theorem merge_in_registry_order (lang : Language)
    (platforms : list PlatformQuery)
    (order : list (Completion (option QueryResult))) :
  order ≡ₚ completions (launch lang platforms) ->
  let settledResults :=
    omap id (fillSlots order (replicate (length (launch lang platforms)) None)) in
  let queryResults := map (fun p => (p, taskResult lang p)) platforms in
  toQueryResults 0 platforms settledResults = Returns queryResults /\
  collectAll queryResults
  = (entryLines (omap successEntry queryResults), omap errorMessage queryResults) /\
  exists T,
    collect lang platforms
    = resolved T (entryLines (omap successEntry queryResults),
                  omap errorMessage queryResults).
Proof.
  intros Hperm settledResults queryResults. split; [| split].
  - unfold settledResults. rewrite (fillSlots_any_order _ _ Hperm).
    destruct (allSettled_in_input_order (launch lang platforms)
                (largestBudget platforms)) as [T [Hall _]].
    { apply launch_settles, budget_bounded. }
    assert (Hsettled : forallb isSettled (launch lang platforms) = true).
    { unfold Promise_allSettled in Hall.
      by destruct (forallb isSettled (launch lang platforms)). }
    rewrite (proj1 (omap_id_settled _ Hsettled)).
    apply (toQueryResults_launch lang platforms []).
  - apply collectAll_in_order.
  - destruct (collect_in_registry_order lang platforms) as [T [Hcollect _]].
    by exists T.
Qed.

Lemma merge_in_registry_order_witness :
  rev (completions (launch en [Scenario.platformA; Scenario.platformC; Scenario.platformE]))
  ≡ₚ completions (launch en [Scenario.platformA; Scenario.platformC; Scenario.platformE]) /\
  exists T,
    collect en [Scenario.platformA; Scenario.platformC; Scenario.platformE]
    = resolved T (["## A"; ""; "X"], ["[C] boom"; "[E] bad credentials"]).
Proof.
  assert (Hperm :
    rev (completions (launch en [Scenario.platformA; Scenario.platformC; Scenario.platformE]))
    ≡ₚ completions (launch en [Scenario.platformA; Scenario.platformC; Scenario.platformE])).
  { symmetry. apply Permutation_rev. }
  split; [exact Hperm |].
  exact (proj2 (proj2 (merge_in_registry_order en _ _ Hperm))).
Defined.

(** C6.  When both lists of a run end up empty the report is the fixed
    "no accounts" text of the language, exactly; this is so for the empty
    registry and for a registry of which every platform signals that it is
    not configured. *)
Theorem nothing_to_report (lang : Language) :
  (forall platforms T,
     collect lang platforms = resolved T ([], []) ->
     run lang platforms = resolved T (noAccounts (t lang))) /\
  (forall platforms,
     Forall signalsAbsence platforms ->
     exists T,
       collect lang platforms = resolved T ([], []) /\
       run lang platforms = resolved T (noAccounts (t lang))) /\
  run lang [] = resolved 0 (noAccounts (t lang)).
Proof.
  split; [| split].
  - intros platforms T Hcollect. unfold run. rewrite Hcollect. cbn.
    by rewrite N.max_0_r.
  - intros platforms Habsent.
    destruct (collect_in_registry_order lang platforms) as [T [Hcollect _]].
    assert (Hnone : successEntries (inRegistryOrder lang platforms) = [] /\
                    errorMessages (inRegistryOrder lang platforms) = []).
    { clear Hcollect. induction Habsent as [| p rest Hp _ IH]; [by split |].
      unfold successEntries, errorMessages, inRegistryOrder in *. cbn.
      unfold successEntry, errorMessage. cbn.
      rewrite (taskResult_absent lang p Hp). exact IH. }
    destruct Hnone as [Hs He]. rewrite Hs, He in Hcollect.
    exists T. split; [exact Hcollect |].
    unfold run. rewrite Hcollect. cbn. by rewrite N.max_0_r.
  - reflexivity.
Qed.

Lemma nothing_to_report_witness :
  Forall signalsAbsence [Scenario.platformB; Scenario.platformB] /\
  exists T,
    collect en [Scenario.platformB; Scenario.platformB] = resolved T ([], []) /\
    run en [Scenario.platformB; Scenario.platformB] = resolved T (noAccounts (t en)).
Proof.
  assert (Habsent : Forall signalsAbsence [Scenario.platformB; Scenario.platformB]).
  { repeat constructor; exists 100%N; split; reflexivity. }
  split; [exact Habsent |].
  exact (proj1 (proj2 (nothing_to_report en)) _ Habsent).
Defined.

(** C7.  A platform whose query signals that it is not configured (resolves
    to [null] before its timer fires) is neither a success entry nor an
    error: the merge step leaves both lists untouched for it, and the lists
    and the report of the run are those of the registry without it.  The
    Copilot query signals this at once when the credential is missing, of
    another type than "oauth", or without a refresh token. *)
Theorem absent_platform_is_skipped (lang : Language)
    (before : list PlatformQuery) (p : PlatformQuery) (after : list PlatformQuery) :
  signalsAbsence p ->
  (exists at_,
     queryWithTimeout lang (queryFn p) (timeoutMs p) (name p) = resolved at_ None) /\
  (forall results errors,
     collectResult None (title p) results errors = (results, errors)) /\
  (exists T T' lists report,
     collect lang (before ++ p :: after) = resolved T lists /\
     collect lang (before ++ after) = resolved T' lists /\
     run lang (before ++ p :: after) = resolved T report /\
     run lang (before ++ after) = resolved T' report) /\
  (forall (CopilotUsageResponse : Type) fetchWithTimeout formatCopilotUsage
          (authData : option CopilotAuthData) (copilot : PlatformQuery),
     unusable authData ->
     queryFn copilot tt
     = Returns (Copilot.queryCopilotUsage CopilotUsageResponse fetchWithTimeout
                  formatCopilotUsage lang authData) ->
     (0 < timeoutMs copilot)%N ->
     signalsAbsence copilot).
Proof.
  intros Habsent.
  pose proof (taskResult_absent lang p Habsent) as Hresult.
  split; [| split; [| split]].
  - destruct Habsent as [at_ [Hcall Hlt]]. exists at_.
    by apply queryWithTimeout_fulfilled_first.
  - reflexivity.
  - apply skipped_platform_run.
    + unfold successEntry. cbn. by rewrite Hresult.
    + unfold errorMessage. cbn. by rewrite Hresult.
  - intros X fetch format authData copilot Hun Hcall Hpos.
    exists 0%N. split; [| exact Hpos].
    rewrite Hcall. by rewrite (queryCopilotUsage_unusable X fetch format lang authData Hun).
Qed.

Lemma absent_platform_is_skipped_witness :
  signalsAbsence Scenario.platformB /\
  exists T T' lists report,
    collect en ([Scenario.platformA] ++ Scenario.platformB :: [Scenario.platformC])
    = resolved T lists /\
    collect en ([Scenario.platformA] ++ [Scenario.platformC]) = resolved T' lists /\
    run en ([Scenario.platformA] ++ Scenario.platformB :: [Scenario.platformC])
    = resolved T report /\
    run en ([Scenario.platformA] ++ [Scenario.platformC]) = resolved T' report.
Proof.
  assert (Habsent : signalsAbsence Scenario.platformB).
  { exists 100%N. split; reflexivity. }
  split; [exact Habsent |].
  exact (proj1 (proj2 (proj2 (absent_platform_is_skipped en
           [Scenario.platformA] Scenario.platformB [Scenario.platformC] Habsent)))).
Defined.



(** C4.  When the success list of a run is not empty, the report is made of
    the success entries, each its title line, a blank line and its body,
    with a blank line between two entries; if there are error messages, a
    blank line, the failures header of the language and one message per line
    follow.  For a registry of A answering with the body "X", B not
    configured and C failing with the error "boom", the report is A's title,
    a blank line, "X", a blank line, the header, and the line "[C] boom". *)
Theorem report_layout (lang : Language) :
  (forall platforms,
     let entries := omap successEntry (map (fun p => (p, taskResult lang p)) platforms) in
     let messages := omap errorMessage (map (fun p => (p, taskResult lang p)) platforms) in
     entries <> [] ->
     exists T,
       collect lang platforms = resolved T (entryLines entries, messages) /\
       run lang platforms
       = resolved T
           (String.concat (nl +:+ nl)
              (map (fun entry => entry.1 +:+ nl +:+ nl +:+ entry.2) entries)
            +:+ match messages with
                | [] => ""
                | _ :: _ =>
                    nl +:+ nl +:+ failuresHeader lang +:+ nl +:+
                    String.concat nl messages
                end)) /\
  queryFailed (t lang) = failuresHeader lang +:+ nl /\
  (forall (a b c : PlatformQuery) (at_ : Time),
     queryFn a tt = Returns (resolved at_ (Some (succeeded "X"))) ->
     (at_ < timeoutMs a)%N ->
     signalsAbsence b ->
     raises c (Error "boom") ->
     exists T,
       run lang [a; b; c]
       = resolved T
           (title a +:+ nl +:+ nl +:+ "X" +:+ nl +:+ nl +:+
            failuresHeader lang +:+ nl +:+ "[" +:+ name c +:+ "] boom")).
Proof.
  assert (Hheader : queryFailed (t lang) = failuresHeader lang +:+ nl)
    by (destruct lang; reflexivity).
  split; [| split; [exact Hheader |]].
  - intros platforms entries messages.
    destruct (collect_in_registry_order lang platforms) as [T [Hcollect _]].
    change (successEntries (inRegistryOrder lang platforms)) with entries in Hcollect.
    change (errorMessages (inRegistryOrder lang platforms)) with messages in Hcollect.
    clearbody entries messages. intros Hsome.
    exists T. split; [exact Hcollect |].
    unfold run. rewrite Hcollect. cbn [await resolved notBefore async_return fst snd].
    rewrite N.max_0_r, summarize_report.
    destruct entries as [| e rest]; [done |].
    unfold reportText. destruct messages as [| m ms].
    + by rewrite append_empty_r.
    + by rewrite Hheader, !append_assoc.
  - intros a b c at_ Ha Hlt Hb Hc.
    destruct (run_report lang [a; b; c]) as [T [Hrun _]].
    exists T. rewrite Hrun.
    unfold successEntries, errorMessages, inRegistryOrder,
      successEntry, errorMessage. cbn.
    rewrite (taskResult_resolved lang a at_ (Some (succeeded "X")))
      by (by apply queryWithTimeout_fulfilled_first).
    rewrite (taskResult_absent lang b Hb).
    destruct (taskResult_raises lang c (Error "boom") Hc) as [_ [_ ->]].
    cbn. unfold reportText, block. cbn [String.concat map fst snd].
    by rewrite Hheader, !append_assoc.
Qed.

Lemma report_layout_witness :
  queryFn Scenario.platformA tt = Returns (resolved 500 (Some (succeeded "X"))) /\
  (500 < timeoutMs Scenario.platformA)%N /\
  signalsAbsence Scenario.platformB /\
  raises Scenario.platformC (Error "boom") /\
  exists T,
    run en [Scenario.platformA; Scenario.platformB; Scenario.platformC]
    = resolved T
        ("## A" +:+ nl +:+ nl +:+ "X" +:+ nl +:+ nl +:+
         "❌ Failed to query accounts:" +:+ nl +:+ "[C] boom").
Proof.
  assert (Hb : signalsAbsence Scenario.platformB).
  { exists 100%N. split; reflexivity. }
  assert (Hc : raises Scenario.platformC (Error "boom")).
  { right. exists 30%N. split; reflexivity. }
  split; [reflexivity |]. split; [reflexivity |].
  split; [exact Hb |]. split; [exact Hc |].
  exact (proj2 (proj2 (report_layout en))
           Scenario.platformA Scenario.platformB Scenario.platformC 500%N
           eq_refl eq_refl Hb Hc).
Defined.

(** C5, as stated, fails: a success whose body is one space (white space
    only) is not treated like an absent platform; the merge step lists it as
    a success entry, and the report shows it. *)
Lemma blank_body_is_listed :
  success (succeeded " ") = true /\
  blank " " = true /\
  collectResult (Some (succeeded " ")) "## S" [] [] = (["## S"; ""; " "], []) /\
  collectResult (Some (succeeded " ")) "## S" [] [] <> collectResult None "## S" [] [] /\
  run en [Scenario.platformS] = resolved 10 ("## S" +:+ nl +:+ nl +:+ " ").
Proof.
  split; [reflexivity |]. split; [reflexivity |]. split; [reflexivity |].
  split; [discriminate | reflexivity].
Qed.

(** C5, amended.  A success whose body is empty (zero length or missing)
    and that carries no error text is treated like an absent platform: the
    merge step leaves both lists untouched, and the lists and the report of
    the run are those of the registry without the platform.  A success with
    any non-empty body, white space only included, is appended to the
    success list. *)
Theorem empty_body_is_dropped (lang : Language)
    (before : list PlatformQuery) (p : PlatformQuery) (after : list PlatformQuery)
    (at_ : Time) (r : QueryResult) :
  queryFn p tt = Returns (resolved at_ (Some r)) ->
  (at_ < timeoutMs p)%N ->
  success r = true ->
  truthy (output r) = false ->
  truthy (error r) = false ->
  (forall results errors,
     collectResult (Some r) (title p) results errors = (results, errors)) /\
  (exists T T' lists report,
     collect lang (before ++ p :: after) = resolved T lists /\
     collect lang (before ++ after) = resolved T' lists /\
     run lang (before ++ p :: after) = resolved T report /\
     run lang (before ++ after) = resolved T' report) /\
  (forall body title results errors,
     nonEmpty body = true ->
     collectResult (Some (succeeded body)) title results errors
     = ((if (0 <? length results)%nat then results ++ [""] else results)
          ++ [title; ""; body],
        errors)).
Proof.
  intros Hcall Hlt Hsuccess Houtput Herror.
  pose proof (taskResult_resolved lang p at_ (Some r)
                (queryWithTimeout_fulfilled_first lang _ _ _ at_ (Some r) Hcall Hlt))
    as Hresult.
  split; [| split].
  - intros results errors. unfold collectResult.
    by rewrite Hsuccess, Houtput, Herror.
  - apply skipped_platform_run.
    + unfold successEntry. cbn. by rewrite Hresult, Hsuccess, Houtput.
    + unfold errorMessage. cbn. by rewrite Hresult, Hsuccess, Houtput, Herror.
  - intros body title results errors Hbody. unfold collectResult. cbn.
    by rewrite Hbody.
Qed.

Lemma empty_body_is_dropped_witness :
  queryFn Scenario.platformZ tt = Returns (resolved 10 (Some (succeeded ""))) /\
  (10 < timeoutMs Scenario.platformZ)%N /\
  success (succeeded "") = true /\
  truthy (output (succeeded "")) = false /\
  truthy (error (succeeded "")) = false /\
  collectResult (Some (succeeded "")) "## Z" ["## A"; ""; "X"] ["[C] boom"]
  = (["## A"; ""; "X"], ["[C] boom"]).
Proof.
  do 5 (split; [reflexivity |]).
  exact (proj1 (empty_body_is_dropped en [] Scenario.platformZ [] 10%N (succeeded "")
                  eq_refl eq_refl eq_refl eq_refl eq_refl)
           ["## A"; ""; "X"] ["[C] boom"]).
Defined.

(* ====================================================================== *)
(** ** Worked scenarios                                                    *)
(* ====================================================================== *)

(** One platform that never answers, with a budget of two seconds. *)
Example scenario_single_timeout :
  run en [Scenario.platformD]
  = resolved 2000
      ("❌ Failed to query accounts:" +:+ nl +:+ "[D] Request timeout (2s)").
Proof. reflexivity. Qed.

(** All the scenario platforms at once: the fastest answers come last in
    the registry, yet the report follows the registry. *)
Example scenario_all :
  collect zh [Scenario.platformA; Scenario.platformB; Scenario.platformC;
              Scenario.platformD; Scenario.platformE; Scenario.platformZ;
              Scenario.platformS]
  = resolved 2000
      (["## A"; ""; "X"; ""; "## S"; ""; " "],
       ["[C] boom"; "[D] 请求超时 (2秒)"; "[E] bad credentials"]).
Proof. reflexivity. Qed.

(** A failure that a query returns by itself is listed as it is, without
    the platform's name in front. *)
Example scenario_returned_failure :
  run en [ {| name := "F"; title := "## F";
              queryFn := fun _ => Returns (resolved 5 (Some (failed "quota API down")));
              timeoutMs := 2000 |} ]
  = resolved 5 ("❌ Failed to query accounts:" +:+ nl +:+ "quota API down").
Proof. reflexivity. Qed.

Example seconds_of_budgets :
  map (fun ms => Number_toString (div1000 ms)) [10000; 2500; 1050; 5; 0]%N
  = ["10"; "2.5"; "1.05"; "0.005"; "0"].
Proof. reflexivity. Qed.

(* ====================================================================== *)
(** ** Further properties of the orchestrator                              *)
(* ====================================================================== *)

(** What one platform adds to the lists: at most one thing. *)
Lemma own_contribution (pr : PlatformQuery * option QueryResult) :
  (successEntry pr = None \/ errorMessage pr = None) /\
  (forall entry, successEntry pr = Some entry -> entry.1 = title pr.1).
Proof.
  unfold successEntry, errorMessage. destruct pr.2 as [r |]; [| by split; [left |]].
  destruct (success r && truthy (output r)).
  - split; [by right |]. by intros entry [= <-].
  - split; [by left | done].
Qed.

Lemma entries_follow_registry (lang : Language) (platforms : list PlatformQuery) :
  map fst (successEntries (inRegistryOrder lang platforms))
    `sublist_of` map title platforms /\
  (length (successEntries (inRegistryOrder lang platforms))
   + length (errorMessages (inRegistryOrder lang platforms))
   <= length platforms)%nat.
Proof.
  unfold successEntries, errorMessages, inRegistryOrder.
  induction platforms as [| p rest [IHs IHl]]; [split; [constructor | done] |].
  cbn. destruct (own_contribution (p, taskResult lang p)) as [Hone Htitle].
  destruct (successEntry (p, taskResult lang p)) as [entry |] eqn:Hentry;
    destruct (errorMessage (p, taskResult lang p)) as [message |] eqn:Hmessage; cbn.
  - by destruct Hone.
  - split; [| lia]. rewrite (Htitle entry eq_refl). by constructor.
  - split; [by constructor | lia].
  - split; [by constructor | lia].
Qed.

Lemma reportText_nonEmpty (lang : Language) (entries : list (string * string))
    (messages : list string) :
  nonEmpty
    match entries, messages with
    | [], [] => noAccounts (t lang)
    | _, _ => reportText lang entries messages
    end = true.
Proof.
  destruct entries as [| e rest], messages as [| m ms].
  - by destruct lang.
  - unfold reportText. by destruct lang.
  - unfold reportText. rewrite <- join_entryLines. apply join_entryLines_nonEmpty.
  - unfold reportText. rewrite <- join_entryLines.
    pose proof (join_entryLines_nonEmpty e rest) as Hne.
    by destruct (join nl (entryLines (e :: rest))).
Qed.

(** X2.  Each platform adds at most one thing to the lists of a run, a
    success entry or an error message and never both: the titles of the
    entries are a sub-sequence of the registry's titles, and entries and
    messages together are no more than the platforms. *)
Theorem one_contribution_per_platform (lang : Language)
    (platforms : list PlatformQuery) :
  exists T entries messages,
    collect lang platforms = resolved T (entryLines entries, messages) /\
    map fst entries `sublist_of` map title platforms /\
    (length entries + length messages <= length platforms)%nat.
Proof.
  destruct (collect_in_registry_order lang platforms) as [T [Hcollect _]].
  exists T. do 2 eexists. split; [exact Hcollect |].
  apply entries_follow_registry.
Qed.

Lemma entryLines_app (entries1 entries2 : list (string * string)) :
  entryLines (entries1 ++ entries2)
  = joinLists (entryLines entries1) (entryLines entries2).
Proof.
  destruct entries1 as [| e1 rest1]; [by destruct entries2 |].
  destruct entries2 as [| e2 rest2]; [by rewrite app_nil_r |].
  cbn. by rewrite flat_map_app.
Qed.

(** X4.  Runs compose: the lists of a run over two registries put one
    after the other are the lists of the runs over each, appended, with one
    empty line between the two success lists when both have entries.  So what
    a platform does never changes what the others contribute. *)
Theorem collect_of_joined_registries (lang : Language)
    (registry1 registry2 : list PlatformQuery)
    (T1 T2 : Time) (results1 errors1 results2 errors2 : list string) :
  collect lang registry1 = resolved T1 (results1, errors1) ->
  collect lang registry2 = resolved T2 (results2, errors2) ->
  exists T,
    collect lang (registry1 ++ registry2)
    = resolved T (joinLists results1 results2, errors1 ++ errors2).
Proof.
  intros H1 H2.
  destruct (collect_in_registry_order lang registry1) as [T1' [Hc1 _]].
  destruct (collect_in_registry_order lang registry2) as [T2' [Hc2 _]].
  destruct (collect_in_registry_order lang (registry1 ++ registry2)) as [T [Hc _]].
  rewrite H1 in Hc1. rewrite H2 in Hc2.
  injection Hc1 as _ -> ->. injection Hc2 as _ -> ->.
  exists T. rewrite Hc.
  by rewrite inRegistryOrder_app, successEntries_app, errorMessages_app, entryLines_app.
Qed.

Lemma collect_of_joined_registries_witness :
  collect en [Scenario.platformA; Scenario.platformC]
  = resolved 500 (["## A"; ""; "X"], ["[C] boom"]) /\
  collect en [Scenario.platformS; Scenario.platformE]
  = resolved 10 (["## S"; ""; " "], ["[E] bad credentials"]) /\
  exists T,
    collect en ([Scenario.platformA; Scenario.platformC]
                ++ [Scenario.platformS; Scenario.platformE])
    = resolved T (["## A"; ""; "X"; ""; "## S"; ""; " "],
                  ["[C] boom"; "[E] bad credentials"]).
Proof.
  split; [reflexivity |]. split; [reflexivity |].
  exact (collect_of_joined_registries en
           [Scenario.platformA; Scenario.platformC]
           [Scenario.platformS; Scenario.platformE]
           500%N 10%N _ _ _ _ eq_refl eq_refl).
Defined.

(** X5.  A failure whose error text is empty or missing is not reported:
    the lists and the report of the run are those of the registry without
    the platform, so that a run in which nothing else happened answers with
    the "no accounts" text. *)
Theorem empty_failure_is_silent (lang : Language)
    (before : list PlatformQuery) (p : PlatformQuery) (after : list PlatformQuery)
    (at_ : Time) (r : QueryResult) :
  queryFn p tt = Returns (resolved at_ (Some r)) ->
  (at_ < timeoutMs p)%N ->
  success r = false ->
  truthy (error r) = false ->
  (exists T T' lists report,
     collect lang (before ++ p :: after) = resolved T lists /\
     collect lang (before ++ after) = resolved T' lists /\
     run lang (before ++ p :: after) = resolved T report /\
     run lang (before ++ after) = resolved T' report) /\
  exists T, run lang [p] = resolved T (noAccounts (t lang)).
Proof.
  intros Hcall Hlt Hsuccess Herror.
  pose proof (taskResult_resolved lang p at_ (Some r)
                (queryWithTimeout_fulfilled_first lang _ _ _ at_ (Some r) Hcall Hlt))
    as Hresult.
  assert (Hentry : successEntry (p, taskResult lang p) = None).
  { unfold successEntry. cbn. by rewrite Hresult, Hsuccess. }
  assert (Hmessage : errorMessage (p, taskResult lang p) = None).
  { unfold errorMessage. cbn. by rewrite Hresult, Hsuccess, Herror. }
  split; [by apply skipped_platform_run |].
  destruct (run_report lang [p]) as [T [Hrun _]].
  exists T. rewrite Hrun.
  unfold successEntries, errorMessages, inRegistryOrder. cbn.
  by rewrite Hentry, Hmessage.
Qed.

Lemma empty_failure_is_silent_witness :
  exists T,
    run en [ {| name := "F"; title := "## F";
                queryFn := fun _ => Returns (resolved 5 (Some (failed "")));
                timeoutMs := 2000 |} ]
    = resolved T (noAccounts (t en)).
Proof.
  exact (proj2 (empty_failure_is_silent en []
           {| name := "F"; title := "## F";
              queryFn := fun _ => Returns (resolved 5 (Some (failed "")));
              timeoutMs := 2000 |}
           [] 5%N (failed "") eq_refl eq_refl eq_refl eq_refl)).
Defined.

(** X6.  The success flag alone decides nothing: a result without a
    (non-empty) body but with an error text is listed as an error whether it
    is flagged as a success or not, and it gets no success entry. *)
Theorem error_text_without_body_is_listed (lang : Language)
    (platforms : list PlatformQuery) (p : PlatformQuery)
    (at_ : Time) (r : QueryResult) (message : string) :
  p ∈ platforms ->
  queryFn p tt = Returns (resolved at_ (Some r)) ->
  (at_ < timeoutMs p)%N ->
  truthy (output r) = false ->
  error r = Some message ->
  nonEmpty message = true ->
  (forall results errors,
     collectResult (Some r) (title p) results errors = (results, errors ++ [message])) /\
  exists T results errors,
    collect lang platforms = resolved T (results, errors) /\
    message ∈ errors.
Proof.
  intros Hin Hcall Hlt Houtput Herror Hmessage.
  pose proof (taskResult_resolved lang p at_ (Some r)
                (queryWithTimeout_fulfilled_first lang _ _ _ at_ (Some r) Hcall Hlt))
    as Hresult.
  split.
  - intros results errors. unfold collectResult.
    rewrite Houtput, andb_false_r, Herror. cbn. by rewrite Hmessage.
  - destruct (collect_in_registry_order lang platforms) as [T [Hcollect _]].
    exists T. do 2 eexists. split; [exact Hcollect |].
    apply list_elem_of_omap. exists (p, taskResult lang p). split.
    + apply list_elem_of_fmap. by exists p.
    + unfold errorMessage. cbn.
      rewrite Hresult, Houtput, andb_false_r, Herror. cbn. by rewrite Hmessage.
Qed.

Lemma error_text_without_body_is_listed_witness :
  exists T results errors,
    collect en [ {| name := "G"; title := "## G";
                    queryFn := fun _ =>
                      Returns (resolved 5 (Some {| success := true;
                                                   output := Some "";
                                                   error := Some "no data" |}));
                    timeoutMs := 2000 |} ]
    = resolved T (results, errors) /\
    "no data" ∈ errors.
Proof.
  refine (proj2 (error_text_without_body_is_listed en _
           {| name := "G"; title := "## G";
              queryFn := fun _ =>
                Returns (resolved 5 (Some {| success := true;
                                             output := Some "";
                                             error := Some "no data" |}));
              timeoutMs := 2000 |}
           5%N _ "no data" _ eq_refl eq_refl eq_refl eq_refl eq_refl)).
  left.
Defined.

(* ====================================================================== *)
(** ** Further properties of the Copilot query                             *)
(* ====================================================================== *)

(** X7.  A reply that is not OK never yields usage data: the fetch does not
    fulfil, and once the reply's body has been read it rejects with an
    [Error] whose message is the language's API-error text with the status
    and that body; the parsed form of the reply is not looked at.  An OK
    reply is parsed and its body text is not looked at. *)
Theorem fetchCopilotUsage_checks_status (lang : Language)
    (CopilotUsageResponse : Type)
    (fetchWithTimeout :
       string -> list (string * string) -> Promise (Copilot.Response CopilotUsageResponse))
    (token : string) (t1 : Time) (response : Copilot.Response CopilotUsageResponse) :
  fetchWithTimeout (Copilot.GITHUB_API_BASE_URL +:+ "/copilot_internal/user")
    (Copilot.buildGitHubHeaders token) = resolved t1 response ->
  let fetched := Copilot.fetchCopilotUsage CopilotUsageResponse fetchWithTimeout lang token in
  (Copilot.ok response = false ->
     (forall at_ usage, fetched <> resolved at_ usage) /\
     (forall t2 body,
        Copilot.text response = resolved t2 body ->
        fetched
        = rejected (N.max t1 t2)
            (Error (copilotApiError (t lang) (Copilot.status response) body)))) /\
  (Copilot.ok response = true ->
     fetched = notBefore t1 (Copilot.json response)).
Proof.
  intros Hfetch fetched. unfold fetched, Copilot.fetchCopilotUsage.
  rewrite Hfetch. cbn. split; intros Hok; rewrite Hok; cbn; [| reflexivity].
  split.
  - intros at_ usage. destruct (Copilot.text response) as [[t2 [body | e]] |];
      cbn; discriminate.
  - intros t2 body ->. cbn. unfold rejected. do 2 f_equal. lia.
Qed.

Lemma fetchCopilotUsage_checks_status_witness :
  Copilot.fetchCopilotUsage unit Scenario.unauthorizedNetwork en "gho_token"
  = rejected 130 (Error "GitHub Copilot API request failed (401): Bad credentials").
Proof.
  exact (proj2 (proj1 (fetchCopilotUsage_checks_status en unit
                         Scenario.unauthorizedNetwork "gho_token" 120%N
                         Scenario.unauthorized eq_refl) eq_refl)
           130%N "Bad credentials" eq_refl).
Defined.



(* ====================================================================== *)
(** ** Properties of the rendering of the Copilot reply                    *)
(* ====================================================================== *)

Lemma utf16Length_append (s1 s2 : string) :
  CopilotFormat.utf16Length (s1 +:+ s2)
  = (CopilotFormat.utf16Length s1 + CopilotFormat.utf16Length s2)%nat.
Proof.
  induction s1 as [| c s1 IH]; [reflexivity |].
  change (CopilotFormat.codeUnits c + CopilotFormat.utf16Length (s1 +:+ s2)
          = CopilotFormat.codeUnits c + CopilotFormat.utf16Length s1
            + CopilotFormat.utf16Length s2)%nat.
  rewrite IH. lia.
Qed.

Lemma utf16Length_spaces (n : nat) :
  CopilotFormat.utf16Length (CopilotFormat.spaces n) = n.
Proof. induction n as [| n IH]; [reflexivity |]. cbn. by rewrite IH. Qed.

Lemma nonEmpty_append_r (s1 s2 : string) :
  nonEmpty s2 = true -> nonEmpty (s1 +:+ s2) = true.
Proof. intros H. destruct s1; [exact H | reflexivity]. Qed.

Lemma join_snoc_nonEmpty (lines : list string) (last : string) :
  nonEmpty last = true -> nonEmpty (join nl (lines ++ [last])) = true.
Proof.
  intros Hlast. induction lines as [| l rest IH]; [exact Hlast |].
  destruct rest as [| l' rest'].
  - change (nonEmpty (l +:+ nl +:+ last) = true).
    by apply nonEmpty_append_r.
  - change (nonEmpty (l +:+ nl +:+ join nl ((l' :: rest') ++ [last])) = true).
    by apply nonEmpty_append_r.
Qed.

Section RenderingFacts.
Import CopilotFormat.
Variable JsNumber : Type.
Variable minus : JsNumber -> JsNumber -> JsNumber.
Variable Math_round : JsNumber -> JsNumber.
Variable show : JsNumber -> string.
Variable isPositive : JsNumber -> bool.
Variable createProgressBar : JsNumber -> N -> string.
Variable Date_getTime : string -> option Z.
Variable now : Z.
Variable lang : Language.

Let quotaLine := formatQuotaLine JsNumber minus Math_round show createProgressBar.
Let countdown := getResetCountdown Date_getTime now lang.
Let lines :=
  usageLines JsNumber minus Math_round show isPositive createProgressBar
    Date_getTime now lang.
Let render :=
  formatCopilotUsage JsNumber minus Math_round show isPositive createProgressBar
    Date_getTime now lang.

(** X9.  A quota line is empty exactly for a missing quota.  For a quota
    that is there and a name of at most 14 UTF-16 code units (14 characters
    of the basic plane, whatever the number of their bytes), the line is the
    name padded with spaces to 14 code units, a space, and the rest, so that
    the rest starts in the same column on every line; for an unlimited quota
    the rest is "Unlimited", whatever its numbers. *)
Theorem quota_line_shape (name : string) (quota : option (QuotaDetail JsNumber))
    (width : N) :
  (quotaLine name quota width = "" <-> quota = None) /\
  (forall q,
     quota = Some q ->
     (utf16Length name <= 14)%nat ->
     exists rest,
       quotaLine name quota width
       = (name +:+ spaces (14 - utf16Length name)) +:+ " " +:+ rest /\
       utf16Length (name +:+ spaces (14 - utf16Length name)) = 14%nat /\
       (unlimited JsNumber q = true -> rest = "Unlimited")).
Proof.
  unfold quotaLine, formatQuotaLine, padEnd. split.
  - destruct quota as [q |]; [| done]. split; [| done].
    intros Hempty. exfalso.
    assert (Hne : nonEmpty "" = true); [| done].
    rewrite <- Hempty. destruct (unlimited JsNumber q); by apply nonEmpty_append_r.
  - intros q -> Hlen. destruct (unlimited JsNumber q).
    + exists "Unlimited". split; [reflexivity |]. split; [| done].
      rewrite utf16Length_append, utf16Length_spaces. lia.
    + eexists. split; [reflexivity |]. split; [| done].
      rewrite utf16Length_append, utf16Length_spaces. lia.
Qed.

(** X10.  For a reset date in the future the countdown shows the whole
    days and, of the rest, the whole hours (fewer than 24) until the reset,
    rounded down, so it never overstates the time left and understates it by
    less than an hour; the days are left out when there are none. *)
Theorem countdown_rounds_down (resetDate : string) (reset : Z) :
  Date_getTime resetDate = Some reset ->
  (now < reset)%Z ->
  exists days hours : Z,
    (0 <= days)%Z /\ (0 <= hours < 24)%Z /\
    (days * 86400000 + hours * 3600000 <= reset - now
     < days * 86400000 + (hours + 1) * 3600000)%Z /\
    countdown resetDate
    = if (0 <? days)%Z
      then pretty days +:+ "d " +:+ pretty hours +:+ "h"
      else pretty hours +:+ "h".
Proof.
  intros Hdate Hfuture. unfold countdown, getResetCountdown. rewrite Hdate. cbn.
  set (d := (reset - now)%Z).
  assert (Hd : (0 < d)%Z) by (unfold d; lia).
  destruct (Z.leb_spec d 0) as [Hle | _]; [lia |].
  change (1000 * 60 * 60 * 24)%Z with 86400000%Z.
  change (1000 * 60 * 60)%Z with 3600000%Z.
  rewrite Z.rem_mod_nonneg by lia.
  exists (d / 86400000)%Z, (d mod 86400000 / 3600000)%Z.
  pose proof (Z.div_mod d 86400000 ltac:(lia)) as Hdm.
  pose proof (Z.mod_pos_bound d 86400000 ltac:(lia)) as Hm.
  pose proof (Z.div_mod (d mod 86400000) 3600000 ltac:(lia)) as Hdm'.
  pose proof (Z.mod_pos_bound (d mod 86400000) 3600000 ltac:(lia)) as Hm'.
  assert (Hdays : (0 <= d / 86400000)%Z) by (apply Z.div_pos; lia).
  assert (Hhours : (0 <= d mod 86400000 / 3600000)%Z) by (apply Z.div_pos; lia).
  split; [exact Hdays |]. split; [lia |]. split; [lia |].
  reflexivity.
Qed.

(** X11.  The edges of the countdown: a reset date that is now or past
    gives the language's "resets soon" text; one less than an hour ahead
    gives "0h"; and a date that cannot be parsed gives "NaNh". *)
Theorem countdown_edges (resetDate : string) :
  (forall reset,
     Date_getTime resetDate = Some reset -> (reset <= now)%Z ->
     countdown resetDate = resetsSoon (texts lang)) /\
  (forall reset,
     Date_getTime resetDate = Some reset -> (now < reset < now + 3600000)%Z ->
     countdown resetDate = "0h") /\
  (Date_getTime resetDate = None -> countdown resetDate = "NaNh").
Proof.
  unfold countdown, getResetCountdown. split; [| split].
  - intros reset -> Hpast. cbn.
    by destruct (Z.leb_spec (reset - now) 0) as [_ | Hgt]; [| lia].
  - intros reset -> [Hlo Hhi]. cbn.
    destruct (Z.leb_spec (reset - now) 0) as [Hle | _]; [lia |].
    change (1000 * 60 * 60 * 24)%Z with 86400000%Z.
    change (1000 * 60 * 60)%Z with 3600000%Z.
    rewrite Z.rem_mod_nonneg by lia.
    rewrite (Z.div_small (reset - now) 86400000) by lia.
    rewrite (Z.mod_small (reset - now) 86400000) by lia.
    rewrite (Z.div_small (reset - now) 3600000) by lia.
    reflexivity.
  - by intros ->.
Qed.

Lemma quotaLine_nonEmpty (name : string) (q : QuotaDetail JsNumber) (width : N) :
  nonEmpty (quotaLine name (Some q) width) = true.
Proof.
  unfold quotaLine, formatQuotaLine.
  destruct (unlimited JsNumber q); by apply nonEmpty_append_r.
Qed.

Lemma usage_shape (data : CopilotUsageResponse JsNumber) :
  head (lines data)
  = Some (account (texts lang) +:+ "        GitHub Copilot ("
            +:+ copilot_plan JsNumber data +:+ ")") /\
  last (lines data)
  = Some (quotaResets (texts lang) +:+ ": "
            +:+ countdown (quota_reset_date JsNumber data)
            +:+ " (" +:+ quota_reset_date JsNumber data +:+ ")") /\
  (4 <= length (lines data) <= 8)%nat.
Proof.
  unfold lines, usageLines, countdown.
  destruct (premium_interactions JsNumber (quota_snapshots JsNumber data)) as [p |];
    [fold (quotaLine (premiumRequests (texts lang)) (Some p) 20);
     rewrite (quotaLine_nonEmpty _ p 20);
     destruct (isPositive (overage_count JsNumber p)) |];
    (destruct (chat JsNumber (quota_snapshots JsNumber data)) as [c |];
       [destruct (unlimited JsNumber c) eqn:Hc; cbn [negb];
        [| fold (quotaLine (chatQuota (texts lang)) (Some c) 20);
           rewrite (quotaLine_nonEmpty _ c 20)] |]);
    (destruct (completions JsNumber (quota_snapshots JsNumber data)) as [k |];
       [destruct (unlimited JsNumber k) eqn:Hk; cbn [negb];
        [| fold (quotaLine (completionsQuota (texts lang)) (Some k) 20);
           rewrite (quotaLine_nonEmpty _ k 20)] |]);
    (split; [reflexivity |]; split; [reflexivity |]; cbn; lia).
Qed.

Lemma render_nonEmpty (data : CopilotUsageResponse JsNumber) :
  nonEmpty (render data) = true.
Proof.
  destruct (usage_shape data) as [_ [Hlast _]].
  unfold render, formatCopilotUsage. fold lines.
  apply last_Some in Hlast as [front Hlines]. rewrite Hlines.
  apply join_snoc_nonEmpty. apply nonEmpty_append_r. by destruct lang.
Qed.

(** X12.  The rendering always begins with the account line, which names
    the plan, and ends with the reset line, which holds the countdown and the
    reset date as received; it has between four and eight lines and is never
    the empty text. *)
Theorem usage_layout (data : CopilotUsageResponse JsNumber) :
  head (lines data)
  = Some (account (texts lang) +:+ "        GitHub Copilot ("
            +:+ copilot_plan JsNumber data +:+ ")") /\
  last (lines data)
  = Some (quotaResets (texts lang) +:+ ": "
            +:+ countdown (quota_reset_date JsNumber data)
            +:+ " (" +:+ quota_reset_date JsNumber data +:+ ")") /\
  (4 <= length (lines data) <= 8)%nat /\
  nonEmpty (render data) = true.
Proof.
  destruct (usage_shape data) as [Hhead [Hlast Hlen]].
  split; [exact Hhead |]. split; [exact Hlast |]. split; [exact Hlen |].
  apply render_nonEmpty.
Qed.

(** X13.  Chat and completions quotas that are unlimited are left out: the
    rendering is that of the reply without them.  The premium quota is shown
    whenever the reply has it, an unlimited one as "Premium" padded to 14
    characters and " Unlimited". *)
Theorem unlimited_side_quotas_are_hidden (data : CopilotUsageResponse JsNumber) :
  (forall c,
     chat JsNumber (quota_snapshots JsNumber data) = Some c ->
     unlimited JsNumber c = true ->
     render data
     = render {| copilot_plan := copilot_plan JsNumber data;
                 quota_reset_date := quota_reset_date JsNumber data;
                 quota_snapshots :=
                   {| chat := None;
                      completions := completions JsNumber (quota_snapshots JsNumber data);
                      premium_interactions :=
                        premium_interactions JsNumber (quota_snapshots JsNumber data) |} |}) /\
  (forall k,
     completions JsNumber (quota_snapshots JsNumber data) = Some k ->
     unlimited JsNumber k = true ->
     render data
     = render {| copilot_plan := copilot_plan JsNumber data;
                 quota_reset_date := quota_reset_date JsNumber data;
                 quota_snapshots :=
                   {| chat := chat JsNumber (quota_snapshots JsNumber data);
                      completions := None;
                      premium_interactions :=
                        premium_interactions JsNumber (quota_snapshots JsNumber data) |} |}) /\
  (forall p,
     premium_interactions JsNumber (quota_snapshots JsNumber data) = Some p ->
     quotaLine "Premium" (Some p) 20 ∈ lines data /\
     (unlimited JsNumber p = true ->
      "Premium        Unlimited" ∈ lines data)).
Proof.
  split; [| split].
  - intros c Hchat Hc. unfold render, formatCopilotUsage, usageLines. cbn.
    by rewrite Hchat, Hc.
  - intros k Hcompletions Hk. unfold render, formatCopilotUsage, usageLines. cbn.
    by rewrite Hcompletions, Hk.
  - intros p Hpremium.
    assert (Hin : quotaLine "Premium" (Some p) 20 ∈ lines data).
    { unfold lines, usageLines. rewrite Hpremium.
      replace (premiumRequests (texts lang)) with "Premium" by (by destruct lang).
      fold (quotaLine "Premium" (Some p) 20).
      rewrite (quotaLine_nonEmpty _ p 20).
      rewrite !elem_of_app.
      destruct (isPositive (overage_count JsNumber p));
        repeat match goal with
               | |- context [match ?x with _ => _ end] => destruct x
               end;
        rewrite ?elem_of_app, ?elem_of_cons; tauto. }
    split; [exact Hin |].
    intros Hp. unfold quotaLine, formatQuotaLine in Hin. by rewrite Hp in Hin.
Qed.

End RenderingFacts.

Lemma quota_line_shape_witness :
  (CopilotFormat.utf16Length "高级请求" <= 14)%nat /\
  String.length "高级请求" = 12%nat /\
  CopilotFormat.formatQuotaLine Z Z.sub (fun x => x) pretty Scenario.sampleBar
    "高级请求" (Some (Scenario.sampleQuota true)) 20
  = "高级请求" +:+ "          " +:+ " " +:+ "Unlimited".
Proof.
  assert (Hlen : (CopilotFormat.utf16Length "高级请求" <= 14)%nat)
    by (vm_compute; lia).
  split; [exact Hlen |]. split; [reflexivity |].
  destruct (proj2 (quota_line_shape Z Z.sub (fun x => x) pretty Scenario.sampleBar
                     "高级请求" (Some (Scenario.sampleQuota true)) 20)
              (Scenario.sampleQuota true) eq_refl Hlen)
    as [rest [Hline [_ Hrest]]].
  rewrite (Hrest eq_refl) in Hline. exact Hline.
Defined.

Lemma countdown_rounds_down_witness :
  Scenario.sampleDate "2026-12-01" = Some 90000000%Z /\
  (0 < 90000000)%Z /\
  exists days hours : Z,
    (0 <= days)%Z /\ (0 <= hours < 24)%Z /\
    (days * 86400000 + hours * 3600000 <= 90000000 - 0
     < days * 86400000 + (hours + 1) * 3600000)%Z /\
    CopilotFormat.getResetCountdown Scenario.sampleDate 0%Z en "2026-12-01"
    = if (0 <? days)%Z
      then pretty days +:+ "d " +:+ pretty hours +:+ "h"
      else pretty hours +:+ "h".
Proof.
  split; [reflexivity |]. split; [reflexivity |].
  exact (countdown_rounds_down Scenario.sampleDate 0%Z en "2026-12-01" 90000000%Z
           eq_refl eq_refl).
Defined.

Lemma countdown_edges_witness :
  CopilotFormat.getResetCountdown (fun _ => None) 0%Z en "not a date" = "NaNh".
Proof.
  exact (proj2 (proj2 (countdown_edges (fun _ => None) 0%Z en "not a date")) eq_refl).
Defined.

Lemma unlimited_side_quotas_are_hidden_witness :
  CopilotFormat.chat Z (CopilotFormat.quota_snapshots Z Scenario.sampleReply)
  = Some (Scenario.sampleQuota true) /\
  Scenario.sampleRender Scenario.sampleReply
  = Scenario.sampleRender
      {| CopilotFormat.copilot_plan := "individual";
         CopilotFormat.quota_reset_date := "2026-12-01";
         CopilotFormat.quota_snapshots :=
           {| CopilotFormat.chat := None;
              CopilotFormat.completions := Some (Scenario.sampleQuota true);
              CopilotFormat.premium_interactions := Some (Scenario.sampleQuota false) |} |}.
Proof.
  split; [reflexivity |].
  exact (proj1 (unlimited_side_quotas_are_hidden Z Z.sub (fun x => x) pretty (Z.ltb 0)
                  Scenario.sampleBar Scenario.sampleDate 0%Z en Scenario.sampleReply)
           (Scenario.sampleQuota true) eq_refl eq_refl).
Defined.

(** The sample reply as the tool shows it. *)
Example sample_rendering :
  Scenario.sampleRender Scenario.sampleReply
  = "Account:        GitHub Copilot (individual)" +:+ nl +:+
    nl +:+
    "Premium        ###############----- 75% (75/300)" +:+ nl +:+
    nl +:+
    "Quota resets: 1d 1h (2026-12-01)".
Proof. reflexivity. Qed.

(* ====================================================================== *)
(** ** Properties of the tool                                              *)
(* ====================================================================== *)

Lemma all_absent_lists (lang : Language) (platforms : list PlatformQuery) :
  Forall signalsAbsence platforms ->
  successEntries (inRegistryOrder lang platforms) = [] /\
  errorMessages (inRegistryOrder lang platforms) = [].
Proof.
  induction 1 as [| p rest Hp _ IH]; [by split |].
  unfold successEntries, errorMessages, inRegistryOrder in *. cbn.
  unfold successEntry, errorMessage. cbn.
  by rewrite (taskResult_absent lang p Hp).
Qed.

Lemma authError_nonEmpty (lang : Language) (path err : string) :
  nonEmpty (authError (t lang) path err) = true.
Proof. by destruct lang. Qed.

Section ToolProperties.
Variables OpenAIAuthData ZhipuAuthData : Type.
Variable queryOpenAIUsage : option OpenAIAuthData -> Call (Promise (option QueryResult)).
Variable queryZhipuUsage : option ZhipuAuthData -> Call (Promise (option QueryResult)).
Variable queryZaiUsage : option ZhipuAuthData -> Call (Promise (option QueryResult)).
Variable queryGoogleUsage : unit -> Call (Promise (option QueryResult)).
Variable CopilotUsageResponse : Type.
Variable fetchWithTimeout :
  string -> list (string * string) -> Promise (Copilot.Response CopilotUsageResponse).
Variable formatCopilotUsage : CopilotUsageResponse -> Call string.
Variable REQUEST_TIMEOUT_MS : N.
Variable authPath : string.
Variable lang : Language.

Let registry (authData : AuthData OpenAIAuthData ZhipuAuthData) : list PlatformQuery :=
  platforms OpenAIAuthData ZhipuAuthData queryOpenAIUsage queryZhipuUsage
    queryZaiUsage queryGoogleUsage CopilotUsageResponse fetchWithTimeout
    formatCopilotUsage REQUEST_TIMEOUT_MS lang authData.

Let tool (readAuthData : option (Settled (AuthData OpenAIAuthData ZhipuAuthData)))
    : Promise string :=
  execute OpenAIAuthData ZhipuAuthData queryOpenAIUsage queryZhipuUsage
    queryZaiUsage queryGoogleUsage CopilotUsageResponse fetchWithTimeout
    formatCopilotUsage REQUEST_TIMEOUT_MS authPath readAuthData lang.

Lemma tool_runs authData : tool (Some (Fulfilled authData)) = run lang (registry authData).
Proof. apply execute_runs. Qed.

(** X16.  The sections of the tool's report follow the fixed order of its
    registry: the titles of the success entries are a sub-sequence of the
    titles of OpenAI, Zhipu AI, Z.ai, Google Cloud and GitHub Copilot in this
    order, and entries and messages together are at most five. *)
Theorem tool_sections_in_fixed_order (authData : AuthData OpenAIAuthData ZhipuAuthData) :
  exists T entries messages,
    collect lang (registry authData) = resolved T (entryLines entries, messages) /\
    map fst entries
      `sublist_of` [ openaiTitle (t lang); zhipuTitle (t lang); zaiTitle (t lang);
                     googleTitle (t lang); copilotTitle (t lang) ] /\
    (length entries + length messages <= 5)%nat.
Proof.
  destruct (collect_in_registry_order lang (registry authData)) as [T [Hcollect _]].
  exists T. do 2 eexists. split; [exact Hcollect |].
  apply (entries_follow_registry lang (registry authData)).
Qed.

(** X17.  When none of the five platforms is configured (the four other
    queries signal it before the timeout, and the Copilot credential is not
    usable), the tool answers with the language's "no accounts" text. *)
Theorem tool_none_configured (authData : AuthData OpenAIAuthData ZhipuAuthData)
    (t1 t2 t3 t4 : Time) :
  queryOpenAIUsage (openai _ _ authData) = Returns (resolved t1 None) ->
  queryZhipuUsage (zhipuai_coding_plan _ _ authData) = Returns (resolved t2 None) ->
  queryZaiUsage (zai_coding_plan _ _ authData) = Returns (resolved t3 None) ->
  queryGoogleUsage tt = Returns (resolved t4 None) ->
  unusable (github_copilot _ _ authData) ->
  (t1 < REQUEST_TIMEOUT_MS)%N -> (t2 < REQUEST_TIMEOUT_MS)%N ->
  (t3 < REQUEST_TIMEOUT_MS)%N -> (t4 < REQUEST_TIMEOUT_MS)%N ->
  exists T, tool (Some (Fulfilled authData)) = resolved T (noAccounts (t lang)).
Proof.
  intros H1 H2 H3 H4 Hcopilot Hlt1 Hlt2 Hlt3 Hlt4.
  rewrite tool_runs.
  destruct (run_report lang (registry authData)) as [T [Hrun _]].
  exists T. rewrite Hrun.
  destruct (all_absent_lists lang (registry authData)) as [-> ->]; [| reflexivity].
  unfold registry, platforms.
  repeat constructor; unfold signalsAbsence; cbn.
  - by exists t1.
  - by exists t2.
  - by exists t3.
  - by exists t4.
  - exists 0%N. split; [| lia].
    by rewrite (queryCopilotUsage_unusable _ _ _ _ _ Hcopilot).
Qed.

End ToolProperties.

Lemma tool_none_configured_witness :
  exists T,
    execute unit unit
      (fun _ => Returns (resolved 3 None)) (fun _ => Returns (resolved 2 None))
      (fun _ => Returns (resolved 1 None)) (fun _ => Returns (resolved 4 None))
      unit Scenario.unauthorizedNetwork Scenario.plainFormat 10000
      "/home/user/.local/share/opencode/auth.json"
      (Some (Fulfilled {| openai := None; zhipuai_coding_plan := None;
                          zai_coding_plan := None; github_copilot := None |}))
      en
    = resolved T (noAccounts (t en)).
Proof.
  exact (tool_none_configured unit unit
           (fun _ => Returns (resolved 3 None)) (fun _ => Returns (resolved 2 None))
           (fun _ => Returns (resolved 1 None)) (fun _ => Returns (resolved 4 None))
           unit Scenario.unauthorizedNetwork Scenario.plainFormat 10000
           "/home/user/.local/share/opencode/auth.json" en
           {| openai := None; zhipuai_coding_plan := None;
              zai_coding_plan := None; github_copilot := None |}
           3%N 2%N 1%N 4%N eq_refl eq_refl eq_refl eq_refl I
           eq_refl eq_refl eq_refl eq_refl).
Defined.

(* ====================================================================== *)
(** ** Properties of the language detection                                *)
(* ====================================================================== *)

Lemma prefix_shorter (p q s : string) :
  String.prefix (p +:+ q) s = true -> String.prefix p s = true.
Proof.
  revert s. induction p as [| c p IH]; intros s; [by destruct s |].
  destruct s as [| d s]; [done |].
  change (String.prefix (String c (p +:+ q)) (String d s) = true
          -> String.prefix (String c p) (String d s) = true).
  cbn. destruct (ascii_dec c d); [apply IH | done].
Qed.

Lemma startsWith_zh (s rest : string) :
  Detect.startsWith s ("zh" +:+ rest) = true -> Detect.startsWith s "zh" = true.
Proof. apply prefix_shorter. Qed.

Lemma not_zh (s rest : string) :
  Detect.startsWith s "zh" = false -> Detect.startsWith s ("zh" +:+ rest) = false.
Proof.
  intros Hzh. destruct (Detect.startsWith s ("zh" +:+ rest)) eqn:H; [| done].
  apply startsWith_zh in H. congruence.
Qed.

Lemma not_zh_variants (s : string) :
  Detect.startsWith s "zh" = false ->
  Detect.startsWith s "zh-TW" = false /\ Detect.startsWith s "zh-Hant" = false /\
  Detect.startsWith s "zh_TW" = false /\ Detect.startsWith s "zh_HK" = false.
Proof.
  intros Hzh. repeat split.
  - exact (not_zh s "-TW" Hzh).
  - exact (not_zh s "-Hant" Hzh).
  - exact (not_zh s "_TW" Hzh).
  - exact (not_zh s "_HK" Hzh).
Qed.

(** The value of [LANG || LC_ALL || LANGUAGE || ""]. *)
Lemma env_choice (env : Detect.Env) :
  Detect.orElse (Detect.LANG env)
    (Detect.orElse (Detect.LC_ALL env) (Detect.orElse (Detect.LANGUAGE env) ""))
  = match Detect.LANG env, Detect.LC_ALL env, Detect.LANGUAGE env with
    | Some (String c s), _, _ => String c s
    | _, Some (String c s), _ => String c s
    | _, _, Some (String c s) => String c s
    | _, _, _ => ""
    end.
Proof.
  unfold Detect.orElse.
  destruct (Detect.LANG env) as [[| c1 s1] |], (Detect.LC_ALL env) as [[| c2 s2] |],
    (Detect.LANGUAGE env) as [[| c3 s3] |]; reflexivity.
Qed.

(** X18.  English is the fall-back and nothing else: the detected language
    is English exactly when the locale of the [Intl] API, if the API yields
    one, does not start with "zh", and the first of [LANG], [LC_ALL] and
    [LANGUAGE] that is set and not empty (the empty text if there is none)
    does not start with "zh" either. *)
Theorem english_is_the_fallback (intlLocale : Call string) (env : Detect.Env) :
  Detect.detectLanguage intlLocale env = en <->
  (forall locale, intlLocale = Returns locale -> Detect.startsWith locale "zh" = false) /\
  Detect.startsWith
    match Detect.LANG env, Detect.LC_ALL env, Detect.LANGUAGE env with
    | Some (String c s), _, _ => String c s
    | _, Some (String c s), _ => String c s
    | _, _, Some (String c s) => String c s
    | _, _, _ => ""
    end "zh" = false.
Proof.
  rewrite <- env_choice. unfold Detect.detectLanguage.
  set (lang := Detect.orElse _ _).
  assert (Henv :
    (if Detect.startsWith lang "zh_TW" || Detect.startsWith lang "zh_HK" then zh_tw
     else if Detect.startsWith lang "zh" then zh else en) = en
    <-> Detect.startsWith lang "zh" = false).
  { destruct (Detect.startsWith lang "zh") eqn:Hzh.
    - destruct (_ || _); split; discriminate.
    - destruct (not_zh_variants lang Hzh) as [_ [_ [-> ->]]]. by split. }
  destruct intlLocale as [locale | e].
  - destruct (Detect.startsWith locale "zh") eqn:Hzh.
    + split.
      * destruct (Detect.startsWith locale "zh-TW" || Detect.startsWith locale "zh-Hant");
          discriminate.
      * intros [Hintl _]. specialize (Hintl locale eq_refl). congruence.
    + destruct (not_zh_variants locale Hzh) as [-> [-> _]]. cbn.
      rewrite Henv. split; [intros H; split; [by intros ? [= <-] | exact H] | by intros [_ H]].
  - rewrite Henv. split; [intros H; split; [discriminate | exact H] | by intros [_ H]].
Qed.

(** X19.  What the detection looks at, and in which order.  A locale of
    the [Intl] API that starts with "zh" decides alone: the environment is
    not consulted, and the result is traditional Chinese exactly for the
    prefixes "zh-TW" and "zh-Hant".  Otherwise the environment decides, and
    in it [LANG], when set and not empty, hides [LC_ALL] and [LANGUAGE],
    while an empty [LANG] counts as not set. *)
Theorem detection_precedence (intlLocale : Call string) (env : Detect.Env) :
  (forall locale env',
     intlLocale = Returns locale ->
     Detect.startsWith locale "zh" = true ->
     Detect.detectLanguage intlLocale env = Detect.detectLanguage intlLocale env' /\
     Detect.detectLanguage intlLocale env
     = if Detect.startsWith locale "zh-TW" || Detect.startsWith locale "zh-Hant"
       then zh_tw else zh) /\
  (forall lc_all language,
     truthy (Detect.LANG env) = true ->
     Detect.detectLanguage intlLocale env
     = Detect.detectLanguage intlLocale
         {| Detect.LANG := Detect.LANG env;
            Detect.LC_ALL := lc_all;
            Detect.LANGUAGE := language |}) /\
  (Detect.LANG env = Some "" ->
   Detect.detectLanguage intlLocale env
   = Detect.detectLanguage intlLocale
       {| Detect.LANG := None;
          Detect.LC_ALL := Detect.LC_ALL env;
          Detect.LANGUAGE := Detect.LANGUAGE env |}).
Proof.
  split; [| split].
  - intros locale env' -> Hzh. unfold Detect.detectLanguage. rewrite Hzh.
    by destruct (Detect.startsWith locale "zh-TW" || Detect.startsWith locale "zh-Hant").
  - intros lc_all language Hlang. unfold Detect.detectLanguage, Detect.orElse. cbn.
    by rewrite Hlang.
  - intros Hlang. unfold Detect.detectLanguage, Detect.orElse. cbn.
    by rewrite Hlang.
Qed.

Lemma detection_precedence_witness :
  Detect.detectLanguage (Returns "zh-HK")
    {| Detect.LANG := Some "en_US.UTF-8"; Detect.LC_ALL := None; Detect.LANGUAGE := None |}
  = zh /\
  Detect.detectLanguage (Returns "en-US")
    {| Detect.LANG := Some "zh_HK.UTF-8"; Detect.LC_ALL := Some "C";
       Detect.LANGUAGE := Some "en" |}
  = Detect.detectLanguage (Returns "en-US")
      {| Detect.LANG := Some "zh_HK.UTF-8"; Detect.LC_ALL := None;
         Detect.LANGUAGE := None |}.
Proof.
  split.
  - exact (proj2 (proj1 (detection_precedence (Returns "zh-HK")
             {| Detect.LANG := Some "en_US.UTF-8"; Detect.LC_ALL := None;
                Detect.LANGUAGE := None |})
             "zh-HK"
             {| Detect.LANG := None; Detect.LC_ALL := None; Detect.LANGUAGE := None |}
             eq_refl eq_refl)).
  - exact (proj1 (proj2 (detection_precedence (Returns "en-US")
             {| Detect.LANG := Some "zh_HK.UTF-8"; Detect.LC_ALL := Some "C";
                Detect.LANGUAGE := Some "en" |}))
             None None eq_refl).
Defined.

(** X20.  The revision that added traditional Chinese changed nothing
    else: where the earlier detection said English the present one says
    English, and where it said Chinese the present one says simplified or
    traditional Chinese. *)
Theorem detection_refines_earlier_revision (intlLocale : Call string) (env : Detect.Env) :
  Detect.detectLanguage2 intlLocale env
  = match Detect.detectLanguage intlLocale env with
    | en => Detect.en2
    | zh | zh_tw => Detect.zh2
    end.
Proof.
  unfold Detect.detectLanguage2, Detect.detectLanguage.
  set (lang := Detect.orElse _ _).
  assert (Henv :
    (if Detect.startsWith lang "zh" then Detect.zh2 else Detect.en2)
    = match (if Detect.startsWith lang "zh_TW" || Detect.startsWith lang "zh_HK"
             then zh_tw
             else if Detect.startsWith lang "zh" then zh else en) with
      | en => Detect.en2
      | zh | zh_tw => Detect.zh2
      end).
  { destruct (Detect.startsWith lang "zh") eqn:Hzh.
    - by destruct (_ || _).
    - by destruct (not_zh_variants lang Hzh) as [_ [_ [-> ->]]]. }
  destruct intlLocale as [locale | e]; [| exact Henv].
  destruct (Detect.startsWith locale "zh") eqn:Hzh.
  - by destruct (Detect.startsWith locale "zh-TW" || Detect.startsWith locale "zh-Hant").
  - destruct (not_zh_variants locale Hzh) as [-> [-> _]]. exact Henv.
Qed.

Lemma english_is_the_fallback_witness :
  Detect.detectLanguage (Throws (Error "Intl is not defined"))
    {| Detect.LANG := Some ""; Detect.LC_ALL := Some "en_US.UTF-8";
       Detect.LANGUAGE := Some "zh_CN" |}
  = en.
Proof.
  apply (proj2 (english_is_the_fallback (Throws (Error "Intl is not defined"))
                  {| Detect.LANG := Some ""; Detect.LC_ALL := Some "en_US.UTF-8";
                     Detect.LANGUAGE := Some "zh_CN" |})).
  split; [discriminate | reflexivity].
Defined.

(* ====================================================================== *)
(** ** Facts about promises, for any thrown value                          *)
(* ====================================================================== *)

Section AnyPromiseFacts.
Import JsAny.
Context {A : Type}.
Implicit Types (ps : list (Promise A)) (order : list (Completion A)).
Implicit Types (values : list (option (Settled A))).

Lemma timerDelay_in_range (ms : N) :
  (1 <= ms <= TIMEOUT_MAX)%N -> timerDelay ms = ms.
Proof.
  intros [Hlo Hhi]. unfold timerDelay.
  destruct (N.leb_spec 1 ms); [| lia].
  destruct (N.leb_spec ms TIMEOUT_MAX); [reflexivity | lia].
Qed.


Lemma any_fillSlots_snoc order (c : Completion A) values :
  fillSlots (order ++ [c]) values = <[c.2.1 := Some c.2.2]> (fillSlots order values).
Proof. unfold fillSlots. by rewrite fold_left_app. Qed.

Lemma any_fillSlots_length order values :
  length (fillSlots order values) = length values.
Proof.
  induction order as [| c order IH] using rev_ind; [reflexivity |].
  by rewrite any_fillSlots_snoc, length_insert.
Qed.

Lemma any_fillSlots_untouched order values (j : nat) :
  (forall c, c ∈ order -> c.2.1 <> j) ->
  fillSlots order values !! j = values !! j.
Proof.
  induction order as [| c order IH] using rev_ind; intros Hother; [reflexivity |].
  rewrite any_fillSlots_snoc, list_lookup_insert_ne.
  - apply IH. intros c' Hin. apply Hother, elem_of_app. by left.
  - apply Hother, elem_of_app. right. by apply list_elem_of_singleton.
Qed.

Lemma any_fillSlots_stored order values (j : nat) (s : Settled A) :
  (forall c, c ∈ order -> c.2.1 = j -> c.2.2 = s) ->
  (exists c, c ∈ order /\ c.2.1 = j) ->
  (j < length values)%nat ->
  fillSlots order values !! j = Some (Some s).
Proof.
  induction order as [| c order IH] using rev_ind; intros Hfun [c0 [Hin Hidx]] Hlen.
  - inversion Hin.
  - rewrite any_fillSlots_snoc.
    destruct (decide (c.2.1 = j)) as [Heq | Hne].
    + rewrite Heq, (Hfun c); [| | done].
      * apply list_lookup_insert_eq. by rewrite any_fillSlots_length.
      * apply elem_of_app. right. by apply list_elem_of_singleton.
    + rewrite list_lookup_insert_ne by done.
      apply IH; [| | done].
      * intros c' Hin'. apply Hfun, elem_of_app. by left.
      * exists c0. split; [| done].
        apply elem_of_app in Hin as [Hin | Hin]; [done |].
        apply list_elem_of_singleton in Hin. congruence.
Qed.

Lemma any_elem_of_completions ps (at_ : Time) (j : nat) (s : Settled A) :
  (at_, (j, s)) ∈ completions ps <-> ps !! j = Some (Some (at_, s)).
Proof.
  unfold completions. rewrite list_elem_of_omap. split.
  - intros [[i p] [Hin Hsome]]. cbn in Hsome.
    apply elem_of_lookup_imap in Hin as [i' [p' [Heq Hlook]]].
    destruct p as [[at' s'] |]; [| discriminate].
    by simplify_eq.
  - intros Hlook. exists (j, Some (at_, s)). split; [| reflexivity].
    apply (elem_of_lookup_imap_2 (fun i p => (i, p))). exact Hlook.
Qed.

(** In whatever order the completions are processed, slot [j] ends up
    holding the result of promise [j]. *)
Lemma any_fillSlots_any_order ps order :
  order ≡ₚ completions ps ->
  fillSlots order (replicate (length ps) None) = map result ps.
Proof.
  intros Hperm. apply list_eq. intros j.
  change (map result ps) with (result <$> ps). rewrite list_lookup_fmap.
  destruct (ps !! j) as [[[at_ s] |] |] eqn:Hj; cbn.
  - apply any_fillSlots_stored.
    + intros [at' [j' s']] Hin Hidx. cbn in *. subst j'.
      rewrite Hperm in Hin. apply any_elem_of_completions in Hin.
      pose proof (eq_trans (eq_sym Hj) Hin) as Heq. by inversion Heq.
    + exists (at_, (j, s)). split; [| reflexivity].
      rewrite Hperm. by apply any_elem_of_completions.
    + rewrite length_replicate. eapply lookup_lt_Some. exact Hj.
  - rewrite any_fillSlots_untouched.
    + apply lookup_replicate_2. eapply lookup_lt_Some. exact Hj.
    + intros [at' [j' s']] Hin Hidx. cbn in *. subst j'.
      rewrite Hperm in Hin. apply any_elem_of_completions in Hin.
      pose proof (eq_trans (eq_sym Hj) Hin) as Heq. by inversion Heq.
  - apply lookup_ge_None. rewrite any_fillSlots_length, length_replicate.
    by apply lookup_ge_None.
Qed.

Lemma any_omap_id_settled ps :
  forallb isSettled ps = true ->
  omap id (map result ps) = omap result ps /\
  length (omap result ps) = length ps.
Proof.
  induction ps as [| [[at_ s] |] ps IH]; cbn; intros Hall; [done | | done].
  destruct (IH Hall) as [IH1 IH2]. split; [by rewrite IH1 | by rewrite IH2].
Qed.

Lemma any_latest_bounded (bound : Time) order :
  (forall c, c ∈ order -> (c.1 <= bound)%N) ->
  (foldr N.max 0%N (map fst order) <= bound)%N.
Proof.
  induction order as [| c order IH]; cbn; intros Hall; [lia |].
  apply N.max_lub.
  - apply Hall. by left.
  - apply IH. intros c' Hin. apply Hall. by right.
Qed.

(** [Promise.allSettled]: once every input has settled, the aggregate is
    fulfilled with the results in input order, whatever the order of
    completion, and no later than the last input. *)
Lemma any_allSettled_in_input_order ps (bound : Time) :
  (forall p, p ∈ ps -> exists at_ s, p = Some (at_, s) /\ (at_ <= bound)%N) ->
  exists T, Promise_allSettled ps = resolved T (omap result ps) /\
            length (omap result ps) = length ps /\ (T <= bound)%N.
Proof.
  intros Hall.
  assert (Hsettled : forallb isSettled ps = true).
  { apply forallb_forall. intros p Hin.
    destruct (Hall p) as [at_ [s [-> _]]]; [by apply list_elem_of_In | done]. }
  unfold Promise_allSettled. rewrite Hsettled.
  eexists. split; [| split].
  - f_equal. f_equal. f_equal.
    rewrite any_fillSlots_any_order.
    + by apply any_omap_id_settled.
    + unfold completionOrder. apply merge_sort_Permutation.
  - by apply any_omap_id_settled.
  - apply any_latest_bounded. intros [at_ [j s]] Hin.
    unfold completionOrder in Hin. rewrite merge_sort_Permutation in Hin.
    apply any_elem_of_completions in Hin.
    destruct (Hall (Some (at_, s))) as [at' [s' [Heq Hle]]].
    + eapply list_elem_of_lookup_2. exact Hin.
    + inversion Heq. by subst.
Qed.

End AnyPromiseFacts.

(* ====================================================================== *)
(** ** Facts about the orchestrator, for any thrown value                  *)
(* ====================================================================== *)

Section AnyOrchestratorFacts.
Import I18n Types JsAny Plugin Outcomes.
Variable lang : Language.
Variable showQuotient : N -> string.

(** *** One task *)

(** What the [catch] clause makes of [err] at instant [at_]. *)
Lemma catchClause_cases (platformName : string) (at_ : Time) (err : Value) :
  notBefore at_ (catchClause platformName err)
  = settledAs at_
      (mapCall (fun text => Some (failed ("[" +:+ platformName +:+ "] " +:+ text)))
         (errorText err)).
Proof.
  unfold catchClause. destruct (errorText err) as [text | e']; cbn;
    by rewrite N.max_0_r.
Qed.

(** The task, case by case: a synchronous throw and a rejection that wins
    the race go through the [catch] clause, a value that wins the race is
    returned, and otherwise the timer's failure is. *)
Lemma queryWithTimeout_cases queryFn ms platformName :
  queryWithTimeout lang showQuotient queryFn ms platformName
  = match queryFn tt with
    | Throws e => notBefore 0 (catchClause platformName e)
    | Returns (Some (at_, s)) =>
        if (at_ <=? timerDelay ms)%N then
          match s with
          | Fulfilled value => resolved at_ value
          | Rejected e => notBefore at_ (catchClause platformName e)
          end
        else resolved (timerDelay ms)
               (Some (timeoutResult lang showQuotient ms platformName))
    | Returns None =>
        resolved (timerDelay ms) (Some (timeoutResult lang showQuotient ms platformName))
    end.
Proof.
  unfold queryWithTimeout.
  destruct (queryFn tt) as [[[at_ [value | e]] |] | e]; cbn.
  - destruct (N.leb_spec at_ (timerDelay ms)); cbn; by rewrite N.max_0_r.
  - destruct (N.leb_spec at_ (timerDelay ms)); cbn; [reflexivity |].
    by rewrite N.max_0_r.
  - by rewrite N.max_0_r.
  - reflexivity.
Qed.

Lemma any_queryWithTimeout_fulfilled_first queryFn ms platformName (at_ : Time) value :
  queryFn tt = Returns (resolved at_ value) -> (at_ < timerDelay ms)%N ->
  queryWithTimeout lang showQuotient queryFn ms platformName = resolved at_ value.
Proof.
  intros Hcall Hlt. rewrite queryWithTimeout_cases, Hcall. unfold resolved.
  destruct (N.leb_spec at_ (timerDelay ms)); [reflexivity | lia].
Qed.

Lemma any_queryWithTimeout_timer_first queryFn ms platformName query :
  queryFn tt = Returns query -> silentUntil (timerDelay ms) query ->
  queryWithTimeout lang showQuotient queryFn ms platformName
  = resolved (timerDelay ms) (Some (timeoutResult lang showQuotient ms platformName)).
Proof.
  intros Hcall Hsilent. rewrite queryWithTimeout_cases, Hcall.
  destruct query as [[at_ s] |]; [| reflexivity]. cbn in Hsilent.
  destruct (N.leb_spec at_ (timerDelay ms)); [lia | reflexivity].
Qed.


(** Every task settles by the time its timer fires; it is rejected only
    with what the [catch] clause threw for a value that the query raised. *)
Lemma any_queryWithTimeout_settles (p : PlatformQuery) :
  exists at_ s,
    queryWithTimeout lang showQuotient (queryFn p) (timeoutMs p) (name p) = Some (at_, s) /\
    (at_ <= timerDelay (timeoutMs p))%N /\
    (forall reason, s = Rejected reason ->
       exists e, mayRaise p e /\ errorText e = Throws reason).
Proof.
  rewrite queryWithTimeout_cases.
  destruct (queryFn p tt) as [[[at_ [value | e]] |] | e] eqn:Hcall.
  - destruct (N.leb_spec at_ (timerDelay (timeoutMs p))).
    + exists at_, (Fulfilled value). split; [reflexivity |]. split; [lia | discriminate].
    + eexists _, _. split; [reflexivity |]. split; [lia | discriminate].
  - destruct (N.leb_spec at_ (timerDelay (timeoutMs p))).
    + rewrite catchClause_cases.
      destruct (errorText e) as [text | e'] eqn:Htext; cbn.
      * eexists _, _. split; [reflexivity |]. split; [lia | discriminate].
      * exists at_, (Rejected e'). split; [reflexivity |]. split; [lia |].
        intros reason [= <-]. exists e. split; [| exact Htext].
        right. by exists at_.
    + eexists _, _. split; [reflexivity |]. split; [lia | discriminate].
  - eexists _, _. split; [reflexivity |]. split; [lia | discriminate].
  - rewrite catchClause_cases.
    destruct (errorText e) as [text | e'] eqn:Htext; cbn.
    + eexists _, _. split; [reflexivity |]. split; [lia | discriminate].
    + exists 0%N, (Rejected e'). split; [reflexivity |]. split; [lia |].
      intros reason [= <-]. exists e. split; [by left | exact Htext].
Qed.

(** *** The fan-out *)

Lemma any_toQueryResults_launch platforms (before : list (Settled (option QueryResult))) :
  toQueryResults (length before) platforms
    (before ++ omap result (launch lang showQuotient platforms))
  = registryResults lang showQuotient platforms.
Proof.
  revert before. unfold launch.
  induction platforms as [| p rest IH]; intros before; [reflexivity |].
  destruct (any_queryWithTimeout_settles p) as [at_ [s [Heq _]]].
  cbn. unfold taskOutcome. rewrite Heq. cbn.
  rewrite list_lookup_middle by reflexivity.
  destruct (settledToResult p s) as [r | e]; [| reflexivity].
  specialize (IH (before ++ [s])).
  rewrite length_app, Nat.add_1_r, <- app_assoc in IH. cbn in IH.
  by rewrite IH.
Qed.

Lemma any_launch_settles platforms (bound : Time) :
  (forall p, p ∈ platforms -> (timerDelay (timeoutMs p) <= bound)%N) ->
  forall task, task ∈ launch lang showQuotient platforms ->
    exists at_ s, task = Some (at_, s) /\ (at_ <= bound)%N.
Proof.
  intros Hbound task Hin. apply list_elem_of_fmap in Hin as [p [-> Hp]].
  destruct (any_queryWithTimeout_settles p) as [at_ [s [Heq [Hle _]]]].
  exists at_, s. split; [exact Heq |].
  specialize (Hbound p Hp). lia.
Qed.

Lemma lastTimer_bounded platforms :
  forall p, p ∈ platforms -> (timerDelay (timeoutMs p) <= lastTimer platforms)%N.
Proof.
  unfold lastTimer.
  induction platforms as [| q rest IH]; intros p Hin; [inversion Hin |].
  cbn. apply elem_of_cons in Hin as [-> | Hin]; [lia |].
  specialize (IH p Hin). lia.
Qed.

(** The index loop ends as the registry's own results do: with the
    platforms in registry order, each with its own result, or with what the
    loop threw at the first platform whose rejection reason cannot be put
    into text. *)
Lemma any_gather platforms :
  exists T,
    gather lang showQuotient platforms
    = settledAs T (registryResults lang showQuotient platforms) /\
    (T <= lastTimer platforms)%N.
Proof.
  destruct (any_allSettled_in_input_order (launch lang showQuotient platforms)
              (lastTimer platforms))
    as [T [Hall [_ Hle]]].
  { apply any_launch_settles, lastTimer_bounded. }
  exists T. split; [| exact Hle].
  unfold gather. rewrite Hall. cbn [await resolved].
  pose proof (any_toQueryResults_launch platforms []) as Hloop. cbn in Hloop.
  rewrite Hloop.
  destruct (registryResults lang showQuotient platforms); cbn; by rewrite N.max_0_r.
Qed.

(** *** The merge *)

Lemma any_collectResult_entry (pr : PlatformQuery * option QueryResult)
    (entries : list (string * string)) (errors : list string) :
  MyStatus.collectResult pr.2 (title pr.1) (Report.entryLines entries) errors
  = (Report.entryLines (entries ++ from_option (fun e => [e]) [] (successEntry pr)),
     errors ++ from_option (fun m => [m]) [] (errorMessage pr)).
Proof.
  unfold MyStatus.collectResult, successEntry, errorMessage.
  destruct pr.2 as [r |]; cbn.
  - destruct (success r && Js.truthy (output r)); cbn.
    + by rewrite entryLines_snoc, app_nil_r.
    + destruct (Js.truthy (error r)); cbn; by rewrite !app_nil_r.
  - by rewrite !app_nil_r.
Qed.

Lemma any_collect_from (queryResults : list (PlatformQuery * option QueryResult))
    (entries : list (string * string)) (errors : list string) :
  fold_left (fun lists pr => MyStatus.collectResult pr.2 (title pr.1) lists.1 lists.2)
            queryResults (Report.entryLines entries, errors)
  = (Report.entryLines (entries ++ successEntries queryResults),
     errors ++ errorMessages queryResults).
Proof.
  revert entries errors.
  induction queryResults as [| pr rest IH]; intros entries errors; cbn.
  - by rewrite !app_nil_r.
  - rewrite any_collectResult_entry, IH.
    unfold successEntries, errorMessages. cbn.
    destruct (successEntry pr), (errorMessage pr); cbn;
      by rewrite <- ?app_assoc, ?app_nil_r.
Qed.

Lemma any_collectAll_in_order (queryResults : list (PlatformQuery * option QueryResult)) :
  collectAll queryResults
  = (Report.entryLines (successEntries queryResults), errorMessages queryResults).
Proof. apply (any_collect_from queryResults [] []). Qed.

Lemma any_collect platforms :
  exists T,
    collect lang showQuotient platforms
    = settledAs T
        (mapCall (fun queryResults =>
                    (Report.entryLines (successEntries queryResults),
                     errorMessages queryResults))
           (registryResults lang showQuotient platforms)) /\
    (T <= lastTimer platforms)%N.
Proof.
  destruct (any_gather platforms) as [T [Hgather Hle]].
  exists T. split; [| exact Hle].
  unfold collect. rewrite Hgather.
  destruct (registryResults lang showQuotient platforms); cbn; [| reflexivity].
  by rewrite N.max_0_r, any_collectAll_in_order.
Qed.

(** The run ends as the loop does: with the report of the registry's
    results, or rejected with what the loop threw. *)
Lemma any_run platforms :
  exists T,
    run lang showQuotient platforms
    = settledAs T (mapCall (reportOf lang) (registryResults lang showQuotient platforms)) /\
    (T <= lastTimer platforms)%N.
Proof.
  destruct (any_collect platforms) as [T [Hcollect Hle]].
  exists T. split; [| exact Hle].
  unfold run. rewrite Hcollect.
  destruct (registryResults lang showQuotient platforms) as [queryResults | e]; cbn;
    [| reflexivity].
  rewrite N.max_0_r, summarize_report. unfold reportOf.
  by destruct (successEntries queryResults), (errorMessages queryResults).
Qed.

(** *** Platforms that can be reported *)

Lemma wellBehaved_outcome (p : PlatformQuery) :
  wellBehaved p -> exists r, taskOutcome lang showQuotient p = Returns r.
Proof.
  intros Hwell. unfold taskOutcome.
  destruct (any_queryWithTimeout_settles p) as [at_ [s [-> [_ Hreason]]]].
  destruct s as [value | reason]; [by exists value |].
  destruct (Hreason reason eq_refl) as [e [Hraise Htext]].
  specialize (Hwell e Hraise). unfold reportable in Hwell. rewrite Htext in Hwell.
  cbn. destruct (template reason) as [text | e']; [by eexists | discriminate].
Qed.

Lemma wellBehaved_registry platforms :
  Forall wellBehaved platforms ->
  registryResults lang showQuotient platforms = Returns (ownResults lang showQuotient platforms).
Proof.
  induction 1 as [| p rest Hp _ IH]; [reflexivity |].
  destruct (wellBehaved_outcome p Hp) as [r Hr].
  cbn. by rewrite Hr, IH.
Qed.


End AnyOrchestratorFacts.

(* ====================================================================== *)
(** ** Facts about the timeout text                                        *)
(* ====================================================================== *)

Section TimeoutTextFacts.
Import I18n JsAny Outcomes.

(** The text of the language table, from the text of the seconds. *)
Lemma timeoutError_table (lang : Language) (seconds : Js.Number) :
  timeoutError (t lang) seconds
  = Plugin.timeoutError lang (Js.Number_toString seconds).
Proof. by destruct lang. Qed.

(** A whole number of seconds prints as that number. *)
Lemma secondsText_whole (showQuotient : N -> string) (ms n : N) :
  ms = (1000 * n)%N -> (ms < 1000000000000000)%N ->
  secondsText showQuotient ms = pretty n.
Proof.
  intros -> Hlt. unfold secondsText.
  destruct (N.ltb_spec (1000 * n) 1000000000000000); [| lia].
  unfold Js.Number_toString, Js.div1000. cbn [Js.thousandths].
  replace ((1000 * n) mod 1000)%N with 0%N
    by (apply N.mod_unique with n; lia).
  replace ((1000 * n) / 1000)%N with n
    by (apply N.div_unique with 0%N; lia).
  reflexivity.
Qed.

(** Any other number of milliseconds prints with its decimals, trailing
    zeros left out. *)
Lemma secondsText_fraction (showQuotient : N -> string) (ms q d1 d2 d3 : N) :
  ms = (1000 * q + 100 * d1 + 10 * d2 + d3)%N ->
  (d1 < 10)%N -> (d2 < 10)%N -> (d3 < 10)%N ->
  (0 < 100 * d1 + 10 * d2 + d3)%N ->
  (ms < 1000000000000000)%N ->
  secondsText showQuotient ms = pretty q +:+ "." +:+ decimals d1 d2 d3.
Proof.
  intros -> H1 H2 H3 Hpos Hlt. unfold secondsText.
  destruct (N.ltb_spec (1000 * q + 100 * d1 + 10 * d2 + d3) 1000000000000000); [| lia].
  unfold Js.Number_toString, Js.div1000. cbn [Js.thousandths].
  set (r := (100 * d1 + 10 * d2 + d3)%N) in *.
  replace ((1000 * q + 100 * d1 + 10 * d2 + d3) mod 1000)%N with r
    by (apply N.mod_unique with q; unfold r; lia).
  replace ((1000 * q + 100 * d1 + 10 * d2 + d3) / 1000)%N with q
    by (apply N.div_unique with r; unfold r; lia).
  destruct (N.eqb_spec r 0) as [Hr | _]; [lia |].
  unfold Js.fraction, decimals.
  replace (r / 100)%N with d1 by (apply N.div_unique with (10 * d2 + d3)%N; unfold r; lia).
  replace (r / 10)%N with (10 * d1 + d2)%N
    by (apply N.div_unique with d3; unfold r; lia).
  replace ((10 * d1 + d2) mod 10)%N with d2 by (apply N.mod_unique with d1; lia).
  replace (r mod 10)%N with d3
    by (apply N.mod_unique with (10 * d1 + d2)%N; unfold r; lia).
  destruct (N.eqb_spec d3 0) as [-> | Hd3]; cbn [negb andb].
  - rewrite andb_true_r. destruct (N.eqb_spec d2 0); cbn [negb];
      by rewrite !append_empty_r.
  - by rewrite andb_false_r.
Qed.

Lemma append_cancel_l (s a b : string) : s +:+ a = s +:+ b -> a = b.
Proof.
  induction s as [| c s IH]; [done |].
  change (String c (s +:+ a) = String c (s +:+ b) -> a = b).
  intros [= H]. by apply IH.
Qed.

End TimeoutTextFacts.

(* ====================================================================== *)
(** ** Facts about a run, for any thrown value                             *)
(* ====================================================================== *)

Section AnyRunFacts.
Import I18n Types JsAny Plugin Outcomes.
Variable lang : Language.
Variable showQuotient : N -> string.

(** The loop throws for a platform only when the platform raised a value
    for which the [catch] clause threw something that the template literal
    could not convert either. *)
Lemma outcome_throws (p : PlatformQuery) (reason : Value) :
  taskOutcome lang showQuotient p = Throws reason ->
  exists e reason',
    mayRaise p e /\ errorText e = Throws reason' /\ template reason' = Throws reason.
Proof.
  unfold taskOutcome.
  destruct (any_queryWithTimeout_settles lang showQuotient p) as [at_ [s [-> [_ Hrej]]]].
  destruct s as [value | reason']; [discriminate |].
  destruct (Hrej reason' eq_refl) as [e [Hraise Htext]].
  cbn. destruct (template reason') as [text | e'] eqn:Hreason; [discriminate |].
  intros [= <-]. by exists e, reason'.
Qed.

Lemma registry_throws platforms (reason : Value) :
  registryResults lang showQuotient platforms = Throws reason ->
  exists p, p ∈ platforms /\ taskOutcome lang showQuotient p = Throws reason.
Proof.
  induction platforms as [| q rest IH]; [discriminate |]. cbn.
  destruct (taskOutcome lang showQuotient q) as [r | e] eqn:Hq.
  - destruct (registryResults lang showQuotient rest) as [qs | e]; [discriminate |].
    intros [= <-]. destruct (IH eq_refl) as [p [Hin Hp]].
    exists p. split; [by right | exact Hp].
  - intros [= <-]. exists q. split; [by left | exact Hq].
Qed.

Lemma reportOf_nonEmpty (queryResults : list (PlatformQuery * option QueryResult)) :
  Js.nonEmpty (reportOf lang queryResults) = true.
Proof.
  unfold reportOf.
  pose proof (reportText_nonEmpty lang (successEntries queryResults)
                (errorMessages queryResults)) as Hne.
  by destruct (successEntries queryResults), (errorMessages queryResults).
Qed.

End AnyRunFacts.

(* ====================================================================== *)
(** ** Facts about the tool, for any thrown value                          *)
(* ====================================================================== *)

Section AnyToolFacts.
Import I18n Types JsAny Plugin Outcomes.
Variables OpenAIAuthData ZhipuAuthData : Type.
Variable queryOpenAIUsage : option OpenAIAuthData -> Call (Promise (option QueryResult)).
Variable queryZhipuUsage : option ZhipuAuthData -> Call (Promise (option QueryResult)).
Variable queryZaiUsage : option ZhipuAuthData -> Call (Promise (option QueryResult)).
Variable queryGoogleUsage : unit -> Call (Promise (option QueryResult)).
Variable CopilotUsageResponse : Type.
Variable fetchWithTimeout :
  string -> list (string * string) -> Promise (Response CopilotUsageResponse).
Variable formatCopilotUsage : CopilotUsageResponse -> Call string.
Variable REQUEST_TIMEOUT_MS : N.
Variable authPath : string.
Variable lang : Language.
Variable showQuotient : N -> string.

Lemma any_registry_timer
    (authData : option (MyStatus.AuthData OpenAIAuthData ZhipuAuthData)) :
  lastTimer
    (platforms OpenAIAuthData ZhipuAuthData queryOpenAIUsage queryZhipuUsage
       queryZaiUsage queryGoogleUsage CopilotUsageResponse fetchWithTimeout
       formatCopilotUsage REQUEST_TIMEOUT_MS lang authData)
  = timerDelay REQUEST_TIMEOUT_MS.
Proof. unfold lastTimer. cbn. lia. Qed.

(** With the credentials read, the tool is the run over the registry. *)
Lemma any_execute_runs
    (authData : option (MyStatus.AuthData OpenAIAuthData ZhipuAuthData)) :
  execute OpenAIAuthData ZhipuAuthData queryOpenAIUsage queryZhipuUsage
    queryZaiUsage queryGoogleUsage CopilotUsageResponse fetchWithTimeout
    formatCopilotUsage REQUEST_TIMEOUT_MS authPath (Some (Fulfilled authData))
    lang showQuotient
  = run lang showQuotient
      (platforms OpenAIAuthData ZhipuAuthData queryOpenAIUsage queryZhipuUsage
         queryZaiUsage queryGoogleUsage CopilotUsageResponse fetchWithTimeout
         formatCopilotUsage REQUEST_TIMEOUT_MS lang authData).
Proof.
  unfold execute. cbn.
  match goal with |- notBefore _ ?r = _ => destruct r as [[T s] |] end; cbn;
    [by rewrite N.max_0_l | reflexivity].
Qed.

(** When the credentials cannot be read, the tool ends at once, as the
    [catch] clause does. *)
Lemma any_execute_unreadable (err : Value) :
  execute OpenAIAuthData ZhipuAuthData queryOpenAIUsage queryZhipuUsage
    queryZaiUsage queryGoogleUsage CopilotUsageResponse fetchWithTimeout
    formatCopilotUsage REQUEST_TIMEOUT_MS authPath (Some (Rejected err))
    lang showQuotient
  = settledAs 0 (mapCall (authError (t lang) authPath) (errorText err)).
Proof. unfold execute. cbn. by destruct (errorText err). Qed.

End AnyToolFacts.

(* ====================================================================== *)
(** ** Facts about the Copilot query, for any thrown value                 *)
(* ====================================================================== *)

Section AnyCopilotFacts.
Import I18n Types JsAny Plugin Outcomes.
Variable CopilotUsageResponse : Type.
Variable fetchWithTimeout :
  string -> list (string * string) -> Promise (Response CopilotUsageResponse).
Variable formatCopilotUsage : CopilotUsageResponse -> Call string.
Variable lang : Language.


(** With a usable credential the query is the guarded fetch-and-format:
    what the [try] block yields, a failure made of the text of what it
    raised, or a rejection with what computing that text threw. *)
Lemma any_queryCopilotUsage_usable (a : CopilotAuthData) :
  ~ unusable (Some a) ->
  exists token,
    refresh a = Some token /\
    queryCopilotUsage CopilotUsageResponse fetchWithTimeout formatCopilotUsage lang (Some a)
    = match fetchAndFormat CopilotUsageResponse fetchWithTimeout formatCopilotUsage
              lang token with
      | Some (at_, Rejected e) =>
          settledAs at_ (mapCall (fun text => Some (failed text)) (errorText e))
      | body => body
      end.
Proof.
  intros Husable. rewrite <- unusable_spec in Husable.
  apply not_true_is_false in Husable.
  destruct (refresh a) as [token |] eqn:Hrefresh.
  - exists token. split; [reflexivity |].
    unfold queryCopilotUsage. rewrite Hrefresh in *. rewrite Husable.
    change (default "" (Some token)) with token.
    destruct (fetchAndFormat _ _ _ _ token) as [[at_ [v | e]] |]; cbn; try reflexivity.
    destruct (errorText e); cbn; by rewrite N.max_0_r.
  - exfalso. cbn in Husable. by rewrite orb_true_r in Husable.
Qed.


End AnyCopilotFacts.

(* ====================================================================== *)
(** ** The two embeddings agree                                            *)
(* ====================================================================== *)

Section Agreement.
Import I18n Types.
Variable lang : Language.
Variable showQuotient : N -> string.

Lemma secondsText_in_range (ms : N) :
  Outcomes.inTimerRange ms ->
  JsAny.secondsText showQuotient ms = Js.Number_toString (Js.div1000 ms).
Proof.
  intros [_ Hhi]. unfold JsAny.secondsText, JsAny.TIMEOUT_MAX in *.
  destruct (N.ltb_spec ms 1000000000000000); [reflexivity | lia].
Qed.

(** For a platform that raises values of [Js.Value] only, under a budget
    that a timer waits for, the task of [Plugin] is the task of
    [MyStatus]. *)
Lemma plain_task_agrees (p : MyStatus.PlatformQuery) :
  Outcomes.inTimerRange (MyStatus.timeoutMs p) ->
  Plugin.queryWithTimeout lang showQuotient
    (Plugin.queryFn (Outcomes.plainPlatform p)) (MyStatus.timeoutMs p) (MyStatus.name p)
  = Outcomes.plainPromise
      (MyStatus.queryWithTimeout lang (MyStatus.queryFn p) (MyStatus.timeoutMs p)
         (MyStatus.name p)).
Proof.
  intros Hrange. rewrite queryWithTimeout_cases.
  rewrite (timerDelay_in_range _ Hrange).
  unfold Plugin.timeoutResult. rewrite (secondsText_in_range _ Hrange), <- timeoutError_table.
  unfold MyStatus.queryWithTimeout. cbn [Plugin.queryFn Outcomes.plainPlatform].
  destruct (MyStatus.queryFn p tt) as [[[at_ [value | e]] |] | e]; cbn.
  - destruct (N.leb_spec at_ (MyStatus.timeoutMs p)); cbn; by rewrite N.max_0_r.
  - destruct (N.leb_spec at_ (MyStatus.timeoutMs p)); cbn.
    + by destruct e.
    + by rewrite N.max_0_r.
  - by rewrite N.max_0_r.
  - by destruct e.
Qed.

(** The body of the loop over [settledResults] is the same in both. *)
Lemma plain_loop_agrees (p : MyStatus.PlatformQuery)
    (settled : Js.Settled (option QueryResult)) :
  Plugin.settledToResult (Outcomes.plainPlatform p) (Outcomes.plainSettled settled)
  = JsAny.Returns (MyStatus.settledToResult p settled).
Proof. by destruct settled. Qed.

Lemma plain_outcome_agrees (p : MyStatus.PlatformQuery) :
  Outcomes.inTimerRange (MyStatus.timeoutMs p) ->
  Outcomes.taskOutcome lang showQuotient (Outcomes.plainPlatform p)
  = JsAny.Returns (Report.taskResult lang p).
Proof.
  intros Hrange. unfold Outcomes.taskOutcome, Report.taskResult.
  cbn [Plugin.timeoutMs Plugin.name Outcomes.plainPlatform].
  rewrite (plain_task_agrees p Hrange).
  destruct (MyStatus.queryWithTimeout lang (MyStatus.queryFn p)
              (MyStatus.timeoutMs p) (MyStatus.name p)) as [[at_ settled] |];
    [apply plain_loop_agrees | reflexivity].
Qed.

Lemma plain_registry_agrees (platforms : list MyStatus.PlatformQuery) :
  Forall (fun p => Outcomes.inTimerRange (MyStatus.timeoutMs p)) platforms ->
  Outcomes.registryResults lang showQuotient (map Outcomes.plainPlatform platforms)
  = JsAny.Returns
      (map (fun pr : MyStatus.PlatformQuery * option QueryResult =>
              (Outcomes.plainPlatform pr.1, pr.2))
         (Report.inRegistryOrder lang platforms)).
Proof.
  induction 1 as [| p rest Hp _ IH]; [reflexivity |].
  cbn. by rewrite (plain_outcome_agrees p Hp), IH.
Qed.

Lemma plain_lists_agree (queryResults : list (MyStatus.PlatformQuery * option QueryResult)) :
  Outcomes.successEntries
    (map (fun pr : MyStatus.PlatformQuery * option QueryResult =>
            (Outcomes.plainPlatform pr.1, pr.2)) queryResults)
  = Report.successEntries queryResults /\
  Outcomes.errorMessages
    (map (fun pr : MyStatus.PlatformQuery * option QueryResult =>
            (Outcomes.plainPlatform pr.1, pr.2)) queryResults)
  = Report.errorMessages queryResults.
Proof.
  induction queryResults as [| [p r] rest [IHs IHe]]; [by split |].
  unfold Outcomes.successEntries, Outcomes.errorMessages,
    Report.successEntries, Report.errorMessages in *.
  cbn. rewrite IHs, IHe. by split.
Qed.

(** Under these conditions the run of [Plugin] is fulfilled with the very
    lists and the very report of the run of [MyStatus]: what is proved of
    [MyStatus.run] holds of the plug-in whenever the providers raise values
    of [Js.Value] only and every budget is between 1 and 2^31-1 ms. *)
Lemma plain_run_agrees (platforms : list MyStatus.PlatformQuery) :
  Forall (fun p => Outcomes.inTimerRange (MyStatus.timeoutMs p)) platforms ->
  exists T T' lists report,
    MyStatus.collect lang platforms = Js.resolved T lists /\
    Plugin.collect lang showQuotient (map Outcomes.plainPlatform platforms)
    = JsAny.resolved T' lists /\
    MyStatus.run lang platforms = Js.resolved T report /\
    Plugin.run lang showQuotient (map Outcomes.plainPlatform platforms)
    = JsAny.resolved T' report.
Proof.
  intros Hrange.
  destruct (collect_in_registry_order lang platforms) as [T [Hcollect _]].
  destruct (any_collect lang showQuotient (map Outcomes.plainPlatform platforms))
    as [T' [Hcollect' _]].
  rewrite (plain_registry_agrees platforms Hrange) in Hcollect'. cbn in Hcollect'.
  destruct (plain_lists_agree (Report.inRegistryOrder lang platforms)) as [Hs He].
  rewrite Hs, He in Hcollect'.
  exists T, T'. do 2 eexists.
  split; [exact Hcollect |]. split; [exact Hcollect' |].
  unfold MyStatus.run, Plugin.run. rewrite Hcollect, Hcollect'. cbn.
  rewrite !N.max_0_r. by split.
Qed.

(** The Copilot query of [Plugin] is that of [Copilot] when the network
    and the renderer raise values of [Js.Value] only. *)
Lemma plain_copilot_agrees (CopilotUsageResponse : Type)
    (fetchWithTimeout :
       string -> list (string * string)
       -> Js.Promise (Copilot.Response CopilotUsageResponse))
    (formatCopilotUsage : CopilotUsageResponse -> Js.Call string)
    (authData : option CopilotAuthData) :
  Plugin.queryCopilotUsage CopilotUsageResponse (Outcomes.plainNetwork fetchWithTimeout)
    (fun usage => Outcomes.plainCall (formatCopilotUsage usage)) lang authData
  = Outcomes.plainPromise
      (Copilot.queryCopilotUsage CopilotUsageResponse fetchWithTimeout
         formatCopilotUsage lang authData).
Proof.
  unfold Plugin.queryCopilotUsage, Copilot.queryCopilotUsage.
  destruct authData as [a |]; [| reflexivity].
  destruct (negb (String.eqb (type a) "oauth") || negb (Js.truthy (refresh a)));
    [reflexivity |].
  unfold Plugin.fetchAndFormat, Plugin.fetchCopilotUsage, Copilot.fetchCopilotUsage,
    Outcomes.plainNetwork.
  destruct (fetchWithTimeout _ _) as [[t1 [response | e]] |]; cbn;
    [| by destruct e | reflexivity].
  destruct (Copilot.ok response); cbn.
  - destruct (Copilot.json response) as [[t2 [usage | e]] |]; cbn;
      [| by destruct e | reflexivity].
    destruct (formatCopilotUsage usage) as [output | e]; cbn; [reflexivity |].
    by destruct e.
  - destruct (Copilot.text response) as [[t2 [body | e]] |]; cbn;
      [reflexivity | by destruct e | reflexivity].
Qed.

(** A run depends on a platform through its name, title, budget and what
    its query does when called. *)
Lemma taskOutcome_ext (p q : Plugin.PlatformQuery) :
  Outcomes.samePlatform p q ->
  Outcomes.taskOutcome lang showQuotient p = Outcomes.taskOutcome lang showQuotient q.
Proof.
  intros [Hname [_ [Hms Hcall]]]. unfold Outcomes.taskOutcome.
  rewrite !queryWithTimeout_cases, Hname, Hms, Hcall.
  match goal with |- match ?task with _ => _ end = _ => destruct task as [[at_ s] |] end;
    [| reflexivity].
  unfold Plugin.settledToResult. by rewrite Hname.
Qed.

Lemma registry_ext (ps qs : list Plugin.PlatformQuery) :
  Forall2 Outcomes.samePlatform ps qs ->
  Outcomes.mapCall (Outcomes.reportOf lang) (Outcomes.registryResults lang showQuotient ps)
  = Outcomes.mapCall (Outcomes.reportOf lang)
      (Outcomes.registryResults lang showQuotient qs).
Proof.
  intros Hsame.
  assert (Hlists :
    Outcomes.mapCall (fun queryResults => (Outcomes.successEntries queryResults,
                                           Outcomes.errorMessages queryResults))
      (Outcomes.registryResults lang showQuotient ps)
    = Outcomes.mapCall (fun queryResults => (Outcomes.successEntries queryResults,
                                             Outcomes.errorMessages queryResults))
        (Outcomes.registryResults lang showQuotient qs)).
  { induction Hsame as [| p q ps qs Hpq _ IH]; [reflexivity |].
    cbn. rewrite (taskOutcome_ext p q Hpq).
    destruct (Outcomes.taskOutcome lang showQuotient q) as [r | e]; [| reflexivity].
    destruct (Outcomes.registryResults lang showQuotient ps) as [rs | e],
             (Outcomes.registryResults lang showQuotient qs) as [rs' | e'];
      cbn in *; try discriminate; [| exact IH].
    injection IH as Hs He.
    unfold Outcomes.successEntries, Outcomes.errorMessages,
      Outcomes.successEntry, Outcomes.errorMessage in *.
    destruct Hpq as [_ [Htitle _]]. cbn. rewrite Htitle.
    fold (Outcomes.successEntry) in *. rewrite Hs, He. reflexivity. }
  unfold Outcomes.reportOf.
  destruct (Outcomes.registryResults lang showQuotient ps) as [rs | e],
           (Outcomes.registryResults lang showQuotient qs) as [rs' | e'];
    cbn in *; try discriminate; [| by injection Hlists as ->].
  injection Hlists as -> ->. reflexivity.
Qed.

End Agreement.

Section ToolAgreement.
Import I18n Types.
Variables OpenAIAuthData ZhipuAuthData : Type.
Variable queryOpenAIUsage
  : option OpenAIAuthData -> Js.Call (Js.Promise (option QueryResult)).
Variable queryZhipuUsage
  : option ZhipuAuthData -> Js.Call (Js.Promise (option QueryResult)).
Variable queryZaiUsage
  : option ZhipuAuthData -> Js.Call (Js.Promise (option QueryResult)).
Variable queryGoogleUsage : unit -> Js.Call (Js.Promise (option QueryResult)).
Variable CopilotUsageResponse : Type.
Variable fetchWithTimeout :
  string -> list (string * string) -> Js.Promise (Copilot.Response CopilotUsageResponse).
Variable formatCopilotUsage : CopilotUsageResponse -> Js.Call string.
Variable REQUEST_TIMEOUT_MS : N.
Variable authPath : string.
Variable lang : Language.
Variable showQuotient : N -> string.

(** Under a budget that a timer waits for, and with queries, a network and
    a renderer that raise values of [Js.Value] only, the tool of [Plugin]
    answers as the tool of [MyStatus] does. *)
Lemma tool_agrees (outcome : Js.Settled (MyStatus.AuthData OpenAIAuthData ZhipuAuthData)) :
  Outcomes.inTimerRange REQUEST_TIMEOUT_MS ->
  exists T T' answer,
    MyStatus.execute OpenAIAuthData ZhipuAuthData queryOpenAIUsage queryZhipuUsage
      queryZaiUsage queryGoogleUsage CopilotUsageResponse fetchWithTimeout
      formatCopilotUsage REQUEST_TIMEOUT_MS authPath (Some outcome) lang
    = Js.resolved T answer /\
    Plugin.execute OpenAIAuthData ZhipuAuthData
      (Outcomes.plainQuery queryOpenAIUsage) (Outcomes.plainQuery queryZhipuUsage)
      (Outcomes.plainQuery queryZaiUsage) (Outcomes.plainQuery queryGoogleUsage)
      CopilotUsageResponse (Outcomes.plainNetwork fetchWithTimeout)
      (fun usage => Outcomes.plainCall (formatCopilotUsage usage))
      REQUEST_TIMEOUT_MS authPath (Some (Outcomes.plainRead outcome)) lang showQuotient
    = JsAny.resolved T' answer.
Proof.
  intros Hrange. destruct outcome as [authData | err].
  - set (registry :=
      MyStatus.platforms OpenAIAuthData ZhipuAuthData queryOpenAIUsage queryZhipuUsage
        queryZaiUsage queryGoogleUsage CopilotUsageResponse fetchWithTimeout
        formatCopilotUsage REQUEST_TIMEOUT_MS lang authData).
    destruct (plain_run_agrees lang showQuotient registry)
      as [T [T0 [lists [report [_ [_ [Hrun Hrun0]]]]]]].
    { unfold registry, MyStatus.platforms.
      repeat (constructor; [exact Hrange |]). constructor. }
    cbn [Outcomes.plainRead]. rewrite execute_runs, any_execute_runs. fold registry.
    rewrite Hrun.
    match goal with
    | |- context [Plugin.run lang showQuotient ?ps] =>
        destruct (any_run lang showQuotient ps) as [T' [Hrun' _]];
        rewrite Hrun', (registry_ext lang showQuotient ps (map Outcomes.plainPlatform registry))
    end.
    + destruct (any_run lang showQuotient (map Outcomes.plainPlatform registry))
        as [T1 [Hrun1 _]].
      rewrite Hrun0 in Hrun1.
      destruct (Outcomes.registryResults lang showQuotient
                  (map Outcomes.plainPlatform registry)) as [rs | e];
        cbn in Hrun1; [| discriminate].
      injection Hrun1 as _ ->. by exists T, T', (Outcomes.reportOf lang rs).
    + unfold registry, MyStatus.platforms, Plugin.platforms, Outcomes.samePlatform.
      repeat constructor; cbn.
      f_equal. apply plain_copilot_agrees.
  - exists 0%N, 0%N, (authError (t lang) authPath (Js.errorText err)).
    split; [reflexivity |].
    cbn [Outcomes.plainRead]. rewrite any_execute_unreadable.
    by destruct err.
Qed.

End ToolAgreement.

(* ====================================================================== *)
(** ** Properties of a run, for any thrown value                           *)
(* ====================================================================== *)

Section AnyRunProperties.
Import I18n Types JsAny Plugin Outcomes.




End AnyRunProperties.

Section AnyTimeoutProperties.
Import I18n Types JsAny Plugin Outcomes.

(** C3, as stated, fails on the wording of the message.  The timeout text
    comes from the language table: for a platform "D" that never answers,
    with a budget of two seconds, the English report lists "[D] Request
    timeout (2s)", and in no language is the message "[D] request timeout
    (2s)". *)
Lemma timeout_text_is_from_the_table :
  run en Cases.noQuotient [Cases.platformD]
  = resolved 2000
      ("❌ Failed to query accounts:" +:+ Js.nl +:+ "[D] Request timeout (2s)") /\
  collect zh Cases.noQuotient [Cases.platformD]
  = resolved 2000 ([], ["[D] 请求超时 (2秒)"]) /\
  forall lang, exists T results errors,
    collect lang Cases.noQuotient [Cases.platformD] = resolved T (results, errors) /\
    "[D] request timeout (2s)" ∉ errors.
Proof.
  split; [reflexivity |]. split; [reflexivity |].
  intros lang. exists 2000%N. do 2 eexists. split; [by destruct lang |].
  destruct lang; cbn; rewrite list_elem_of_singleton; discriminate.
Qed.

(** C3, amended.  A platform whose query has not answered when its timer
    fires (it never answers, or answers too late) gets the timeout failure:
    its name in brackets and the timeout text of the language, "Request
    timeout (<seconds>s)" in English, "请求超时 (<seconds>秒)" and "請求逾時
    (<seconds>秒)" in the two Chinese tables.  The seconds are the budget
    divided by 1000 in decimal notation (for a budget under 10^15 ms): a
    whole number for a whole number of seconds, otherwise with up to three
    decimals and no trailing zero.  The timer fires when the budget has
    elapsed if the budget is between 1 and 2^31-1 ms.  The run completes
    all the same, no later than the last timer of the registry, and when it
    is fulfilled (as it is when every platform raises, if anything, values
    that can be reported) the message is in its error list. *)
Theorem silent_platform_times_out (lang : Language) (showQuotient : N -> string)
    (platforms : list PlatformQuery) (p : PlatformQuery) :
  p ∈ platforms ->
  staysSilent p ->
  exists seconds,
    let text :=
      match lang with
      | en => "Request timeout (" +:+ seconds +:+ "s)"
      | zh => "请求超时 (" +:+ seconds +:+ "秒)"
      | zh_tw => "請求逾時 (" +:+ seconds +:+ "秒)"
      end in
    let message := "[" +:+ name p +:+ "] " +:+ text in
    queryWithTimeout lang showQuotient (queryFn p) (timeoutMs p) (name p)
    = resolved (timerDelay (timeoutMs p)) (Some (failed message)) /\
    (forall n,
       timeoutMs p = (1000 * n)%N -> (timeoutMs p < 1000000000000000)%N ->
       seconds = pretty n) /\
    (forall q d1 d2 d3,
       timeoutMs p = (1000 * q + 100 * d1 + 10 * d2 + d3)%N ->
       (d1 < 10)%N -> (d2 < 10)%N -> (d3 < 10)%N ->
       (0 < 100 * d1 + 10 * d2 + d3)%N ->
       (timeoutMs p < 1000000000000000)%N ->
       seconds = pretty q +:+ "." +:+ decimals d1 d2 d3) /\
    ((1 <= timeoutMs p <= 2147483647)%N -> timerDelay (timeoutMs p) = timeoutMs p) /\
    (exists T s,
       run lang showQuotient platforms = Some (T, s) /\
       (T <= lastTimer platforms)%N) /\
    (forall T results errors,
       collect lang showQuotient platforms = resolved T (results, errors) ->
       message ∈ errors) /\
    (Forall wellBehaved platforms ->
     exists T results errors report,
       collect lang showQuotient platforms = resolved T (results, errors) /\
       message ∈ errors /\
       run lang showQuotient platforms = resolved T report /\
       (T <= lastTimer platforms)%N).
Proof.
  intros Hin [query [Hcall Hsilent]].
  exists (secondsText showQuotient (timeoutMs p)). intros text message.
  assert (Htask :
    queryWithTimeout lang showQuotient (queryFn p) (timeoutMs p) (name p)
    = resolved (timerDelay (timeoutMs p)) (Some (failed message))).
  { rewrite (any_queryWithTimeout_timer_first lang showQuotient _ _ _ query Hcall Hsilent).
    unfold timeoutResult, failed, message, text, Plugin.timeoutError. by destruct lang. }
  assert (Hout : taskOutcome lang showQuotient p = Returns (Some (failed message))).
  { unfold taskOutcome. by rewrite Htask. }
  assert (Hlisted : forall queryResults,
            registryResults lang showQuotient platforms = Returns queryResults ->
            message ∈ errorMessages queryResults).
  { clear Htask Hcall Hsilent. revert Hin.
    induction platforms as [| q rest IH]; intros Hin queryResults Hreg;
      [inversion Hin |].
    cbn in Hreg.
    destruct (taskOutcome lang showQuotient q) as [r |] eqn:Hq; [| discriminate].
    destruct (registryResults lang showQuotient rest) as [qs |]; [| discriminate].
    injection Hreg as <-. unfold errorMessages. cbn.
    apply elem_of_cons in Hin as [<- | Hin].
    - rewrite Hout in Hq. injection Hq as <-.
      unfold errorMessage at 1. cbn.
      replace (Js.nonEmpty message) with true by (by destruct lang). cbn. by left.
    - specialize (IH Hin qs eq_refl).
      destruct (errorMessage (q, r)); [right |]; exact IH. }
  split; [exact Htask |].
  split; [intros n; apply secondsText_whole |].
  split; [intros q d1 d2 d3; apply secondsText_fraction |].
  split; [apply timerDelay_in_range |].
  destruct (any_run lang showQuotient platforms) as [T [Hrun Hle]].
  destruct (any_collect lang showQuotient platforms) as [T' [Hcollect Hle']].
  split; [| split].
  - destruct (registryResults lang showQuotient platforms);
      eexists _, _; (split; [exact Hrun | exact Hle]).
  - intros T0 results errors Hc. rewrite Hc in Hcollect.
    destruct (registryResults lang showQuotient platforms) as [qs |] eqn:Hreg;
      [| discriminate].
    injection Hcollect as _ _ ->. by apply Hlisted.
  - intros Hwell.
    pose proof (wellBehaved_registry lang showQuotient platforms Hwell) as Hreg.
    rewrite Hreg in Hcollect.
    exists T'. do 3 eexists. split; [exact Hcollect |].
    split; [by apply Hlisted |]. split; [| exact Hle'].
    unfold run. rewrite Hcollect. cbn. by rewrite N.max_0_r.
Qed.

Lemma silent_platform_times_out_witness :
  Cases.platformD' ∈ [Cases.platformA; Cases.platformD'] /\
  staysSilent Cases.platformD' /\
  queryWithTimeout en Cases.noQuotient (queryFn Cases.platformD') 2500 "D"
  = resolved 2500 (Some (failed "[D] Request timeout (2.5s)")).
Proof.
  assert (Hin : Cases.platformD' ∈ [Cases.platformA; Cases.platformD'])
    by (right; left).
  assert (Hsilent : staysSilent Cases.platformD').
  { exists pending. split; [reflexivity | exact I]. }
  split; [exact Hin |]. split; [exact Hsilent |].
  destruct (silent_platform_times_out en Cases.noQuotient _ _ Hin Hsilent)
    as [seconds [Htask [_ [Hfraction _]]]].
  rewrite (Hfraction 2 5 0 0)%N in Htask by (cbn; first [reflexivity | lia]).
  exact Htask.
Defined.

(** C9, as stated, fails in its second half, and in its first half when
    the budget is read as the instant at which the timer fires.  A query that
    rejects after five milliseconds with an error whose message is the
    timeout text gets the very failure of the timer, although the query won
    the race; and a query that answers after five seconds under a budget of
    2^31 ms is cut off after one millisecond, as no timer waits that long. *)
Lemma timeout_failure_without_timeout :
  Promise_race
    [ rejected 5 (Plain (Js.Error "Request timeout (2s)"));
      setTimeout_resolve 2000 (Some (timeoutResult en Cases.noQuotient 2000 "T")) ]
  = rejected 5 (Plain (Js.Error "Request timeout (2s)")) /\
  queryWithTimeout en Cases.noQuotient (queryFn Cases.platformT) 2000 "T"
  = resolved 5 (Some (timeoutResult en Cases.noQuotient 2000 "T")) /\
  queryFn Cases.platformL tt = Returns (resolved 5000 (Some (succeeded "late"))) /\
  (5000 < timeoutMs Cases.platformL)%N /\
  queryWithTimeout en Cases.noQuotient (queryFn Cases.platformL)
    (timeoutMs Cases.platformL) "L"
  = resolved 1 (Some (failed "[L] Request timeout (2147483.648s)")).
Proof. repeat split; reflexivity. Qed.

(** C9, amended.  When the query's promise settles before the timer fires
    (after the budget if that is between 1 and 2^31-1 ms, after one
    millisecond otherwise), the timer plays no part: a fulfilled promise
    gives [queryWithTimeout] the very value it was fulfilled with, [null]
    (not configured) included, and the result is the same under every other
    budget whose timer fires later than the promise settles.  Nothing is
    delivered before the timer fires unless the query threw or its promise
    settled at that instant; so the task yields a failure with the timeout
    text either at the instant the timer fires, or because the query itself
    produced that failure or raised an error with that text. *)
Theorem settled_before_timer_passes_through (lang : Language)
    (showQuotient : N -> string)
    (queryFn : unit -> Call (Promise (option QueryResult)))
    (ms : N) (platformName : string)
    (at_ : Time) (s : Settled (option QueryResult)) :
  queryFn tt = Returns (Some (at_, s)) ->
  (at_ < timerDelay ms)%N ->
  let task := queryWithTimeout lang showQuotient queryFn in
  (forall value, s = Fulfilled value -> task ms platformName = resolved at_ value) /\
  (forall ms', (at_ < timerDelay ms')%N -> task ms' platformName = task ms platformName) /\
  timerDelay ms = (if (1 <=? ms)%N && (ms <=? 2147483647)%N then ms else 1%N) /\
  (forall (queryFn' : unit -> Call (Promise (option QueryResult))) T r,
     queryWithTimeout lang showQuotient queryFn' ms platformName = Some (T, r) ->
     (T < timerDelay ms)%N ->
     (exists e, queryFn' tt = Throws e) \/ (exists s', queryFn' tt = Returns (Some (T, s')))) /\
  (forall T,
     task ms platformName
     = resolved T (Some (timeoutResult lang showQuotient ms platformName)) ->
     s = Fulfilled (Some (timeoutResult lang showQuotient ms platformName)) \/
     exists e,
       s = Rejected e /\
       errorText e
       = Returns (Plugin.timeoutError lang (secondsText showQuotient ms))).
Proof.
  intros Hcall Hlt task. unfold task. clear task.
  assert (Hcases : forall ms', (at_ < timerDelay ms')%N ->
            queryWithTimeout lang showQuotient queryFn ms' platformName
            = match s with
              | Fulfilled value => resolved at_ value
              | Rejected e => notBefore at_ (catchClause platformName e)
              end).
  { intros ms' Hlt'. rewrite queryWithTimeout_cases, Hcall.
    destruct (N.leb_spec at_ (timerDelay ms')); [reflexivity | lia]. }
  split; [| split; [| split; [| split]]].
  - intros value ->. by rewrite Hcases.
  - intros ms' Hlt'. by rewrite !Hcases.
  - reflexivity.
  - intros queryFn' T r Heq HT. rewrite queryWithTimeout_cases in Heq.
    destruct (queryFn' tt) as [[[at' s'] |] | e]; [| | left; by exists e].
    + right. destruct (N.leb_spec at' (timerDelay ms)).
      * destruct s' as [value | e].
        -- injection Heq as <- _. by eexists.
        -- rewrite catchClause_cases in Heq.
           destruct (errorText e); cbn in Heq; injection Heq as <- _; by eexists.
      * injection Heq as <- _. lia.
    + injection Heq as <- _. lia.
  - intros T Heq. rewrite Hcases in Heq by done.
    destruct s as [value | e].
    + left. by injection Heq as _ ->.
    + right. exists e. split; [reflexivity |].
      rewrite catchClause_cases in Heq.
      destruct (errorText e) as [text | e']; cbn in Heq; [| discriminate].
      injection Heq as _ Htext. f_equal.
      by do 3 apply append_cancel_l in Htext.
Qed.

Lemma settled_before_timer_passes_through_witness :
  queryFn Cases.platformB tt = Returns (Some (100%N, Fulfilled None)) /\
  (100 < timerDelay 2000)%N /\
  queryWithTimeout en Cases.noQuotient (queryFn Cases.platformB) 2000 "B"
  = resolved 100 None.
Proof.
  split; [reflexivity |]. split; [reflexivity |].
  apply (proj1 (settled_before_timer_passes_through en Cases.noQuotient
                  (queryFn Cases.platformB) 2000 "B" 100 (Fulfilled None)
                  eq_refl eq_refl) None eq_refl).
Defined.

End AnyTimeoutProperties.

Section AnyCopilotProperties.
Import I18n Types JsAny Plugin Outcomes.




End AnyCopilotProperties.

Section AnyRunExtras.
Import I18n Types JsAny Plugin Outcomes.

(** X1.  Whatever the queries do (answer, fail, throw anything, hang), the
    run over a registry settles no later than the last timer of the registry
    fires, and when it is fulfilled its report is never the empty text.  It
    is fulfilled whenever every platform raises, if anything, values that can
    be reported; it rejects only when a platform raised a value for which the
    [catch] clause threw, while computing the error text, a reason that the
    loop over the settled results could not put into its template literal
    either, and then with what that conversion threw. *)
Theorem run_meets_deadline (lang : Language) (showQuotient : N -> string)
    (platforms : list PlatformQuery) :
  exists T s,
    run lang showQuotient platforms = Some (T, s) /\
    (T <= lastTimer platforms)%N /\
    (forall report, s = Fulfilled report -> Js.nonEmpty report = true) /\
    (Forall wellBehaved platforms -> exists report, s = Fulfilled report) /\
    (forall reason,
       s = Rejected reason ->
       exists p e reason',
         p ∈ platforms /\ mayRaise p e /\
         errorText e = Throws reason' /\ template reason' = Throws reason).
Proof.
  destruct (any_run lang showQuotient platforms) as [T [Hrun Hle]].
  destruct (registryResults lang showQuotient platforms) as [queryResults | e] eqn:Hreg.
  - exists T, (Fulfilled (reportOf lang queryResults)).
    split; [exact Hrun |]. split; [exact Hle |]. split; [| split].
    + intros report [= <-]. apply reportOf_nonEmpty.
    + intros _. by eexists.
    + discriminate.
  - exists T, (Rejected e).
    split; [exact Hrun |]. split; [exact Hle |]. split; [| split].
    + discriminate.
    + intros Hwell. rewrite (wellBehaved_registry lang showQuotient platforms Hwell) in Hreg.
      discriminate.
    + intros reason [= <-].
      destruct (registry_throws lang showQuotient platforms e Hreg) as [p [Hin Hp]].
      destruct (outcome_throws lang showQuotient p e Hp) as [e' [reason' H]].
      by exists p, e', reason'.
Qed.

Lemma run_meets_deadline_witness :
  Forall wellBehaved [Cases.platformD; Cases.platformN] /\
  exists T s,
    run en Cases.noQuotient [Cases.platformD; Cases.platformN] = Some (T, s) /\
    (T <= 2000)%N /\
    exists report, s = Fulfilled report.
Proof.
  assert (Hwell : Forall wellBehaved [Cases.platformD; Cases.platformN]).
  { repeat constructor; intros e [Hthrow | [at_ Hreject]];
      try discriminate; injection Hreject as _ <-; reflexivity. }
  split; [exact Hwell |].
  destruct (run_meets_deadline en Cases.noQuotient [Cases.platformD; Cases.platformN])
    as [T [s [Hrun [Hle [_ [Hfulfilled _]]]]]].
  exists T, s. split; [exact Hrun |]. split; [exact Hle |]. by apply Hfulfilled.
Defined.

(** X3.  [Promise.allSettled] over the tasks is fulfilled, no later than
    the last timer fires, with one result per platform at the platform's
    index.  A result is a rejection only for a platform that raised a value
    for which the [catch] clause of the task threw while it computed the
    error text, the reason being what it threw; the branch of the loop for a
    rejected task then makes the failure of the platform from the text of
    that reason, tagged with the platform's name. *)
Theorem rejected_tasks_are_reported (lang : Language) (showQuotient : N -> string)
    (platforms : list PlatformQuery) :
  exists T settledResults,
    Promise_allSettled (launch lang showQuotient platforms) = resolved T settledResults /\
    (T <= lastTimer platforms)%N /\
    length settledResults = length platforms /\
    (forall i p,
       platforms !! i = Some p ->
       exists at_ settled,
         settledResults !! i = Some settled /\
         queryWithTimeout lang showQuotient (queryFn p) (timeoutMs p) (name p)
         = Some (at_, settled) /\
         forall reason,
           settled = Rejected reason ->
           (exists e, mayRaise p e /\ errorText e = Throws reason) /\
           forall text,
             template reason = Returns text ->
             settledToResult p settled
             = Returns (Some (failed ("[" +:+ name p +:+ "] " +:+ text)))) /\
    toQueryResults 0 platforms settledResults = registryResults lang showQuotient platforms.
Proof.
  destruct (any_allSettled_in_input_order (launch lang showQuotient platforms)
              (lastTimer platforms)) as [T [Hall [Hlen Hle]]].
  { apply any_launch_settles, lastTimer_bounded. }
  exists T, (omap result (launch lang showQuotient platforms)).
  split; [exact Hall |]. split; [exact Hle |].
  split; [rewrite Hlen; unfold launch; by rewrite length_map |]. split.
  - intros i p Hp.
    destruct (any_queryWithTimeout_settles lang showQuotient p) as [at_ [s [Heq [_ Hrej]]]].
    exists at_, s. split; [| split; [exact Heq |]].
    + clear Hall Hlen Hle. revert i Hp. unfold launch.
      induction platforms as [| q rest IH]; intros i Hp; [done |].
      destruct (any_queryWithTimeout_settles lang showQuotient q) as [at' [s' [Hq _]]].
      cbn. rewrite Hq. cbn. destruct i as [| i]; cbn in *.
      * injection Hp as ->. rewrite Heq in Hq. by injection Hq as _ ->.
      * by apply IH.
    + intros reason ->. split; [by apply Hrej |].
      intros text Htext. cbn. by rewrite Htext.
  - apply (any_toQueryResults_launch lang showQuotient platforms []).
Qed.

Lemma rejected_tasks_are_reported_witness :
  exists T,
    collect en Cases.noQuotient [Cases.platformA; Cases.platformN]
    = resolved T
        (["## A"; ""; "X"],
         ["[N] TypeError: Cannot convert object to primitive value"]).
Proof.
  destruct (rejected_tasks_are_reported en Cases.noQuotient
              [Cases.platformA; Cases.platformN])
    as [T [settledResults [Hall [_ [_ [_ Hloop]]]]]].
  exists T. unfold collect, gather. rewrite Hall. cbn [await resolved]. rewrite Hloop.
  cbn. by rewrite !N.max_0_r.
Defined.

End AnyRunExtras.

Section AnyRenderingProperties.
Import I18n Types JsAny Plugin Outcomes.
Variable JsNumber : Type.
Variable minus : JsNumber -> JsNumber -> JsNumber.
Variable Math_round : JsNumber -> JsNumber.
Variable show : JsNumber -> string.
Variable isPositive : JsNumber -> bool.
Variable createProgressBar : JsNumber -> N -> string.
Variable Date_getTime : string -> option Z.
Variable now : Z.
Variable lang : Language.
Variable showQuotient : N -> string.
Variable fetchWithTimeout :
  string -> list (string * string) -> Promise (Response (Reply JsNumber)).

Let render :=
  CopilotFormat.formatCopilotUsage JsNumber minus Math_round show isPositive
    createProgressBar Date_getTime now lang.
Let format :=
  formatCopilotUsage JsNumber minus Math_round show isPositive createProgressBar
    Date_getTime now lang.

(** X14.  What becomes of a Copilot reply that was fetched and parsed in
    time.  A reply that has its [quota_snapshots] is shown: the query
    resolves to a success whose body is the rendering, which is never empty,
    so the merge step lists it under the platform's title and the report of
    a run with just this platform is the title, a blank line and the
    rendering.  A reply without [quota_snapshots], and the reply [null], are
    not shown: the renderer throws a [TypeError], the query resolves to a
    failure with the error's message, and the run lists that message, without
    the platform's name, under the failures header. *)
Theorem copilot_reply_is_shown_or_listed (copilot : PlatformQuery)
    (a : CopilotAuthData) (token : string) (t1 t2 : Time)
    (response : Response (Reply JsNumber)) (data : Reply JsNumber) :
  queryFn copilot tt
  = Returns (queryCopilotUsage (Reply JsNumber) fetchWithTimeout format lang (Some a)) ->
  type a = "oauth" ->
  refresh a = Some token ->
  Js.nonEmpty token = true ->
  fetchWithTimeout (Copilot.GITHUB_API_BASE_URL +:+ "/copilot_internal/user")
    (Copilot.buildGitHubHeaders token) = resolved t1 response ->
  ok response = true ->
  json response = resolved t2 data ->
  (N.max t1 t2 < timerDelay (timeoutMs copilot))%N ->
  exists T,
    collect lang showQuotient [copilot]
    = resolved T
        match data with
        | JsonObject copilot_plan quota_reset_date (Some quota_snapshots) =>
            ([ title copilot; "";
               render {| CopilotFormat.copilot_plan := copilot_plan;
                         CopilotFormat.quota_reset_date := quota_reset_date;
                         CopilotFormat.quota_snapshots := quota_snapshots |} ],
             [])
        | JsonObject _ _ None =>
            ([], ["Cannot read properties of undefined (reading 'premium_interactions')"])
        | JsonNull =>
            ([], ["Cannot read properties of null (reading 'copilot_plan')"])
        end /\
    run lang showQuotient [copilot]
    = resolved T
        match data with
        | JsonObject copilot_plan quota_reset_date (Some quota_snapshots) =>
            title copilot +:+ Js.nl +:+ Js.nl +:+
            render {| CopilotFormat.copilot_plan := copilot_plan;
                      CopilotFormat.quota_reset_date := quota_reset_date;
                      CopilotFormat.quota_snapshots := quota_snapshots |}
        | JsonObject _ _ None =>
            queryFailed (t lang) +:+
            "Cannot read properties of undefined (reading 'premium_interactions')"
        | JsonNull =>
            queryFailed (t lang) +:+
            "Cannot read properties of null (reading 'copilot_plan')"
        end.
Proof.
  intros Hcall Htype Hrefresh Htoken Hfetch Hok Hjson Hlt.
  assert (Husable : ~ unusable (Some a)).
  { cbn. rewrite Hrefresh. intros [H | [H | H]]; [done | done |].
    injection H as ->. discriminate. }
  destruct (any_queryCopilotUsage_usable (Reply JsNumber) fetchWithTimeout format lang
              a Husable) as [token' [Hrefresh' Hquery]].
  assert (token' = token) as -> by congruence.
  assert (Hbody :
    fetchAndFormat (Reply JsNumber) fetchWithTimeout format lang token
    = notBefore (N.max t1 t2)
        (call (format data) (fun output => async_return (Some (succeeded output))))).
  { unfold fetchAndFormat, fetchCopilotUsage. rewrite Hfetch. cbn.
    rewrite Hok, Hjson. cbn.
    destruct (format data); cbn; unfold resolved, rejected; do 2 f_equal; lia. }
  rewrite Hbody in Hquery. rewrite Hquery in Hcall.
  destruct (any_collect lang showQuotient [copilot]) as [T [Hcollect _]].
  exists T.
  assert (Htask : forall r,
    queryFn copilot tt = Returns (resolved (N.max t1 t2) r) ->
    registryResults lang showQuotient [copilot] = Returns [(copilot, r)]).
  { intros r Hr. cbn. unfold taskOutcome.
    by rewrite (any_queryWithTimeout_fulfilled_first lang showQuotient _ _ _ _ r Hr Hlt). }
  destruct data as [| copilot_plan quota_reset_date [quota_snapshots |]].
  - rewrite (Htask (Some (failed "Cannot read properties of null (reading 'copilot_plan')")))
      in Hcollect by (rewrite Hcall; cbn; by rewrite N.max_0_r).
    split; [exact Hcollect |].
    unfold run. rewrite Hcollect. cbn. by rewrite N.max_0_r.
  - rewrite (Htask (Some (succeeded
               (render {| CopilotFormat.copilot_plan := copilot_plan;
                          CopilotFormat.quota_reset_date := quota_reset_date;
                          CopilotFormat.quota_snapshots := quota_snapshots |}))))
      in Hcollect by (rewrite Hcall; cbn; by rewrite N.max_0_r).
    assert (Hlists :
      forall body, Js.nonEmpty body = true ->
        mapCall (fun queryResults => (Report.entryLines (successEntries queryResults),
                                      errorMessages queryResults))
          (Returns [(copilot, Some (succeeded body))])
        = Returns ([title copilot; ""; body], [])).
    { intros body Hne. unfold successEntries, errorMessages, successEntry, errorMessage.
      cbn. by rewrite Hne. }
    rewrite Hlists in Hcollect by apply render_nonEmpty.
    split; [exact Hcollect |].
    unfold run. rewrite Hcollect. cbn. by rewrite N.max_0_r.
  - rewrite (Htask (Some (failed
               "Cannot read properties of undefined (reading 'premium_interactions')")))
      in Hcollect by (rewrite Hcall; cbn; by rewrite N.max_0_r).
    split; [exact Hcollect |].
    unfold run. rewrite Hcollect. cbn. by rewrite N.max_0_r.
Qed.

End AnyRenderingProperties.

Lemma copilot_reply_is_shown_or_listed_witness :
  (exists T,
     Plugin.run en Cases.noQuotient [Cases.copilotPlatform Cases.sampleParsed]
     = JsAny.resolved T
         ("## GitHub Copilot Account Quota" +:+ nl +:+ nl +:+
          Scenario.sampleRender Scenario.sampleReply)) /\
  (exists T,
     Plugin.run en Cases.noQuotient [Cases.copilotPlatform Cases.emptyParsed]
     = JsAny.resolved T
         ("❌ Failed to query accounts:" +:+ nl +:+
          "Cannot read properties of undefined (reading 'premium_interactions')")).
Proof.
  split.
  - destruct (copilot_reply_is_shown_or_listed Z Z.sub (fun x => x) pretty (Z.ltb 0)
                Scenario.sampleBar Scenario.sampleDate 0%Z en Cases.noQuotient
                (Cases.replyNetwork Cases.sampleParsed)
                (Cases.copilotPlatform Cases.sampleParsed)
                Scenario.copilotCredential "gho_token" 120%N 125%N _ Cases.sampleParsed
                eq_refl eq_refl eq_refl eq_refl eq_refl eq_refl eq_refl eq_refl)
      as [T [_ Hrun]].
    exists T. exact Hrun.
  - destruct (copilot_reply_is_shown_or_listed Z Z.sub (fun x => x) pretty (Z.ltb 0)
                Scenario.sampleBar Scenario.sampleDate 0%Z en Cases.noQuotient
                (Cases.replyNetwork Cases.emptyParsed)
                (Cases.copilotPlatform Cases.emptyParsed)
                Scenario.copilotCredential "gho_token" 120%N 125%N _ Cases.emptyParsed
                eq_refl eq_refl eq_refl eq_refl eq_refl eq_refl eq_refl eq_refl)
      as [T [_ Hrun]].
    exists T. exact Hrun.
Defined.

Section AnyToolProperties.
Import I18n Types JsAny Plugin Outcomes.
Variables OpenAIAuthData ZhipuAuthData : Type.
Variable queryOpenAIUsage : option OpenAIAuthData -> Call (Promise (option QueryResult)).
Variable queryZhipuUsage : option ZhipuAuthData -> Call (Promise (option QueryResult)).
Variable queryZaiUsage : option ZhipuAuthData -> Call (Promise (option QueryResult)).
Variable queryGoogleUsage : unit -> Call (Promise (option QueryResult)).
Variable CopilotUsageResponse : Type.
Variable fetchWithTimeout :
  string -> list (string * string) -> Promise (Response CopilotUsageResponse).
Variable formatCopilotUsage : CopilotUsageResponse -> Call string.
Variable REQUEST_TIMEOUT_MS : N.
Variable authPath : string.
Variable lang : Language.
Variable showQuotient : N -> string.

Let registry (authData : option (MyStatus.AuthData OpenAIAuthData ZhipuAuthData))
    : list PlatformQuery :=
  platforms OpenAIAuthData ZhipuAuthData queryOpenAIUsage queryZhipuUsage
    queryZaiUsage queryGoogleUsage CopilotUsageResponse fetchWithTimeout
    formatCopilotUsage REQUEST_TIMEOUT_MS lang authData.

Let tool
    (readAuthData
       : option (Settled (option (MyStatus.AuthData OpenAIAuthData ZhipuAuthData))))
    : Promise string :=
  execute OpenAIAuthData ZhipuAuthData queryOpenAIUsage queryZhipuUsage
    queryZaiUsage queryGoogleUsage CopilotUsageResponse fetchWithTimeout
    formatCopilotUsage REQUEST_TIMEOUT_MS authPath readAuthData lang showQuotient.

(** X15.  Once the credential file has been read or has failed to be
    read, the tool settles no later than its timers fire (after
    [REQUEST_TIMEOUT_MS] if that is between 1 and 2^31-1 ms), and an answer
    it is fulfilled with is never the empty text.  When the file cannot be
    read or parsed, the tool ends at once and without a query: with the
    language's text for that, the path and the error's message text, or, if
    computing the message text throws, rejected with what was thrown.  When
    the file was read, the tool is fulfilled whenever every platform raises,
    if anything, values that can be reported. *)
Theorem tool_always_settles
    (outcome : Settled (option (MyStatus.AuthData OpenAIAuthData ZhipuAuthData))) :
  exists T s,
    tool (Some outcome) = Some (T, s) /\
    (T <= timerDelay REQUEST_TIMEOUT_MS)%N /\
    (forall answer, s = Fulfilled answer -> Js.nonEmpty answer = true) /\
    (forall err,
       outcome = Rejected err ->
       T = 0%N /\
       (forall text,
          errorText err = Returns text ->
          s = Fulfilled (authError (t lang) authPath text)) /\
       (forall reason, errorText err = Throws reason -> s = Rejected reason)) /\
    (forall authData,
       outcome = Fulfilled authData ->
       Forall wellBehaved (registry authData) ->
       exists answer, s = Fulfilled answer).
Proof.
  destruct outcome as [authData | err].
  - unfold tool. rewrite any_execute_runs. fold (registry authData).
    destruct (any_run lang showQuotient (registry authData)) as [T [Hrun Hle]].
    unfold registry in Hle. rewrite any_registry_timer in Hle.
    destruct (registryResults lang showQuotient (registry authData))
      as [queryResults | e] eqn:Hreg.
    + exists T, (Fulfilled (reportOf lang queryResults)).
      split; [exact Hrun |]. split; [exact Hle |].
      split; [intros answer [= <-]; apply reportOf_nonEmpty |].
      split; [discriminate |]. intros. by eexists.
    + exists T, (Rejected e).
      split; [exact Hrun |]. split; [exact Hle |]. split; [discriminate |].
      split; [discriminate |].
      intros authData' [= <-] Hwell.
      rewrite (wellBehaved_registry lang showQuotient _ Hwell) in Hreg. discriminate.
  - unfold tool. rewrite any_execute_unreadable.
    destruct (errorText err) as [text | reason] eqn:Htext; cbn.
    + exists 0%N, (Fulfilled (authError (t lang) authPath text)).
      split; [reflexivity |]. split; [lia |]. split; [| split; [| discriminate]].
      * intros answer [= <-]. apply authError_nonEmpty.
      * intros err' [= <-]. rewrite Htext. split; [reflexivity |].
        split; [by intros text' [= <-] | discriminate].
    + exists 0%N, (Rejected reason).
      split; [reflexivity |]. split; [lia |]. split; [discriminate |].
      split; [| discriminate].
      intros err' [= <-]. rewrite Htext. split; [reflexivity |].
      split; [discriminate | by intros reason' [= <-]].
Qed.

End AnyToolProperties.

Lemma tool_always_settles_witness :
  Plugin.execute unit unit
    (fun _ => JsAny.Returns JsAny.pending) (fun _ => JsAny.Returns JsAny.pending)
    (fun _ => JsAny.Returns JsAny.pending) (fun _ => JsAny.Returns JsAny.pending)
    unit Cases.unauthorizedNetwork Cases.plainFormat 10000
    "/home/user/.local/share/opencode/auth.json"
    (Some (JsAny.Rejected (JsAny.Plain (Error "ENOENT: no such file or directory"))))
    en Cases.noQuotient
  = JsAny.resolved 0
      ("❌ Failed to read auth file: /home/user/.local/share/opencode/auth.json"
       +:+ nl +:+ "Error: ENOENT: no such file or directory").
Proof.
  destruct (tool_always_settles unit unit
              (fun _ => JsAny.Returns JsAny.pending) (fun _ => JsAny.Returns JsAny.pending)
              (fun _ => JsAny.Returns JsAny.pending) (fun _ => JsAny.Returns JsAny.pending)
              unit Cases.unauthorizedNetwork Cases.plainFormat 10000
              "/home/user/.local/share/opencode/auth.json" en Cases.noQuotient
              (JsAny.Rejected (JsAny.Plain (Error "ENOENT: no such file or directory"))))
    as [T [s [Hrun [_ [_ [Herr _]]]]]].
  destruct (Herr _ eq_refl) as [-> [Htext _]].
  rewrite (Htext _ eq_refl) in Hrun. exact Hrun.
Defined.

(** A credential file that holds the text [null]: the four queries that
    read a credential fail inside their tasks, on reading a property of
    [null], and the report lists them. *)
Example null_credential_file :
  Plugin.execute unit unit
    (fun _ => JsAny.Returns JsAny.pending) (fun _ => JsAny.Returns JsAny.pending)
    (fun _ => JsAny.Returns JsAny.pending)
    (fun _ => JsAny.Returns (JsAny.resolved 3 None))
    unit Cases.unauthorizedNetwork Cases.plainFormat 10000
    "/home/user/.local/share/opencode/auth.json"
    (Some (JsAny.Fulfilled None))
    en Cases.noQuotient
  = JsAny.resolved 3
      ("❌ Failed to query accounts:" +:+ nl +:+
       "[OpenAI] Cannot read properties of null (reading 'openai')" +:+ nl +:+
       "[ZhipuAI] Cannot read properties of null (reading 'zhipuai-coding-plan')" +:+ nl +:+
       "[Z.ai] Cannot read properties of null (reading 'zai-coding-plan')" +:+ nl +:+
       "[Copilot] Cannot read properties of null (reading 'github-copilot')").
Proof. reflexivity. Qed.

(** A thrown symbol is converted by the [catch] clause, with [String]; a
    symbol that reaches the loop over the settled results as the reason of a
    rejection is not, as a template literal does not convert symbols. *)
Example thrown_symbols :
  Plugin.run en Cases.noQuotient
    [ {| Plugin.name := "Y"; Plugin.title := "## Y";
         Plugin.queryFn := fun _ => JsAny.Throws (JsAny.Symbol "oops");
         Plugin.timeoutMs := 2000 |} ]
  = JsAny.resolved 0 ("❌ Failed to query accounts:" +:+ nl +:+ "[Y] Symbol(oops)") /\
  Plugin.run en Cases.noQuotient
    [ {| Plugin.name := "Y"; Plugin.title := "## Y";
         Plugin.queryFn := fun _ =>
           JsAny.Throws (JsAny.ThrowingToString (JsAny.Symbol "oops"));
         Plugin.timeoutMs := 2000 |} ]
  = JsAny.rejected 0 JsAny.cannotConvertSymbol.
Proof. split; reflexivity. Qed.
